(** * jira-stalebot

    A shallow embedding of the Go package [internal/stalebot]: the policy
    configuration and its validation (config.go), the query builder, the
    staleness rule evaluator [IssueOperation] (operations.go) and the run
    loop with its three dispatched operations (stalebot.go).

    Conventions of the embedding:
    - Go [string] is a byte string, here [string] (a list of [ascii]);
    - Go [int], [int64] and [time.Duration] are [Z], with the 64-bit
      wrap-around written out where the source computes at run time;
    - [time.Time] is the wall-clock instant in nanoseconds since the Unix
      epoch, a [Z]; the issue timestamps carry no monotonic reading, so
      [Time.After] compares wall-clock instants;
    - [sets.String] of k8s.io/apimachinery is a [gset string];
    - a Go [error] is [option error], [None] being [nil];
    - the Jira client, the prompt on stdin and the logger are the effects
      of the run loop: a state monad over the world of the client, which
      also collects the calls and log lines in the order they happen. *)

From Stdlib Require Import ZArith Ascii String DecimalString List Sorted Bool Lia.
From stdpp Require Import base decidable option list gmap sets strings.

#[local] Open Scope Z_scope.

(** ** Go integers *)

Definition int64_wrap (z : Z) : Z := (z + 2 ^ 63) `mod` 2 ^ 64 - 2 ^ 63.

Definition int64_add (a b : Z) : Z := int64_wrap (a + b).
Definition int64_mul (a b : Z) : Z := int64_wrap (a * b).
Definition int64_neg (a : Z) : Z := int64_wrap (- a).

Definition int64_fits (z : Z) : Prop := - 2 ^ 63 <= z < 2 ^ 63.

(** [len] of a slice or of a string, as a Go [int]. *)
Definition len {A} (l : list A) : Z := Z.of_nat (length l).
Definition len_string (s : string) : Z := Z.of_nat (String.length s).

(** ** Package [strings] *)

(** [strings.Join(elems, sep)]. *)
Definition strings_Join (elems : list string) (sep : string) : string :=
  String.concat sep elems.

(** [strings.Contains(s, substr)]: [substr] occurs at some offset of [s]. *)
Fixpoint strings_Contains (s substr : string) : bool :=
  String.prefix substr s ||
  match s with
  | EmptyString => false
  | String _ s' => strings_Contains s' substr
  end.

(** [strings.Split(s, sep)] for a non-empty separator: the pieces of [s]
    between the occurrences of [sep], scanned from the left.  [skip] counts
    the bytes of a separator that was recognised and is still being passed
    over; [cur] is the piece being collected.  (The source only ever splits
    on a single space; the empty separator, which splits into UTF-8
    sequences, is not used and not modelled.) *)
Fixpoint strings_Split_from (sep : string) (skip : nat) (cur : string)
    (s : string) : list string :=
  match s with
  | EmptyString => [cur]
  | String c s' =>
      match skip with
      | S k => strings_Split_from sep k cur s'
      | O =>
          if String.prefix sep s
          then cur :: strings_Split_from sep (Nat.pred (String.length sep)) EmptyString s'
          else strings_Split_from sep O (cur +:+ String c EmptyString) s'
      end
  end.

Definition strings_Split (s sep : string) : list string :=
  strings_Split_from sep O EmptyString s.

(** ** Package [regexp]

    The two patterns of config.go are anchored at both ends ([^...$], and
    without the multi-line flag [$] is the end of the text), so
    [MatchString] holds exactly when the whole string is in the language of
    the pattern between the anchors.  The patterns only use byte ranges of
    ASCII, which no byte of a multi-byte or invalid UTF-8 sequence is in, so
    matching byte by byte is matching rune by rune. *)

Inductive Regexp : Type :=
| ReNone
| ReEmpty
| ReClass (ranges : list (ascii * ascii))
| ReCat (r1 r2 : Regexp)
| ReAlt (r1 r2 : Regexp)
| ReStar (r : Regexp).

Definition in_range (c : ascii) (rg : ascii * ascii) : bool :=
  (N_of_ascii (fst rg) <=? N_of_ascii c)%N && (N_of_ascii c <=? N_of_ascii (snd rg))%N.

Definition in_class (ranges : list (ascii * ascii)) (c : ascii) : bool :=
  existsb (in_range c) ranges.

Fixpoint re_nullable (r : Regexp) : bool :=
  match r with
  | ReNone => false
  | ReEmpty => true
  | ReClass _ => false
  | ReCat r1 r2 => re_nullable r1 && re_nullable r2
  | ReAlt r1 r2 => re_nullable r1 || re_nullable r2
  | ReStar _ => true
  end.

Fixpoint re_deriv (c : ascii) (r : Regexp) : Regexp :=
  match r with
  | ReNone => ReNone
  | ReEmpty => ReNone
  | ReClass ranges => if in_class ranges c then ReEmpty else ReNone
  | ReCat r1 r2 =>
      if re_nullable r1
      then ReAlt (ReCat (re_deriv c r1) r2) (re_deriv c r2)
      else ReCat (re_deriv c r1) r2
  | ReAlt r1 r2 => ReAlt (re_deriv c r1) (re_deriv c r2)
  | ReStar r1 => ReCat (re_deriv c r1) (ReStar r1)
  end.

Fixpoint re_match (r : Regexp) (s : string) : bool :=
  match s with
  | EmptyString => re_nullable r
  | String c s' => re_match (re_deriv c r) s'
  end.

(** [r{n,}]: at least [n] repetitions. *)
Fixpoint ReAtLeast (n : nat) (r : Regexp) : Regexp :=
  match n with
  | O => ReStar r
  | S k => ReCat r (ReAtLeast k r)
  end.

(** [regexp.MustCompile("^" + r + "$").MatchString(s)]. *)
Definition regexp_MatchString_anchored (r : Regexp) (s : string) : bool :=
  re_match r s.

(** ** Package [time] *)

Definition Time : Type := Z.
Definition Duration : Type := Z.

Definition time_Nanosecond : Duration := 1.
Definition time_Second : Duration := 1000000000.
Definition time_Hour : Duration := 3600 * time_Second.

(** [t.Add(d)] and [t.After(u)]. *)
Definition Time_Add (t : Time) (d : Duration) : Time := t + d.
Definition Time_After (t u : Time) : bool := u <? t.

(** ** Package [sets] of k8s.io/apimachinery: [sets.String] *)

Definition sets_NewString (items : list string) : gset string :=
  list_to_set items.

Definition sets_Has (s : gset string) (item : string) : bool :=
  bool_decide (item ∈ s).

Definition sets_HasAll (s : gset string) (items : list string) : bool :=
  forallb (sets_Has s) items.

Definition sets_HasAny (s : gset string) (items : list string) : bool :=
  existsb (sets_Has s) items.

Definition sets_Delete (s : gset string) (item : string) : gset string :=
  s ∖ {[ item ]}.

(** [List]: the members as a sorted slice. *)
Fixpoint insert_sorted (x : string) (l : list string) : list string :=
  match l with
  | [] => [x]
  | y :: l' => if String.leb x y then x :: l else y :: insert_sorted x l'
  end.

Definition sets_List (s : gset string) : list string :=
  foldr insert_sorted [] (elements s).

(** ** Package [fmt] and the [error] values of the package

    An error made by [fmt.Errorf] is kept as its format and arguments;
    [aggregateError] is the slice type of config.go.  [strconv.Quote], which
    the verb [%q] prints a string with, is the one function of the Go
    library left abstract. *)

Class GoQuote := strconv_Quote : string -> string.

Inductive fmtArg (E : Type) : Type :=
| ArgString (s : string)
| ArgInt (z : Z)
| ArgError (e : E).
Arguments ArgString {E} s.
Arguments ArgInt {E} z.
Arguments ArgError {E} e.

#[warnings="-register-all"] Inductive error : Type :=
| Errorf (format : string) (args : list (fmtArg error))
| aggregateError (errs : list error).

(** An operand of [Sprintf] once its [Error] or [String] method has run. *)
Inductive fmtVal : Type :=
| VString (s : string)
| VInt (z : Z).

Definition Z_decimal (z : Z) : string :=
  DecimalString.NilZero.string_of_int (Z.to_int z).

Definition fmt_verb `{GoQuote} (verb : ascii) (v : fmtVal) : string :=
  match v with
  | VString s => if Ascii.eqb verb "q" then strconv_Quote s else s
  | VInt z => Z_decimal z
  end.

(** [fmt.Sprintf] for the verbs the package uses ([%s], [%v], [%q] on
    strings and errors, [%d] on integers), every format of the package being
    a literal with as many verbs as operands. *)
Fixpoint fmt_Sprintf_from `{GoQuote} (pending : bool) (format : string)
    (args : list fmtVal) : string :=
  match format with
  | EmptyString => if pending then "%!(NOVERB)" else ""
  | String c rest =>
      if pending then
        if Ascii.eqb c "%" then String c (fmt_Sprintf_from false rest args)
        else
          match args with
          | v :: args' => fmt_verb c v +:+ fmt_Sprintf_from false rest args'
          | [] => "%!" +:+ String c "(MISSING)" +:+ fmt_Sprintf_from false rest []
          end
      else if Ascii.eqb c "%" then fmt_Sprintf_from true rest args
      else String c (fmt_Sprintf_from false rest args)
  end.

Definition fmt_Sprintf `{GoQuote} (format : string) (args : list fmtVal) : string :=
  fmt_Sprintf_from false format args.

(** The [Error] method: of an [Errorf] value its formatted message, of an
    [aggregateError] the messages of its elements joined (config.go). *)
Fixpoint Error `{GoQuote} (e : error) : string :=
  match e with
  | Errorf format args =>
      fmt_Sprintf format
        (map (fun a => match a with
                       | ArgString s => VString s
                       | ArgInt z => VInt z
                       | ArgError e' => VString (Error e')
                       end) args)
  | aggregateError errs =>
      fmt_Sprintf "multiple errors: %s" [VString (strings_Join (map Error errs) "; ")]
  end.

(** ** Package [jira]: the part of an issue the bot reads

    The pointers [Fields] and [Status] of an issue are taken as set (the
    search asks for the fields and the evaluator dereferences them without
    a test); [Changelog] is tested against [nil] by the source and is an
    option here. *)

Definition StatusCategoryComplete : string := "done".

Record StatusCategory := { StatusCategory_Key : string }.
Record Status := { Status_StatusCategory : StatusCategory }.
Record IssueType := { IssueType_Name : string }.

Record IssueFields := {
  Fields_Type : IssueType;
  Fields_Summary : string;
  Fields_Labels : list string;
  Fields_Status : Status;
  Fields_Updated : Time
}.

Record ChangelogItems := {
  Item_Field : string;
  Item_FromString : string;
  Item_ToString : string
}.

Record ChangelogHistory := { History_Items : list ChangelogItems }.
Record Changelog := { Histories : list ChangelogHistory }.

Record Issue := {
  Issue_ID : string;
  Issue_Key : string;
  Issue_Fields : IssueFields;
  Issue_Changelog : option Changelog
}.

Record TransitionStatus := { To_Name : string }.
Record Transition := { Transition_ID : string; Transition_To : TransitionStatus }.

Record SearchOptions := {
  Opt_StartAt : Z;
  Opt_MaxResults : Z;
  Opt_Expand : string;
  Opt_Fields : list string
}.

Record Response := { Resp_StartAt : Z; Resp_Total : Z }.

(** ** config.go *)

Record Config := {
  JiraBaseURL : string;
  Project : string;
  DaysUntilStale : Z;
  DaysUntilClose : Z;
  OnlyLabels : list string;
  ExemptLabels : list string;
  StaleLabel : string;
  MarkComment : string;
  UnmarkComment : string;
  CloseStatus : string;
  CloseComment : string;
  LimitPerRun : Z
}.

Definition set_StaleLabel (v : string) (c : Config) : Config :=
  {| JiraBaseURL := c.(JiraBaseURL); Project := c.(Project);
     DaysUntilStale := c.(DaysUntilStale); DaysUntilClose := c.(DaysUntilClose);
     OnlyLabels := c.(OnlyLabels); ExemptLabels := c.(ExemptLabels);
     StaleLabel := v; MarkComment := c.(MarkComment);
     UnmarkComment := c.(UnmarkComment); CloseStatus := c.(CloseStatus);
     CloseComment := c.(CloseComment); LimitPerRun := c.(LimitPerRun) |}.

Definition set_DaysUntilStale (v : Z) (c : Config) : Config :=
  {| JiraBaseURL := c.(JiraBaseURL); Project := c.(Project);
     DaysUntilStale := v; DaysUntilClose := c.(DaysUntilClose);
     OnlyLabels := c.(OnlyLabels); ExemptLabels := c.(ExemptLabels);
     StaleLabel := c.(StaleLabel); MarkComment := c.(MarkComment);
     UnmarkComment := c.(UnmarkComment); CloseStatus := c.(CloseStatus);
     CloseComment := c.(CloseComment); LimitPerRun := c.(LimitPerRun) |}.

Definition set_DaysUntilClose (v : Z) (c : Config) : Config :=
  {| JiraBaseURL := c.(JiraBaseURL); Project := c.(Project);
     DaysUntilStale := c.(DaysUntilStale); DaysUntilClose := v;
     OnlyLabels := c.(OnlyLabels); ExemptLabels := c.(ExemptLabels);
     StaleLabel := c.(StaleLabel); MarkComment := c.(MarkComment);
     UnmarkComment := c.(UnmarkComment); CloseStatus := c.(CloseStatus);
     CloseComment := c.(CloseComment); LimitPerRun := c.(LimitPerRun) |}.

Definition set_LimitPerRun (v : Z) (c : Config) : Config :=
  {| JiraBaseURL := c.(JiraBaseURL); Project := c.(Project);
     DaysUntilStale := c.(DaysUntilStale); DaysUntilClose := c.(DaysUntilClose);
     OnlyLabels := c.(OnlyLabels); ExemptLabels := c.(ExemptLabels);
     StaleLabel := c.(StaleLabel); MarkComment := c.(MarkComment);
     UnmarkComment := c.(UnmarkComment); CloseStatus := c.(CloseStatus);
     CloseComment := c.(CloseComment); LimitPerRun := v |}.

Definition set_MarkComment (v : string) (c : Config) : Config :=
  {| JiraBaseURL := c.(JiraBaseURL); Project := c.(Project);
     DaysUntilStale := c.(DaysUntilStale); DaysUntilClose := c.(DaysUntilClose);
     OnlyLabels := c.(OnlyLabels); ExemptLabels := c.(ExemptLabels);
     StaleLabel := c.(StaleLabel); MarkComment := v;
     UnmarkComment := c.(UnmarkComment); CloseStatus := c.(CloseStatus);
     CloseComment := c.(CloseComment); LimitPerRun := c.(LimitPerRun) |}.

Definition set_UnmarkComment (v : string) (c : Config) : Config :=
  {| JiraBaseURL := c.(JiraBaseURL); Project := c.(Project);
     DaysUntilStale := c.(DaysUntilStale); DaysUntilClose := c.(DaysUntilClose);
     OnlyLabels := c.(OnlyLabels); ExemptLabels := c.(ExemptLabels);
     StaleLabel := c.(StaleLabel); MarkComment := c.(MarkComment);
     UnmarkComment := v; CloseStatus := c.(CloseStatus);
     CloseComment := c.(CloseComment); LimitPerRun := c.(LimitPerRun) |}.

Definition defaultStaleLabel : string := "lifecycle-stale".
Definition defaultDaysUntilStale : Z := 90.
Definition defaultDaysUntilClose : Z := 14.
Definition defaultLimitPerRun : Z := 100.

Definition defaultMarkCommentFunc `{GoQuote} (c : Config) : string :=
  fmt_Sprintf
    ("[STALEBOT COMMENT] This issue is stale because it has not had activity for %d days. " +:+
     "Comment, remove label %q, or make any another update to this issue to avoid closure in %d days.")
    [VInt c.(DaysUntilStale); VString c.(StaleLabel); VInt c.(DaysUntilClose)].

Definition defaultUnmarkCommentFunc `{GoQuote} (c : Config) : string :=
  fmt_Sprintf
    ("[STALEBOT COMMENT] A recent update was detected, so this issue is no longer stale. " +:+
     "Removing stale label %q.")
    [VString c.(StaleLabel)].

Definition setDefaults `{GoQuote} (c : Config) : Config :=
  let c := if String.eqb c.(StaleLabel) "" then set_StaleLabel defaultStaleLabel c else c in
  let c := if c.(DaysUntilStale) <=? 0 then set_DaysUntilStale defaultDaysUntilStale c else c in
  let c := if c.(DaysUntilClose) <=? 0 then set_DaysUntilClose defaultDaysUntilClose c else c in
  let c := if c.(LimitPerRun) <=? 0 then set_LimitPerRun defaultLimitPerRun c else c in
  let c := if String.eqb c.(MarkComment) "" then set_MarkComment (defaultMarkCommentFunc c) c else c in
  let c := if String.eqb c.(UnmarkComment) "" then set_UnmarkComment (defaultUnmarkCommentFunc c) c else c in
  c.

(** The query builder. *)

Definition completeQuery `{GoQuote} (ands : list string) : string :=
  fmt_Sprintf "%s ORDER BY updatedDate DESC" [VString (strings_Join ands " AND ")].

Definition exemptOrOnlyLabels `{GoQuote} (c : Config) : list string :=
  let ands := [] in
  if 0 <? len c.(ExemptLabels) then
    ands ++ [fmt_Sprintf "(labels not in (%s) OR labels is EMPTY)"
               [VString (strings_Join c.(ExemptLabels) ",")]]
  else if 0 <? len c.(OnlyLabels) then
    fold_left (fun ands l => ands ++ [fmt_Sprintf "labels = %s" [VString l]])
      c.(OnlyLabels) ands
  else ands.

Definition EligibleIssuesQuery `{GoQuote} (c : Config) : string :=
  let ands := [fmt_Sprintf "project = %s" [VString c.(Project)];
               fmt_Sprintf "statusCategory != Done" []] in
  let ands := ands ++ exemptOrOnlyLabels c in
  completeQuery ands.

(** Validation. *)

Definition projectKeyPattern : Regexp := ReAtLeast 2 (ReClass [("A", "Z")]%char).

Definition labelPattern : Regexp :=
  ReAtLeast 1 (ReClass [("0", "9"); ("A", "Z"); ("a", "z"); ("-", "-")]%char).

(** [regexp.MustCompile("^[A-Z]{2,}$").MatchString(project)] *)
Definition isValidProjectKey (project : string) : bool :=
  regexp_MatchString_anchored projectKeyPattern project.

(** [regexp.MustCompile("^[0-9A-Za-z-]+$").MatchString(label)] *)
Definition isValidLabel (label : string) : bool :=
  regexp_MatchString_anchored labelPattern label.

(** The one-byte string holding the double quote. *)
Definition quoteChar : string := String "034"%char EmptyString.

Definition isValidStatusName (name : string) : bool :=
  (0 <? len_string name) && negb (strings_Contains name quoteChar).

(** A slice of the interface type [error] may hold [nil]: [option error]. *)
Definition newAggregateError (errs : list (option error)) : option error :=
  match errs with
  | [] => None
  | [e] => e
  | _ =>
      let nonNilErrors :=
        fold_left (fun acc err => match err with
                                  | Some e => acc ++ [e]
                                  | None => acc
                                  end) errs [] in
      Some (aggregateError nonNilErrors)
  end.

Definition Validate (c : Config) : option error :=
  let validateErrors : list (option error) := [] in
  let validateErrors :=
    if String.eqb c.(JiraBaseURL) ""
    then validateErrors ++ [Some (Errorf "config must specify `jiraBaseURL`" [])]
    else validateErrors in
  let validateErrors :=
    if negb (isValidProjectKey c.(Project))
    then validateErrors ++
         [Some (Errorf "config must specify valid project key (two or more uppercase letters)" [])]
    else validateErrors in
  let validateErrors :=
    if (0 <? len c.(OnlyLabels)) && (0 <? len c.(ExemptLabels))
    then validateErrors ++
         [Some (Errorf "config must not specify both onlyLabels and exemptLabels" [])]
    else validateErrors in
  let validateErrors :=
    fold_left (fun errs l =>
                 if negb (isValidLabel l)
                 then errs ++ [Some (Errorf "config contains invalid label `%s` in onlyLabels"
                                       [ArgString l])]
                 else errs) c.(OnlyLabels) validateErrors in
  let validateErrors :=
    fold_left (fun errs l =>
                 if negb (isValidLabel l)
                 then errs ++ [Some (Errorf "config contains invalid label `%s` in exemptLabels"
                                       [ArgString l])]
                 else errs) c.(ExemptLabels) validateErrors in
  let validateErrors :=
    if negb (isValidLabel c.(StaleLabel))
    then validateErrors ++
         [Some (Errorf "config must not specify invalid staleLabel `%s`" [ArgString c.(StaleLabel)])]
    else validateErrors in
  let validateErrors :=
    if negb (isValidStatusName c.(CloseStatus))
    then validateErrors ++
         [Some (Errorf "config must not specify invalid closeStatus `%s`" [ArgString c.(CloseStatus)])]
    else validateErrors in
  newAggregateError validateErrors.

(** ** operations.go *)

Inductive Operation : Type :=
| OpNone
| AddStaleLabel
| RemoveStaleLabel
| Close.

(** The string an [Operation] is ([type Operation string]). *)
Definition Operation_string (op : Operation) : string :=
  match op with
  | OpNone => "None"
  | AddStaleLabel => "AddStaleLabel"
  | RemoveStaleLabel => "RemoveStaleLabel"
  | Close => "Close"
  end.

#[global] Instance Operation_eq_dec : EqDecision Operation.
Proof. solve_decision. Defined.

Definition lastUpdateAddedStaleLabel (i : Issue) (staleLabel : string) : bool :=
  match i.(Issue_Changelog) with
  | Some changelog =>
      match last changelog.(Histories) with
      | Some lastUpdate =>
          existsb (fun item =>
                     String.eqb item.(Item_Field) "labels" &&
                     (let from := sets_NewString (strings_Split item.(Item_FromString) " ") in
                      let to := sets_NewString (strings_Split item.(Item_ToString) " ") in
                      negb (sets_Has from staleLabel) && sets_Has to staleLabel))
                  lastUpdate.(History_Items)
      | None => false
      end
  | None => false
  end.

(** [-time.Hour * 24 * time.Duration(days)]: the constant [-time.Hour * 24]
    times the configured number of days, in 64-bit nanoseconds. *)
Definition daysAgo (days : Z) : Duration :=
  int64_mul (int64_mul (int64_neg time_Hour) 24) days.

(** The staleness lifecycle, steps 1 to 3 of [IssueOperation]: what the
    evaluator does with an issue that passed the status and label tests. *)
Definition stalenessLifecycle (c : Config) (now : Time) (i : Issue)
    (issueLabels : gset string) : Operation :=
  if negb (sets_Has issueLabels c.(StaleLabel)) then
    if Time_After i.(Issue_Fields).(Fields_Updated)
         (Time_Add now (daysAgo c.(DaysUntilStale)))
    then OpNone
    else AddStaleLabel
  else if lastUpdateAddedStaleLabel i c.(StaleLabel) then
    if Time_After i.(Issue_Fields).(Fields_Updated)
         (Time_Add now (daysAgo c.(DaysUntilClose)))
    then OpNone
    else Close
  else RemoveStaleLabel.

Definition IssueOperation (c : Config) (now : Time) (i : Issue) : Operation :=
  if String.eqb
       i.(Issue_Fields).(Fields_Status).(Status_StatusCategory).(StatusCategory_Key)
       StatusCategoryComplete
  then OpNone
  else
    let issueLabels := sets_NewString i.(Issue_Fields).(Fields_Labels) in
    if 0 <? len c.(ExemptLabels) then
      if sets_HasAny issueLabels c.(ExemptLabels)
      then OpNone
      else stalenessLifecycle c now i issueLabels
    else if sets_HasAll issueLabels c.(OnlyLabels)
    then OpNone
    else stalenessLifecycle c now i issueLabels.

(** ** stalebot.go: the collaborators of the run loop

    [W] is the state of everything outside the bot: the Jira server behind
    the client, the clock, the terminal.  Every call takes the world and
    gives it back with its results. *)

(** [type labels] and [type update], the body of a label update. *)
Record labels := { labels_Add : string; labels_Remove : string }.
Record update := { update_Labels : list labels }.

Record Client (W : Type) := {
  Issue_Search : string -> SearchOptions -> W -> (list Issue * Response * option error) * W;
  Issue_AddComment : string -> string -> W -> option error * W;
  Issue_UpdateIssue : string -> update -> W -> option error * W;
  (** [Issue.Update] with [UpdateQueryOptions.NotifyUsers]. *)
  Issue_Update : Issue -> bool -> W -> option error * W;
  Issue_GetTransitions : string -> W -> (list Transition * option error) * W;
  Issue_DoTransition : string -> string -> W -> option error * W;
  (** [jira.NewJiraError(resp, err)] *)
  NewJiraError : error -> error
}.
Arguments Issue_Search {W} _ _ _ _.
Arguments Issue_AddComment {W} _ _ _ _.
Arguments Issue_UpdateIssue {W} _ _ _ _.
Arguments Issue_Update {W} _ _ _ _.
Arguments Issue_GetTransitions {W} _ _ _.
Arguments Issue_DoTransition {W} _ _ _ _.
Arguments NewJiraError {W} _ _.

(** The clock and the answer typed at the confirmation prompt.
    [promptToConfirm] waits for a line on stdin or for the cancellation of
    the context, whichever comes first; what it returns is the world's. *)
Record Host (W : Type) := {
  time_Now : W -> Time * W;
  promptToConfirm : Operation -> Issue -> W -> (bool * option error) * W
}.
Arguments time_Now {W} _ _.
Arguments promptToConfirm {W} _ _ _ _.

Record Stalebot (W : Type) := {
  bot_Client : Client W;
  bot_Config : Config;
  bot_DryRun : bool;
  bot_Prompt : bool
}.
Arguments bot_Client {W} _.
Arguments bot_Config {W} _.
Arguments bot_DryRun {W} _.
Arguments bot_Prompt {W} _.

(** What an observer of a run sees, in order: the calls on the client (a
    search with the page it returned), the prompts, the lines of the logger
    (the values bound by [WithValues], the message, its keys and values). *)
Inductive logValue : Type :=
| LogString (s : string)
| LogInt (z : Z).

Inductive Event : Type :=
| EvSearch (jql : string) (opt : SearchOptions) (chunk : list Issue)
| EvAddComment (issueID body : string)
| EvUpdateIssue (issueID : string) (reqBody : update)
| EvUpdate (issue : Issue) (notifyUsers : bool)
| EvGetTransitions (issueID : string)
| EvDoTransition (issueID transitionID : string)
| EvPrompt (op : Operation) (issueKey : string)
| EvLog (values : list (string * logValue)) (msg : string)
    (keysAndValues : list (string * logValue)).

(** The state monad of the run loop: a computation takes the world and
    returns its result, the new world and the events it caused. *)
Definition M (W A : Type) : Type := W -> A * W * list Event.

Definition ret {W A} (a : A) : M W A := fun w => (a, w, []).

Definition bind {W A B} (m : M W A) (k : A -> M W B) : M W B :=
  fun w =>
    let '(a, w1, t1) := m w in
    let '(b, w2, t2) := k a w1 in
    (b, w2, t1 ++ t2).

Notation "'let*' x ':=' m 'in' k" := (bind m (fun x => k))
  (at level 10, x pattern, m at level 200, k at level 200).

Definition emit {W} (e : Event) : M W unit := fun w => (tt, w, [e]).

(** A call on the world, recorded by [ev]. *)
Definition call {W A} (f : W -> A * W) (ev : A -> Event) : M W A :=
  fun w => let '(a, w') := f w in (a, w', [ev a]).

Definition quiet {W A} (f : W -> A * W) : M W A :=
  fun w => let '(a, w') := f w in (a, w', []).

Definition Logger_Info {W} (values : list (string * logValue)) (msg : string)
    (keysAndValues : list (string * logValue)) : M W unit :=
  emit (EvLog values msg keysAndValues).

Definition result_of {A W} (r : A * W * list Event) : A := fst (fst r).
Definition world_of {A W} (r : A * W * list Event) : W := snd (fst r).
Definition trace_of {A W} (r : A * W * list Event) : list Event := snd r.

#[global] Instance Operation_countable : Countable Operation.
Proof.
  refine (inj_countable'
            (fun op => match op with
                       | OpNone => 0%nat | AddStaleLabel => 1%nat
                       | RemoveStaleLabel => 2%nat | Close => 3%nat
                       end)
            (fun n => match n with
                      | 0%nat => OpNone | 1%nat => AddStaleLabel
                      | 2%nat => RemoveStaleLabel | _ => Close
                      end) _).
  intros []; reflexivity.
Defined.

(** [opCounts[op]] of a [map[Operation]int]: zero for a missing key. *)
Definition opCount (opCounts : gmap Operation Z) (op : Operation) : Z :=
  default 0 (opCounts !! op).

(** ** stalebot.go: the dispatched operations *)

Section Stalebot.
Context {W : Type}.

Definition Client_AddComment (cl : Client W) (issueID body : string) : M W (option error) :=
  call (Issue_AddComment cl issueID body) (fun _ => EvAddComment issueID body).

Definition Client_UpdateIssue (cl : Client W) (issueID : string) (reqBody : update)
    : M W (option error) :=
  call (Issue_UpdateIssue cl issueID reqBody) (fun _ => EvUpdateIssue issueID reqBody).

Definition Client_Update (cl : Client W) (issue : Issue) (notifyUsers : bool)
    : M W (option error) :=
  call (Issue_Update cl issue notifyUsers) (fun _ => EvUpdate issue notifyUsers).

Definition Client_GetTransitions (cl : Client W) (issueID : string)
    : M W (list Transition * option error) :=
  call (Issue_GetTransitions cl issueID) (fun _ => EvGetTransitions issueID).

Definition Client_DoTransition (cl : Client W) (issueID tID : string) : M W (option error) :=
  call (Issue_DoTransition cl issueID tID) (fun _ => EvDoTransition issueID tID).

Definition Client_Search (cl : Client W) (jql : string) (opt : SearchOptions)
    : M W (list Issue * Response * option error) :=
  call (Issue_Search cl jql opt) (fun r => EvSearch jql opt (fst (fst r))).

Definition addStaleLabel (bot : Stalebot W) (issue : Issue) : M W (option error) :=
  let* err := Client_AddComment (bot_Client bot) issue.(Issue_ID)
                (bot_Config bot).(MarkComment) in
  match err with
  | Some err => ret (Some (Errorf "add mark comment to issue: %v" [ArgError err]))
  | None =>
      let reqBody :=
        {| update_Labels := [ {| labels_Add := (bot_Config bot).(StaleLabel);
                                 labels_Remove := "" |} ] |} in
      let* err := Client_UpdateIssue (bot_Client bot) issue.(Issue_ID) reqBody in
      match err with
      | Some err =>
          ret (Some (Errorf "add stale label %q to issue: %v"
                       [ArgString (bot_Config bot).(StaleLabel);
                        ArgError (NewJiraError (bot_Client bot) err)]))
      | None => ret None
      end
  end.

Definition removeStaleLabel (bot : Stalebot W) (issue : Issue) : M W (option error) :=
  let* err := Client_AddComment (bot_Client bot) issue.(Issue_ID)
                (bot_Config bot).(UnmarkComment) in
  match err with
  | Some err => ret (Some (Errorf "add unmark comment to issue: %v" [ArgError err]))
  | None =>
      let reqBody :=
        {| update_Labels := [ {| labels_Add := "";
                                 labels_Remove := (bot_Config bot).(StaleLabel) |} ] |} in
      let* err := Client_UpdateIssue (bot_Client bot) issue.(Issue_ID) reqBody in
      match err with
      | Some err =>
          let err := NewJiraError (bot_Client bot) err in
          ret (Some (Errorf "remove stale label %q from issue: %v"
                       [ArgString (bot_Config bot).(StaleLabel);
                        ArgError (NewJiraError (bot_Client bot) err)]))
      | None => ret None
      end
  end.

(** The loop of [transitionID]: the ID of the first transition to the
    status, or the error. *)
Fixpoint transitionID (transitions : list Transition) (statusName : string)
    : string * option error :=
  match transitions with
  | [] => ("", Some (Errorf "no transition found to status %q" [ArgString statusName]))
  | t :: rest =>
      if String.eqb t.(Transition_To).(To_Name) statusName
      then (t.(Transition_ID), None)
      else transitionID rest statusName
  end.

Definition closeIssue (bot : Stalebot W) (issue : Issue) : M W (option error) :=
  let* (transitions, err) := Client_GetTransitions (bot_Client bot) issue.(Issue_ID) in
  match err with
  | Some err => ret (Some (Errorf "get transitions for issue: %v" [ArgError err]))
  | None =>
      let '(tID, err) := transitionID transitions (bot_Config bot).(CloseStatus) in
      match err with
      | Some err => ret (Some (Errorf "get transition ID: %v" [ArgError err]))
      | None =>
          let* err := Client_DoTransition (bot_Client bot) issue.(Issue_ID) tID in
          match err with
          | Some err =>
              ret (Some (Errorf "transition to status %q: %v"
                           [ArgString (bot_Config bot).(CloseStatus); ArgError err]))
          | None =>
              let* err := Client_AddComment (bot_Client bot) issue.(Issue_ID)
                            (bot_Config bot).(CloseComment) in
              match err with
              | Some err => ret (Some (Errorf "add close comment to issue: %v" [ArgError err]))
              | None => ret None
              end
          end
      end
  end.
End Stalebot.

(** ** stalebot.go: the run loop *)

(** How the body of the loop over a page leaves an issue: [continue] with
    the next issue, [return] an error from [Run], or go on with the body. *)
Inductive Flow : Type :=
| Continue
| Return (err : error)
| Proceed.

(** How the paging loop ends: [break], a [return] with an error, or a model
    that ran out of iterations (the loop has no bound of its own: it goes on
    while the server reports more issues than were read). *)
Inductive LoopEnd : Type :=
| Break (processed : Z) (opCounts : gmap Operation Z)
| Returned (err : error)
| OutOfFuel.

Section Run.
Context {W : Type} `{GoQuote} (host : Host W).

Definition confirm (bot : Stalebot W) (op : Operation) (issue : Issue) : M W Flow :=
  if bot_Prompt bot then
    let* (confirmed, err) :=
      call (promptToConfirm host op issue) (fun _ => EvPrompt op issue.(Issue_Key)) in
    match err with
    | Some err => ret (Return (Errorf "confirm operation: %v" [ArgError err]))
    | None => if confirmed then ret Proceed else ret Continue
    end
  else ret Proceed.

(** The [switch] on the operation. *)
Definition dispatch (bot : Stalebot W) (op : Operation) (issue : Issue)
    : M W (option (option error)) :=
  match op with
  | OpNone => ret None
  | AddStaleLabel => let* err := addStaleLabel bot issue in ret (Some err)
  | RemoveStaleLabel => let* err := removeStaleLabel bot issue in ret (Some err)
  | Close => let* err := closeIssue bot issue in ret (Some err)
  end.

(** The body of [for _, issue := range chunk] after the tally; [None] is
    the end of the body or a [continue], [Some err] a [return]. *)
Definition processIssue (bot : Stalebot W) (op : Operation) (issue : Issue)
    : M W (option error) :=
  let issueLogger := [("key", LogString issue.(Issue_Key))] in
  if decide (op = OpNone) then ret None
  else
    let* flow := confirm bot op issue in
    match flow with
    | Return err => ret (Some err)
    | Continue => ret None
    | Proceed =>
        if bot_DryRun bot then
          let* _ := Logger_Info issueLogger "dry-run operation"
                      [("op", LogString (Operation_string op))] in
          ret None
        else
          let* _ := Logger_Info issueLogger "performing operation"
                      [("op", LogString (Operation_string op))] in
          let* done := dispatch bot op issue in
          match done with
          | None => ret None
          | Some (Some err) =>
              ret (Some (Errorf "operation %q failed on issue %q: %v"
                           [ArgString (Operation_string op);
                            ArgString issue.(Issue_Key); ArgError err]))
          | Some None =>
              let* _ := Logger_Info issueLogger "operation succeeded"
                          [("op", LogString (Operation_string op))] in
              ret None
          end
    end.

Fixpoint processChunk (bot : Stalebot W) (now : Time) (chunk : list Issue)
    (opCounts : gmap Operation Z) : M W (gmap Operation Z * option error) :=
  match chunk with
  | [] => ret (opCounts, None)
  | issue :: rest =>
      let op := IssueOperation (bot_Config bot) now issue in
      let opCounts := <[op := int64_add (opCount opCounts op) 1]> opCounts in
      let* err := processIssue bot op issue in
      match err with
      | Some err => ret (opCounts, Some err)
      | None => processChunk bot now rest opCounts
      end
  end.

Fixpoint searchLoop (fuel : nat) (bot : Stalebot W) (eligibleIssuesQuery : string)
    (now : Time) (last processed : Z) (opCounts : gmap Operation Z) : M W LoopEnd :=
  match fuel with
  | O => ret OutOfFuel
  | S fuel' =>
      let opt := {| Opt_MaxResults := 1000;
                    Opt_StartAt := last;
                    Opt_Fields := ["key,issuetype,summary,labels,status,changelog,updated"];
                    Opt_Expand := "changelog" |} in
      let* (chunk, resp, err) := Client_Search (bot_Client bot) eligibleIssuesQuery opt in
      match err with
      | Some err => ret (Returned (Errorf "search for eligible issues: %v" [ArgError err]))
      | None =>
          let* (opCounts, err) := processChunk bot now chunk opCounts in
          match err with
          | Some err => ret (Returned err)
          | None =>
              let processed := int64_add processed (len chunk) in
              let total := resp.(Resp_Total) in
              let last := int64_add resp.(Resp_StartAt) (len chunk) in
              if total <=? last
              then ret (Break processed opCounts)
              else searchLoop fuel' bot eligibleIssuesQuery now last processed opCounts
          end
      end
  end.

(** [Run]: [Some r] is the return of [Run] with the error [r], [None] a
    loop that did not end within [fuel] pages.  The client of the bot is
    never [nil] here, so the panic of the first lines cannot happen. *)
Definition Run (fuel : nat) (bot : Stalebot W) : M W (option (option error)) :=
  match Validate (bot_Config bot) with
  | Some err => ret (Some (Some (Errorf "invalid stalebot config: %v" [ArgError err])))
  | None =>
      let eligibleIssuesQuery := EligibleIssuesQuery (bot_Config bot) in
      let last := 0 in
      let* now := quiet (time_Now host) in
      let processed := 0 in
      let opCounts : gmap Operation Z := ∅ in
      let* _ := Logger_Info [] "querying jira" [("jql", LogString eligibleIssuesQuery)] in
      let* fin := searchLoop fuel bot eligibleIssuesQuery now last processed opCounts in
      match fin with
      | OutOfFuel => ret None
      | Returned err => ret (Some (Some err))
      | Break processed opCounts =>
          let* _ := Logger_Info [] "found eligible issues" [("count", LogInt processed)] in
          let* _ := Logger_Info [] "operations"
                      [(Operation_string AddStaleLabel, LogInt (opCount opCounts AddStaleLabel));
                       (Operation_string RemoveStaleLabel, LogInt (opCount opCounts RemoveStaleLabel));
                       (Operation_string Close, LogInt (opCount opCounts Close))] in
          ret (Some None)
      end
  end.
End Run.

(** The operations a run dispatched: its "performing operation" lines. *)
Definition isPerforming (e : Event) : bool :=
  match e with
  | EvLog _ msg _ => String.eqb msg "performing operation"
  | _ => false
  end.

Definition dispatched (tr : list Event) : nat := length (List.filter isPerforming tr).

(** The calls that change an issue on the server. *)
Definition isChange (e : Event) : bool :=
  match e with
  | EvAddComment _ _ | EvUpdateIssue _ _ | EvUpdate _ _ | EvDoTransition _ _ => true
  | _ => false
  end.

(** The issues, over the pages the searches of a run returned, that the
    evaluator maps to an operation other than [None]. *)
Definition actionable (c : Config) (now : Time) (i : Issue) : bool :=
  negb (bool_decide (IssueOperation c now i = OpNone)).

Fixpoint foundActionable (c : Config) (now : Time) (tr : list Event) : nat :=
  match tr with
  | [] => 0
  | EvSearch _ _ chunk :: tr' =>
      (length (List.filter (actionable c now) chunk) + foundActionable c now tr')%nat
  | _ :: tr' => foundActionable c now tr'
  end.

(** ** The earlier stalebot.go

    The file stalebot.go of the tree is an earlier state of the run loop: it
    plans and counts the operations and performs none of them, and its
    helpers, which nothing calls, update the issue before they comment. *)

Module Legacy.
Section Legacy.
Context {W : Type} `{GoQuote} (host : Host W).

Definition set_Labels (v : list string) (issue : Issue) : Issue :=
  {| Issue_ID := issue.(Issue_ID);
     Issue_Key := issue.(Issue_Key);
     Issue_Fields :=
       {| Fields_Type := issue.(Issue_Fields).(Fields_Type);
          Fields_Summary := issue.(Issue_Fields).(Fields_Summary);
          Fields_Labels := v;
          Fields_Status := issue.(Issue_Fields).(Fields_Status);
          Fields_Updated := issue.(Issue_Fields).(Fields_Updated) |};
     Issue_Changelog := issue.(Issue_Changelog) |}.

Definition addStaleLabel (bot : Stalebot W) (issue : Issue) : M W (option error) :=
  let issue :=
    set_Labels (issue.(Issue_Fields).(Fields_Labels) ++ [(bot_Config bot).(StaleLabel)]) issue in
  let* err := Client_Update (bot_Client bot) issue true in
  match err with
  | Some err =>
      ret (Some (Errorf "add stale label %q to issue: %v"
                   [ArgString (bot_Config bot).(StaleLabel); ArgError err]))
  | None =>
      let* err := Client_AddComment (bot_Client bot) issue.(Issue_ID)
                    (bot_Config bot).(MarkComment) in
      match err with
      | Some err => ret (Some (Errorf "add mark comment to issue: %v" [ArgError err]))
      | None => ret None
      end
  end.

Definition removeStaleLabel (bot : Stalebot W) (issue : Issue) : M W (option error) :=
  let issue :=
    set_Labels
      (sets_List (sets_Delete (sets_NewString issue.(Issue_Fields).(Fields_Labels))
                    (bot_Config bot).(StaleLabel))) issue in
  let* err := Client_Update (bot_Client bot) issue false in
  match err with
  | Some err =>
      ret (Some (Errorf "remove stale label %q from issue: %v"
                   [ArgString (bot_Config bot).(StaleLabel); ArgError err]))
  | None =>
      let* err := Client_AddComment (bot_Client bot) issue.(Issue_ID)
                    (bot_Config bot).(UnmarkComment) in
      match err with
      | Some err => ret (Some (Errorf "add unmark comment to issue: %v" [ArgError err]))
      | None => ret None
      end
  end.

Fixpoint planChunk (bot : Stalebot W) (now : Time) (chunk : list Issue)
    (opCounts : gmap Operation Z) : M W (gmap Operation Z) :=
  match chunk with
  | [] => ret opCounts
  | issue :: rest =>
      let issueLogger := [("key", LogString issue.(Issue_Key))] in
      let op := IssueOperation (bot_Config bot) now issue in
      let opCounts := <[op := int64_add (opCount opCounts op) 1]> opCounts in
      let* _ := Logger_Info issueLogger "planned operation"
                  [("op", LogString (Operation_string op))] in
      planChunk bot now rest opCounts
  end.

Fixpoint searchLoop (fuel : nat) (bot : Stalebot W) (eligibleIssuesQuery : string)
    (now : Time) (last processed : Z) (opCounts : gmap Operation Z) : M W LoopEnd :=
  match fuel with
  | O => ret OutOfFuel
  | S fuel' =>
      let opt := {| Opt_MaxResults := 1000;
                    Opt_StartAt := last;
                    Opt_Fields := ["key,summary,labels,status,changelog,updated"];
                    Opt_Expand := "changelog" |} in
      let* (chunk, resp, err) := Client_Search (bot_Client bot) eligibleIssuesQuery opt in
      match err with
      | Some err => ret (Returned (Errorf "search for eligible issues: %v" [ArgError err]))
      | None =>
          let* opCounts := planChunk bot now chunk opCounts in
          let processed := int64_add processed (len chunk) in
          let total := resp.(Resp_Total) in
          let last := int64_add resp.(Resp_StartAt) (len chunk) in
          if total <=? last
          then ret (Break processed opCounts)
          else searchLoop fuel' bot eligibleIssuesQuery now last processed opCounts
      end
  end.

Definition Run (fuel : nat) (bot : Stalebot W) : M W (option (option error)) :=
  match Validate (bot_Config bot) with
  | Some err => ret (Some (Some (Errorf "invalid stalebot config: %v" [ArgError err])))
  | None =>
      let eligibleIssuesQuery := EligibleIssuesQuery (bot_Config bot) in
      let last := 0 in
      let* now := quiet (time_Now host) in
      let processed := 0 in
      let opCounts : gmap Operation Z := ∅ in
      let* _ := Logger_Info [] "querying jira" [("jql", LogString eligibleIssuesQuery)] in
      let* fin := searchLoop fuel bot eligibleIssuesQuery now last processed opCounts in
      match fin with
      | OutOfFuel => ret None
      | Returned err => ret (Some (Some err))
      | Break processed opCounts =>
          let* _ := Logger_Info [] "found eligible issues" [("count", LogInt processed)] in
          let* _ := Logger_Info [] "operations"
                      [(Operation_string AddStaleLabel, LogInt (opCount opCounts AddStaleLabel));
                       (Operation_string RemoveStaleLabel, LogInt (opCount opCounts RemoveStaleLabel));
                       (Operation_string Close, LogInt (opCount opCounts Close))] in
          ret (Some None)
      end
  end.
End Legacy.
End Legacy.

(** ** pat.go and the loading of the configuration

    The environment, the per-user configuration directory and the files
    are part of the world; [strings.TrimSpace] and [yaml.Unmarshal] are
    functions of libraries, taken as given. *)

Record OS (W : Type) := {
  os_LookupEnv : string -> W -> (string * bool) * W;
  xdg_SearchConfigFile : string -> W -> (string * option error) * W;
  os_ReadFile : string -> W -> (string * option error) * W
}.
Arguments os_LookupEnv {W} _ _ _.
Arguments xdg_SearchConfigFile {W} _ _ _.
Arguments os_ReadFile {W} _ _ _.

Class GoText := {
  strings_TrimSpace : string -> string;
  (** [yaml.Unmarshal(data, c)]: the configuration [c] with the fields the
      data gives, or an error. *)
  yaml_Unmarshal : string -> Config -> Config * option error
}.

Definition patEnvVar : string := "JIRA_STALEBOT_PAT".
Definition xdgConfigFilePath : string := "jira-stalebot/pat".

Definition LoadPersonalAccessToken `{GoText} {W} (os : OS W) : M W (string * option error) :=
  let* (pat, ok) := quiet (os_LookupEnv os patEnvVar) in
  if (ok : bool) then ret (pat, None)
  else
    let* (patFile, err) := quiet (xdg_SearchConfigFile os xdgConfigFilePath) in
    match err with
    | Some err =>
        ret ("", Some (Errorf ("%s environment variable not set and " +:+
                               "personal access token file not found: %v")
                         [ArgString patEnvVar; ArgError err]))
    | None =>
        let* (patBytes, err) := quiet (os_ReadFile os patFile) in
        match err with
        | Some err => ret ("", Some err)
        | None => ret (strings_TrimSpace patBytes, None)
        end
    end.

(** [&Config{}]: every field at its zero value. *)
Definition zeroConfig : Config :=
  {| JiraBaseURL := ""; Project := "";
     DaysUntilStale := 0; DaysUntilClose := 0;
     OnlyLabels := []; ExemptLabels := [];
     StaleLabel := ""; MarkComment := ""; UnmarkComment := "";
     CloseStatus := ""; CloseComment := ""; LimitPerRun := 0 |}.

(** [LoadConfig]: the configuration, or [nil] and the error. *)
Definition LoadConfig `{GoQuote} `{GoText} {W} (os : OS W) (configFile : string)
    : M W (option Config * option error) :=
  let* (configData, err) := quiet (os_ReadFile os configFile) in
  match err with
  | Some err => ret (None, Some err)
  | None =>
      let '(c, err) := yaml_Unmarshal configData zeroConfig in
      match err with
      | Some err => ret (None, Some err)
      | None =>
          let c := setDefaults c in
          match Validate c with
          | Some err => ret (None, Some err)
          | None => ret (Some c, None)
          end
      end
  end.

(** ** The vocabulary of the properties *)

(** An issue is eligible for the staleness lifecycle when [IssueOperation]
    gets past its two guards: the status category is not the complete one,
    and the label test of the configuration does not exclude the issue. *)
Definition statusComplete (i : Issue) : Prop :=
  i.(Issue_Fields).(Fields_Status).(Status_StatusCategory).(StatusCategory_Key)
  = StatusCategoryComplete.

Definition hasLabel (i : Issue) (l : string) : Prop :=
  In l i.(Issue_Fields).(Fields_Labels).

Definition excludedByLabels (c : Config) (i : Issue) : Prop :=
  if decide (c.(ExemptLabels) = [])
  then forall l, In l c.(OnlyLabels) -> hasLabel i l
  else exists l, In l c.(ExemptLabels) /\ hasLabel i l.

Definition eligible (c : Config) (i : Issue) : Prop :=
  ~ statusComplete i /\ ~ excludedByLabels c i.

(** The labels of a side of a changelog item of the field [labels]: its
    string cut at the spaces. *)
Definition tokens (s : string) : list string := strings_Split s " ".

(** A changelog item that added the label: it is of the field [labels],
    the label is not among the tokens it changed from and is among the
    tokens it changed to. *)
Definition itemAdds (staleLabel : string) (item : ChangelogItems) : Prop :=
  item.(Item_Field) = "labels" /\
  ~ In staleLabel (tokens item.(Item_FromString)) /\
  In staleLabel (tokens item.(Item_ToString)).

(** The last entry of the changelog holds an item that added the label. *)
Definition lastEntryAdded (i : Issue) (staleLabel : string) : Prop :=
  exists changelog lastUpdate item,
    i.(Issue_Changelog) = Some changelog /\
    last changelog.(Histories) = Some lastUpdate /\
    In item lastUpdate.(History_Items) /\
    itemAdds staleLabel item.

(** The issue with its last update at [t]. *)
Definition updatedAt (t : Time) (i : Issue) : Issue :=
  {| Issue_ID := i.(Issue_ID);
     Issue_Key := i.(Issue_Key);
     Issue_Fields :=
       {| Fields_Type := i.(Issue_Fields).(Fields_Type);
          Fields_Summary := i.(Issue_Fields).(Fields_Summary);
          Fields_Labels := i.(Issue_Fields).(Fields_Labels);
          Fields_Status := i.(Issue_Fields).(Fields_Status);
          Fields_Updated := t |};
     Issue_Changelog := i.(Issue_Changelog) |}.

(** A span of whole days in nanoseconds, as a number. *)
Definition nanosecondsOfDays (days : Z) : Z := days * 24 * time_Hour.

(** The day counts whose span fits the 64-bit [time.Duration]. *)
Definition daysFitDuration (days : Z) : Prop := -106751 <= days <= 106751.

(** The characters of the two patterns, read off the patterns. *)
Definition isUpper (c : ascii) : Prop :=
  (N_of_ascii "A" <= N_of_ascii c <= N_of_ascii "Z")%N.

Definition isLabelChar (c : ascii) : Prop :=
  (N_of_ascii "0" <= N_of_ascii c <= N_of_ascii "9")%N \/
  (N_of_ascii "A" <= N_of_ascii c <= N_of_ascii "Z")%N \/
  (N_of_ascii "a" <= N_of_ascii c <= N_of_ascii "z")%N \/
  c = "-"%char.

Definition matchesProjectKey (s : string) : Prop :=
  (2 <= String.length s)%nat /\ Forall isUpper (list_ascii_of_string s).

Definition matchesLabel (s : string) : Prop :=
  (1 <= String.length s)%nat /\ Forall isLabelChar (list_ascii_of_string s).

Definition validStatusName (s : string) : Prop :=
  s <> "" /\ ~ In "034"%char (list_ascii_of_string s).

(** The invariants of the configuration the specification lists. *)
Definition statedInvariants (c : Config) : Prop :=
  matchesProjectKey c.(Project) /\
  Forall matchesLabel c.(OnlyLabels) /\
  Forall matchesLabel c.(ExemptLabels) /\
  matchesLabel c.(StaleLabel) /\
  validStatusName c.(CloseStatus) /\
  ~ (c.(OnlyLabels) <> [] /\ c.(ExemptLabels) <> []).

(** Every violation [Validate] looks for, in the order it looks. *)
Definition violations (c : Config) : list error :=
  (if String.eqb c.(JiraBaseURL) ""
   then [Errorf "config must specify `jiraBaseURL`" []] else []) ++
  (if isValidProjectKey c.(Project) then []
   else [Errorf "config must specify valid project key (two or more uppercase letters)" []]) ++
  (match c.(OnlyLabels), c.(ExemptLabels) with
   | _ :: _, _ :: _ => [Errorf "config must not specify both onlyLabels and exemptLabels" []]
   | _, _ => []
   end) ++
  map (fun l => Errorf "config contains invalid label `%s` in onlyLabels" [ArgString l])
      (List.filter (fun l => negb (isValidLabel l)) c.(OnlyLabels)) ++
  map (fun l => Errorf "config contains invalid label `%s` in exemptLabels" [ArgString l])
      (List.filter (fun l => negb (isValidLabel l)) c.(ExemptLabels)) ++
  (if isValidLabel c.(StaleLabel) then []
   else [Errorf "config must not specify invalid staleLabel `%s`" [ArgString c.(StaleLabel)]]) ++
  (if isValidStatusName c.(CloseStatus) then []
   else [Errorf "config must not specify invalid closeStatus `%s`" [ArgString c.(CloseStatus)]]).

(** An issue satisfies a clause [labels = l] of the query when [l] is one of
    its labels. *)
Definition satisfiesLabelClause `{GoQuote} (i : Issue) (clause : string) : Prop :=
  exists l, clause = fmt_Sprintf "labels = %s" [VString l] /\ hasLabel i l.

(** The configuration of a bot with another [limitPerRun]. *)
Definition withLimitPerRun {W} (n : Z) (bot : Stalebot W) : Stalebot W :=
  {| bot_Client := bot_Client bot;
     bot_Config := set_LimitPerRun n (bot_Config bot);
     bot_DryRun := bot_DryRun bot;
     bot_Prompt := bot_Prompt bot |}.

(** The issues of a page the evaluator maps to [op]. *)
Definition countOp (c : Config) (now : Time) (op : Operation) (chunk : list Issue) : Z :=
  len (List.filter (fun i => bool_decide (IssueOperation c now i = op)) chunk).

(** A string without a space: one label. *)
Definition noSpace (s : string) : Prop := ~ In " "%char (list_ascii_of_string s).

(** The issue with another changelog. *)
Definition withHistories (hs : list ChangelogHistory) (i : Issue) : Issue :=
  {| Issue_ID := i.(Issue_ID);
     Issue_Key := i.(Issue_Key);
     Issue_Fields := i.(Issue_Fields);
     Issue_Changelog := Some {| Histories := hs |} |}.

(** The searches of a run. *)
Definition isSearch (e : Event) : bool :=
  match e with
  | EvSearch _ _ _ => true
  | _ => false
  end.

(** The issues of the pages the searches of a run returned, in order. *)
Fixpoint foundIssues (tr : list Event) : list Issue :=
  match tr with
  | [] => []
  | EvSearch _ _ chunk :: tr' => chunk ++ foundIssues tr'
  | _ :: tr' => foundIssues tr'
  end.

(** ** Concrete configurations, issues and collaborators

    The values of operations_test.go, and a server that answers every
    search with one page and accepts every change. *)

Module Sample.

(** Midnight of 1 January 2000 (UTC), the [now] of the tests. *)
Definition now : Time := 946684800 * time_Second.
Definition day : Duration := time_Hour * 24.
Definition minus120days : Time := Time_Add now (- day * 120).
Definition minus60days : Time := Time_Add now (- day * 60).

Definition exemptLabels : list string := ["lifecycle-frozen"; "stablebot-exempt"].
Definition onlyLabels : list string := ["check-stale"; "stablebot-allow"].

Definition cfg (only exempt : list string) (daysUntilStale daysUntilClose : Z) : Config :=
  {| JiraBaseURL := "https://jira.example.com";
     Project := "TEST";
     DaysUntilStale := daysUntilStale;
     DaysUntilClose := daysUntilClose;
     OnlyLabels := only;
     ExemptLabels := exempt;
     StaleLabel := "lifecycle-stale";
     MarkComment := "marked stale";
     UnmarkComment := "no longer stale";
     CloseStatus := "Closed";
     CloseComment := "closed as stale";
     LimitPerRun := 100 |}.

Definition withJiraBaseURL (url : string) (c : Config) : Config :=
  {| JiraBaseURL := url; Project := c.(Project);
     DaysUntilStale := c.(DaysUntilStale); DaysUntilClose := c.(DaysUntilClose);
     OnlyLabels := c.(OnlyLabels); ExemptLabels := c.(ExemptLabels);
     StaleLabel := c.(StaleLabel); MarkComment := c.(MarkComment);
     UnmarkComment := c.(UnmarkComment); CloseStatus := c.(CloseStatus);
     CloseComment := c.(CloseComment); LimitPerRun := c.(LimitPerRun) |}.

Definition cfgExempt : Config := cfg [] exemptLabels 90 30.
Definition cfgOnly : Config := cfg onlyLabels [] 90 30.
Definition cfgNoLabels : Config := cfg [] [] 90 30.
Definition cfgNoURL : Config := withJiraBaseURL "" cfgExempt.

Definition issue (statusKey : string) (issueLabels : list string) (updated : Time)
    (histories : list ChangelogHistory) : Issue :=
  {| Issue_ID := "10100";
     Issue_Key := "TEST-100";
     Issue_Fields :=
       {| Fields_Type := {| IssueType_Name := "Bug" |};
          Fields_Summary := "a summary";
          Fields_Labels := issueLabels;
          Fields_Status :=
            {| Status_StatusCategory := {| StatusCategory_Key := statusKey |} |};
          Fields_Updated := updated |};
     Issue_Changelog := Some {| Histories := histories |} |}.

(** The two changelog entries of the tests. *)
Definition addedStaleLabel : ChangelogHistory :=
  {| History_Items := [ {| Item_Field := "labels";
                           Item_FromString := "";
                           Item_ToString := "lifecycle-stale" |} ] |}.

Definition otherLabelChange : ChangelogHistory :=
  {| History_Items := [ {| Item_Field := "labels";
                           Item_FromString := "foo";
                           Item_ToString := "bar" |} ] |}.

Definition staleCandidate : Issue := issue "new" [] minus120days [].
Definition markedLongAgo : Issue :=
  issue "new" ["lifecycle-stale"] minus60days [addedStaleLabel].
Definition touchedAfterMark : Issue :=
  issue "new" ["lifecycle-stale"] now [addedStaleLabel; otherLabelChange].
Definition doneWithStaleLabel : Issue :=
  issue "done" ["lifecycle-stale"] minus120days [].

Definition transitions : list Transition :=
  [ {| Transition_ID := "11"; Transition_To := {| To_Name := "In Progress" |} |};
    {| Transition_ID := "21"; Transition_To := {| To_Name := "Closed" |} |};
    {| Transition_ID := "31"; Transition_To := {| To_Name := "Closed" |} |} ].

(** A server holding [issues] that returns them all as the page of any
    search, offers [ts] as the transitions of any issue and accepts
    every comment, update and transition.  Its world has no state. *)
Definition server (issues : list Issue) (ts : list Transition) : Client unit :=
  {| Issue_Search := fun _ opt w =>
       ((issues, {| Resp_StartAt := opt.(Opt_StartAt); Resp_Total := len issues |}, None), w);
     Issue_AddComment := fun _ _ w => (None, w);
     Issue_UpdateIssue := fun _ _ w => (None, w);
     Issue_Update := fun _ _ w => (None, w);
     Issue_GetTransitions := fun _ w => ((ts, None), w);
     Issue_DoTransition := fun _ _ w => (None, w);
     NewJiraError := fun e => e |}.

Definition host : Host unit :=
  {| time_Now := fun w => (now, w);
     promptToConfirm := fun _ _ w => ((true, None), w) |}.

Definition bot (c : Config) (issues : list Issue) : Stalebot unit :=
  {| bot_Client := server issues transitions;
     bot_Config := c;
     bot_DryRun := false;
     bot_Prompt := false |}.

(** A stand-in for [strconv.Quote], right on strings without quotes,
    backslashes or control characters. *)
Definition quote : GoQuote := fun s => quoteChar +:+ s +:+ quoteChar.

(** A configuration file that leaves [limitPerRun] out, once loaded, and
    a project with 101 issues to mark. *)
Definition cfgDefaultLimit : Config :=
  @setDefaults quote (set_LimitPerRun 0 cfgExempt).

Definition manyStale : list Issue := replicate 101 staleCandidate.

(** Stand-ins for the two library functions of [GoText], for the cases
    that do not go through them, and an environment that has the token
    variable set (to a value with a space at its end). *)
Definition text : GoText :=
  {| strings_TrimSpace := fun s => s;
     yaml_Unmarshal := fun _ c => (c, None) |}.

Definition osWithToken : OS unit :=
  {| os_LookupEnv := fun name w =>
       (if String.eqb name patEnvVar then ("token-from-env ", true) else ("", false), w);
     xdg_SearchConfigFile := fun _ w => (("/home/bot/.config/jira-stalebot/pat", None), w);
     os_ReadFile := fun _ w => (("token-from-file", None), w) |}.

(** A client as [server], whose updates of an issue fail. *)
Definition failure : error := Errorf "request failed" [].

Definition serverRefusingUpdates (issues : list Issue) : Client unit :=
  {| Issue_Search := Issue_Search (server issues transitions);
     Issue_AddComment := fun _ _ w => (None, w);
     Issue_UpdateIssue := fun _ _ w => (Some failure, w);
     Issue_Update := fun _ _ w => (Some failure, w);
     Issue_GetTransitions := fun _ w => ((transitions, None), w);
     Issue_DoTransition := fun _ _ w => (None, w);
     NewJiraError := fun e => e |}.

(** A server that answers every search with an empty page at offset 0 and
    a total of five issues. *)
Definition serverOfEmptyPages : Client unit :=
  {| Issue_Search := fun _ opt w =>
       (([], {| Resp_StartAt := 0; Resp_Total := 5 |}, None), w);
     Issue_AddComment := fun _ _ w => (None, w);
     Issue_UpdateIssue := fun _ _ w => (None, w);
     Issue_Update := fun _ _ w => (None, w);
     Issue_GetTransitions := fun _ w => (([], None), w);
     Issue_DoTransition := fun _ _ w => (None, w);
     NewJiraError := fun e => e |}.

(** A server that holds [issues] and returns them page by page: the
    [pageSize] issues from the offset asked for on, and their total. *)
Definition pagedServer (issues : list Issue) (pageSize : nat) : Client unit :=
  {| Issue_Search := fun _ opt w =>
       ((take pageSize (drop (Z.to_nat opt.(Opt_StartAt)) issues),
         {| Resp_StartAt := opt.(Opt_StartAt); Resp_Total := len issues |}, None), w);
     Issue_AddComment := fun _ _ w => (None, w);
     Issue_UpdateIssue := fun _ _ w => (None, w);
     Issue_Update := fun _ _ w => (None, w);
     Issue_GetTransitions := fun _ w => ((transitions, None), w);
     Issue_DoTransition := fun _ _ w => (None, w);
     NewJiraError := fun e => e |}.

(** A terminal at which every operation is declined. *)
Definition decliningHost : Host unit :=
  {| time_Now := fun w => (now, w);
     promptToConfirm := fun _ _ w => ((false, None), w) |}.

Definition botWith (cl : Client unit) (c : Config) (dryRun prompt : bool) : Stalebot unit :=
  {| bot_Client := cl; bot_Config := c; bot_DryRun := dryRun; bot_Prompt := prompt |}.

(** A server that keeps a journal: its world is the list of the requests
    that changed or read an issue, in the order they arrived.  It offers
    [ts] as the transitions of any issue and accepts every request. *)
Definition journalServer (ts : list Transition) : Client (list string) :=
  {| Issue_Search := fun _ opt w =>
       (([], {| Resp_StartAt := opt.(Opt_StartAt); Resp_Total := 0 |}, None), w);
     Issue_AddComment := fun issueID body w => (None, (w ++ ["comment: " +:+ body])%list);
     Issue_UpdateIssue := fun issueID _ w => (None, (w ++ ["update of " +:+ issueID])%list);
     Issue_Update := fun issue _ w => (None, (w ++ ["put of " +:+ issue.(Issue_ID)])%list);
     Issue_GetTransitions := fun issueID w =>
       ((ts, None), (w ++ ["transitions of " +:+ issueID])%list);
     Issue_DoTransition := fun issueID tID w => (None, (w ++ ["transition " +:+ tID])%list);
     NewJiraError := fun e => e |}.

Definition journalBot : Stalebot (list string) :=
  {| bot_Client := journalServer transitions;
     bot_Config := cfgExempt;
     bot_DryRun := false;
     bot_Prompt := false |}.

End Sample.

(** * Properties *)

(** ** Sets of labels *)

Lemma sets_Has_NewString (items : list string) (x : string) :
  sets_Has (sets_NewString items) x = true <-> In x items.
Proof.
  unfold sets_Has, sets_NewString.
  rewrite bool_decide_eq_true, elem_of_list_to_set.
  apply list_elem_of_In.
Qed.

Lemma sets_Has_NewString_false (items : list string) (x : string) :
  sets_Has (sets_NewString items) x = false <-> ~ In x items.
Proof.
  rewrite <- sets_Has_NewString.
  destruct (sets_Has (sets_NewString items) x); split; intros; congruence.
Qed.

Lemma sets_HasAll_NewString (items wanted : list string) :
  sets_HasAll (sets_NewString items) wanted = true <->
  forall l, In l wanted -> In l items.
Proof.
  unfold sets_HasAll. rewrite forallb_forall.
  split; intros Hall l Hl; apply sets_Has_NewString, Hall, Hl.
Qed.

Lemma sets_HasAny_NewString (items wanted : list string) :
  sets_HasAny (sets_NewString items) wanted = true <->
  exists l, In l wanted /\ In l items.
Proof.
  unfold sets_HasAny. rewrite existsb_exists.
  split; intros (l & Hl & Hin); exists l; split; trivial;
    apply sets_Has_NewString; exact Hin.
Qed.

Lemma len_pos_iff {A} (l : list A) : (0 <? len l) = true <-> l <> [].
Proof.
  unfold len. destruct l as [|a l]; simpl.
  - split; [discriminate | congruence].
  - split; [discriminate | intros _; apply Z.ltb_lt; lia].
Qed.

Lemma len_pos_nil {A} (l : list A) : (0 <? len l) = false <-> l = [].
Proof.
  destruct (0 <? len l) eqn:E.
  - apply len_pos_iff in E. split; [discriminate | contradiction].
  - split; trivial. intros _.
    destruct l; trivial. discriminate E.
Qed.

(** ** The guards of the evaluator *)

Lemma excludedByLabels_guard (c : Config) (i : Issue) :
  (if 0 <? len c.(ExemptLabels)
   then sets_HasAny (sets_NewString i.(Issue_Fields).(Fields_Labels)) c.(ExemptLabels)
   else sets_HasAll (sets_NewString i.(Issue_Fields).(Fields_Labels)) c.(OnlyLabels)) = true
  <-> excludedByLabels c i.
Proof.
  unfold excludedByLabels, hasLabel.
  destruct (decide (ExemptLabels c = [])) as [Hnil | Hne].
  - rewrite (proj2 (len_pos_nil _) Hnil). apply sets_HasAll_NewString.
  - rewrite (proj2 (len_pos_iff _) Hne). apply sets_HasAny_NewString.
Qed.

Lemma statusComplete_eqb (i : Issue) :
  String.eqb
    i.(Issue_Fields).(Fields_Status).(Status_StatusCategory).(StatusCategory_Key)
    StatusCategoryComplete = true <-> statusComplete i.
Proof. apply String.eqb_eq. Qed.

(** The evaluator is its two guards in front of the staleness lifecycle. *)
Lemma IssueOperation_eligible (c : Config) (now : Time) (i : Issue) :
  eligible c i ->
  IssueOperation c now i =
  stalenessLifecycle c now i (sets_NewString i.(Issue_Fields).(Fields_Labels)).
Proof.
  intros [Hstatus Hlabels]. unfold IssueOperation.
  destruct (String.eqb _ StatusCategoryComplete) eqn:Es.
  { apply statusComplete_eqb in Es. contradiction. }
  pose proof (excludedByLabels_guard c i) as Hguard.
  destruct (0 <? len (ExemptLabels c)).
  - destruct (sets_HasAny _ _); trivial. exfalso. apply Hlabels, Hguard. reflexivity.
  - destruct (sets_HasAll _ _); trivial. exfalso. apply Hlabels, Hguard. reflexivity.
Qed.

Lemma IssueOperation_excluded (c : Config) (now : Time) (i : Issue) :
  excludedByLabels c i -> IssueOperation c now i = OpNone.
Proof.
  intros Hex. unfold IssueOperation.
  destruct (String.eqb _ StatusCategoryComplete); trivial.
  apply excludedByLabels_guard in Hex.
  destruct (0 <? len (ExemptLabels c)); rewrite Hex; reflexivity.
Qed.

(** ** The changelog test *)

Lemma lastUpdateAddedStaleLabel_true (i : Issue) (staleLabel : string) :
  lastUpdateAddedStaleLabel i staleLabel = true <-> lastEntryAdded i staleLabel.
Proof.
  unfold lastUpdateAddedStaleLabel, lastEntryAdded, itemAdds, tokens.
  split.
  - destruct (Issue_Changelog i) as [changelog|]; [|discriminate].
    destruct (last (Histories changelog)) as [lastUpdate|] eqn:El; [|discriminate].
    intros Hex. apply existsb_exists in Hex as (item & Hin & Hitem).
    apply andb_true_iff in Hitem as [Hfield Hitem].
    apply andb_true_iff in Hitem as [Hfrom Hto].
    exists changelog, lastUpdate, item. repeat split; trivial.
    + apply String.eqb_eq, Hfield.
    + apply sets_Has_NewString_false, negb_true_iff, Hfrom.
    + apply sets_Has_NewString, Hto.
  - intros (changelog & lastUpdate & item & -> & -> & Hin & Hfield & Hfrom & Hto).
    apply existsb_exists. exists item. split; trivial.
    apply andb_true_iff. split; [apply String.eqb_eq, Hfield|].
    apply andb_true_iff. split.
    + apply negb_true_iff, sets_Has_NewString_false, Hfrom.
    + apply sets_Has_NewString, Hto.
Qed.

Lemma lastUpdateAddedStaleLabel_false (i : Issue) (staleLabel : string) :
  lastUpdateAddedStaleLabel i staleLabel = false <-> ~ lastEntryAdded i staleLabel.
Proof.
  rewrite <- lastUpdateAddedStaleLabel_true.
  destruct (lastUpdateAddedStaleLabel i staleLabel); split; intros; congruence.
Qed.

(** ** The thresholds *)

Lemma int64_wrap_fits (z : Z) : int64_fits z -> int64_wrap z = z.
Proof.
  unfold int64_fits, int64_wrap. intros Hz.
  rewrite Z.mod_small; lia.
Qed.

Lemma daysAgo_fits (days : Z) :
  daysFitDuration days -> daysAgo days = - nanosecondsOfDays days.
Proof.
  unfold daysFitDuration, daysAgo, nanosecondsOfDays, int64_mul, int64_neg.
  unfold time_Hour, time_Second. intros Hd.
  rewrite (int64_wrap_fits (- _)) by (unfold int64_fits; lia).
  rewrite (int64_wrap_fits (_ * 24)) by (unfold int64_fits; lia).
  rewrite int64_wrap_fits by (unfold int64_fits; lia).
  lia.
Qed.

(** ** The rule evaluator *)

(** C9: an issue whose status category is the complete one is mapped to
    [None], whatever its labels, its last update, its changelog, the
    configuration and the time of the evaluation. *)
Theorem IssueOperation_complete (c : Config) (now : Time) (i : Issue) :
  statusComplete i -> IssueOperation c now i = OpNone.
Proof.
  intros Hdone. unfold IssueOperation.
  rewrite (proj2 (statusComplete_eqb i) Hdone). reflexivity.
Qed.

Lemma IssueOperation_complete_witness :
  statusComplete Sample.doneWithStaleLabel /\
  IssueOperation Sample.cfgExempt Sample.now Sample.doneWithStaleLabel = OpNone.
Proof.
  split; [reflexivity|].
  apply (IssueOperation_complete Sample.cfgExempt Sample.now Sample.doneWithStaleLabel).
  reflexivity.
Defined.

(** The parts of the eligibility filter the code has as specified: an
    issue that shares a label with a non-empty [exemptLabels] is mapped to
    [None], and so is, when [exemptLabels] is empty, an issue that has all
    of [onlyLabels]. *)
Lemma IssueOperation_exempt (c : Config) (now : Time) (i : Issue) (l : string) :
  In l c.(ExemptLabels) -> hasLabel i l -> IssueOperation c now i = OpNone.
Proof.
  intros Hl Hi. apply IssueOperation_excluded. unfold excludedByLabels.
  destruct (decide (ExemptLabels c = [])) as [Hnil | _].
  - rewrite Hnil in Hl. destruct Hl.
  - exists l. split; assumption.
Qed.

Lemma IssueOperation_only (c : Config) (now : Time) (i : Issue) :
  c.(ExemptLabels) = [] ->
  (forall l, In l c.(OnlyLabels) -> hasLabel i l) ->
  IssueOperation c now i = OpNone.
Proof.
  intros Hnil Hall. apply IssueOperation_excluded. unfold excludedByLabels.
  destruct (decide (ExemptLabels c = [])); [exact Hall | contradiction].
Qed.

(** C1, where the code leaves the specified filter: with [exemptLabels] and
    [onlyLabels] both empty the test "has all of [onlyLabels]" holds of
    every issue, and the evaluator returns [None] before the staleness
    steps. *)
Theorem IssueOperation_no_label_filter (c : Config) (now : Time) (i : Issue) :
  c.(ExemptLabels) = [] -> c.(OnlyLabels) = [] -> IssueOperation c now i = OpNone.
Proof.
  intros Hexempt Honly. apply IssueOperation_only; trivial.
  rewrite Honly. intros l [].
Qed.

Lemma IssueOperation_no_label_filter_witness :
  Sample.cfgNoLabels.(ExemptLabels) = [] /\
  Sample.cfgNoLabels.(OnlyLabels) = [] /\
  ~ statusComplete Sample.staleCandidate /\
  stalenessLifecycle Sample.cfgNoLabels Sample.now Sample.staleCandidate
    (sets_NewString Sample.staleCandidate.(Issue_Fields).(Fields_Labels)) = AddStaleLabel /\
  IssueOperation Sample.cfgNoLabels Sample.now Sample.staleCandidate = OpNone.
Proof.
  split; [reflexivity|]. split; [reflexivity|].
  split; [discriminate|]. split; [reflexivity|].
  apply (IssueOperation_no_label_filter Sample.cfgNoLabels Sample.now Sample.staleCandidate);
    reflexivity.
Defined.

Lemma eligible_updatedAt (c : Config) (t : Time) (i : Issue) :
  eligible c i -> eligible c (updatedAt t i).
Proof. intros H. exact H. Qed.

Lemma stalenessLifecycle_unmarked (c : Config) (now : Time) (i : Issue) :
  ~ hasLabel i c.(StaleLabel) ->
  stalenessLifecycle c now i (sets_NewString i.(Issue_Fields).(Fields_Labels)) =
  if Time_After i.(Issue_Fields).(Fields_Updated) (Time_Add now (daysAgo c.(DaysUntilStale)))
  then OpNone else AddStaleLabel.
Proof.
  intros Hno. unfold stalenessLifecycle.
  rewrite (proj2 (sets_Has_NewString_false _ _) Hno). reflexivity.
Qed.

Lemma stalenessLifecycle_marked (c : Config) (now : Time) (i : Issue) :
  hasLabel i c.(StaleLabel) ->
  stalenessLifecycle c now i (sets_NewString i.(Issue_Fields).(Fields_Labels)) =
  if lastUpdateAddedStaleLabel i c.(StaleLabel)
  then if Time_After i.(Issue_Fields).(Fields_Updated)
            (Time_Add now (daysAgo c.(DaysUntilClose)))
       then OpNone else Close
  else RemoveStaleLabel.
Proof.
  intros Hhas. unfold stalenessLifecycle.
  rewrite (proj2 (sets_Has_NewString _ _) Hhas). reflexivity.
Qed.

(** The comparison at the two sides of a threshold that fits. *)
Lemma threshold_reached (now : Time) (days : Z) :
  daysFitDuration days ->
  Time_After (now - nanosecondsOfDays days) (Time_Add now (daysAgo days)) = false.
Proof.
  intros Hfit. unfold Time_After, Time_Add. rewrite (daysAgo_fits _ Hfit).
  apply Z.ltb_ge. lia.
Qed.

Lemma threshold_one_second_short (now : Time) (days : Z) :
  daysFitDuration days ->
  Time_After (now - nanosecondsOfDays days + time_Second)
    (Time_Add now (daysAgo days)) = true.
Proof.
  intros Hfit. unfold Time_After, Time_Add. rewrite (daysAgo_fits _ Hfit).
  apply Z.ltb_lt. unfold time_Second. lia.
Qed.

Lemma Sample_eligible (statusKey : string) (issueLabels : list string)
    (updated : Time) (histories : list ChangelogHistory) :
  statusKey <> "done" ->
  (forall l, In l Sample.exemptLabels -> ~ In l issueLabels) ->
  eligible Sample.cfgExempt (Sample.issue statusKey issueLabels updated histories).
Proof.
  intros Hstatus Hlabels. split.
  - exact Hstatus.
  - unfold excludedByLabels.
    destruct (decide (ExemptLabels Sample.cfgExempt = [])) as [Hnil | _];
      [discriminate Hnil|].
    intros (l & Hl & Hi). exact (Hlabels l Hl Hi).
Qed.

(** C2, as the code has it: an eligible issue that bears the stale label
    and whose last changelog entry holds no item of the field [labels]
    that added it (also when there is no changelog or no entry in it) is
    to be unmarked, at whatever time it was last updated and whatever the
    time of the evaluation. *)
Theorem IssueOperation_unmark (c : Config) (now : Time) (i : Issue) :
  eligible c i ->
  hasLabel i c.(StaleLabel) ->
  ~ lastEntryAdded i c.(StaleLabel) ->
  IssueOperation c now i = RemoveStaleLabel.
Proof.
  intros Hel Hhas Hlast.
  rewrite (IssueOperation_eligible _ _ _ Hel), (stalenessLifecycle_marked _ _ _ Hhas).
  rewrite (proj2 (lastUpdateAddedStaleLabel_false _ _) Hlast). reflexivity.
Qed.

Lemma IssueOperation_unmark_witness :
  eligible Sample.cfgExempt Sample.touchedAfterMark /\
  hasLabel Sample.touchedAfterMark Sample.cfgExempt.(StaleLabel) /\
  ~ lastEntryAdded Sample.touchedAfterMark Sample.cfgExempt.(StaleLabel) /\
  IssueOperation Sample.cfgExempt Sample.now Sample.touchedAfterMark = RemoveStaleLabel.
Proof.
  assert (Hel : eligible Sample.cfgExempt Sample.touchedAfterMark).
  { apply Sample_eligible; [discriminate|].
    intros l Hl [Hi | []]. subst l. simpl in Hl. intuition discriminate. }
  assert (Hhas : hasLabel Sample.touchedAfterMark Sample.cfgExempt.(StaleLabel)).
  { left. reflexivity. }
  assert (Hlast : ~ lastEntryAdded Sample.touchedAfterMark Sample.cfgExempt.(StaleLabel)).
  { apply lastUpdateAddedStaleLabel_false. reflexivity. }
  split; [exact Hel|]. split; [exact Hhas|]. split; [exact Hlast|].
  exact (IssueOperation_unmark Sample.cfgExempt Sample.now Sample.touchedAfterMark
           Hel Hhas Hlast).
Defined.

(** C2 as stated, for every issue and not only the eligible ones, fails:
    an issue in the complete status category that bears the stale label
    and has an empty changelog is left alone. *)
Lemma IssueOperation_unmark_needs_eligible :
  ~ (forall (c : Config) (now : Time) (i : Issue),
        hasLabel i c.(StaleLabel) ->
        ~ lastEntryAdded i c.(StaleLabel) ->
        IssueOperation c now i = RemoveStaleLabel).
Proof.
  intros Hclaim.
  specialize (Hclaim Sample.cfgExempt Sample.now Sample.doneWithStaleLabel).
  assert (Hop : IssueOperation Sample.cfgExempt Sample.now Sample.doneWithStaleLabel = OpNone)
    by reflexivity.
  rewrite Hop in Hclaim.
  assert (OpNone = RemoveStaleLabel); [|discriminate].
  apply Hclaim.
  - left. reflexivity.
  - apply lastUpdateAddedStaleLabel_false. reflexivity.
Qed.

(** C3, as the code has it: for a number of days whose span fits a
    [time.Duration], an eligible issue without the stale label that was
    last updated exactly [daysUntilStale] days before the evaluation is to
    be marked, and one last updated a second later than that is left
    alone. *)
Theorem IssueOperation_stale_boundary (c : Config) (now : Time) (i : Issue) :
  eligible c i ->
  ~ hasLabel i c.(StaleLabel) ->
  daysFitDuration c.(DaysUntilStale) ->
  IssueOperation c now (updatedAt (now - nanosecondsOfDays c.(DaysUntilStale)) i)
  = AddStaleLabel /\
  IssueOperation c now
    (updatedAt (now - nanosecondsOfDays c.(DaysUntilStale) + time_Second) i)
  = OpNone.
Proof.
  intros Hel Hno Hfit. split.
  - rewrite (IssueOperation_eligible _ _ _ (eligible_updatedAt _ _ _ Hel)).
    rewrite stalenessLifecycle_unmarked by exact Hno.
    simpl. rewrite (threshold_reached _ _ Hfit). reflexivity.
  - rewrite (IssueOperation_eligible _ _ _ (eligible_updatedAt _ _ _ Hel)).
    rewrite stalenessLifecycle_unmarked by exact Hno.
    simpl. rewrite (threshold_one_second_short _ _ Hfit). reflexivity.
Qed.

Lemma IssueOperation_stale_boundary_witness :
  eligible Sample.cfgExempt Sample.staleCandidate /\
  ~ hasLabel Sample.staleCandidate Sample.cfgExempt.(StaleLabel) /\
  daysFitDuration Sample.cfgExempt.(DaysUntilStale) /\
  IssueOperation Sample.cfgExempt Sample.now
    (updatedAt (Sample.now - nanosecondsOfDays 90) Sample.staleCandidate) = AddStaleLabel /\
  IssueOperation Sample.cfgExempt Sample.now
    (updatedAt (Sample.now - nanosecondsOfDays 90 + time_Second) Sample.staleCandidate)
  = OpNone.
Proof.
  assert (Hel : eligible Sample.cfgExempt Sample.staleCandidate).
  { apply Sample_eligible; [discriminate|]. intros l _ []. }
  assert (Hno : ~ hasLabel Sample.staleCandidate Sample.cfgExempt.(StaleLabel)).
  { intros []. }
  assert (Hfit : daysFitDuration Sample.cfgExempt.(DaysUntilStale)).
  { unfold daysFitDuration. simpl. lia. }
  split; [exact Hel|]. split; [exact Hno|]. split; [exact Hfit|].
  exact (IssueOperation_stale_boundary Sample.cfgExempt Sample.now Sample.staleCandidate
           Hel Hno Hfit).
Defined.

(** C3 as stated, for every number of days, fails: the span of 106752 days
    does not fit the 64 bits of a [time.Duration], the threshold the code
    computes lies in the future, and the issue updated a second short of
    106752 days ago is marked. *)
Lemma IssueOperation_stale_boundary_overflow :
  ~ (forall (c : Config) (now : Time) (i : Issue),
        eligible c i ->
        ~ hasLabel i c.(StaleLabel) ->
        IssueOperation c now (updatedAt (now - nanosecondsOfDays c.(DaysUntilStale)) i)
        = AddStaleLabel /\
        IssueOperation c now
          (updatedAt (now - nanosecondsOfDays c.(DaysUntilStale) + time_Second) i)
        = OpNone).
Proof.
  intros Hclaim.
  destruct (Hclaim (Sample.cfg [] Sample.exemptLabels 106752 30) Sample.now
              Sample.staleCandidate) as [_ Hshort].
  - apply (Sample_eligible "new" [] Sample.minus120days []); [discriminate|].
    intros l _ [].
  - intros [].
  - vm_compute in Hshort. discriminate Hshort.
Qed.

(** C4, as the code has it: for a number of days whose span fits a
    [time.Duration], an eligible issue that bears the stale label and whose
    last changelog entry added it is to be closed when it was last updated
    exactly [daysUntilClose] days before the evaluation, and is left alone
    when it was last updated a second later than that. *)
Theorem IssueOperation_close_boundary (c : Config) (now : Time) (i : Issue) :
  eligible c i ->
  hasLabel i c.(StaleLabel) ->
  lastEntryAdded i c.(StaleLabel) ->
  daysFitDuration c.(DaysUntilClose) ->
  IssueOperation c now (updatedAt (now - nanosecondsOfDays c.(DaysUntilClose)) i)
  = Close /\
  IssueOperation c now
    (updatedAt (now - nanosecondsOfDays c.(DaysUntilClose) + time_Second) i)
  = OpNone.
Proof.
  intros Hel Hhas Hlast Hfit.
  assert (Hadded : forall t, lastUpdateAddedStaleLabel (updatedAt t i) c.(StaleLabel) = true).
  { intros t. apply lastUpdateAddedStaleLabel_true. exact Hlast. }
  split.
  - rewrite (IssueOperation_eligible _ _ _ (eligible_updatedAt _ _ _ Hel)).
    rewrite stalenessLifecycle_marked by exact Hhas.
    rewrite Hadded. simpl. rewrite (threshold_reached _ _ Hfit). reflexivity.
  - rewrite (IssueOperation_eligible _ _ _ (eligible_updatedAt _ _ _ Hel)).
    rewrite stalenessLifecycle_marked by exact Hhas.
    rewrite Hadded. simpl. rewrite (threshold_one_second_short _ _ Hfit). reflexivity.
Qed.

Lemma IssueOperation_close_boundary_witness :
  eligible Sample.cfgExempt Sample.markedLongAgo /\
  hasLabel Sample.markedLongAgo Sample.cfgExempt.(StaleLabel) /\
  lastEntryAdded Sample.markedLongAgo Sample.cfgExempt.(StaleLabel) /\
  daysFitDuration Sample.cfgExempt.(DaysUntilClose) /\
  IssueOperation Sample.cfgExempt Sample.now
    (updatedAt (Sample.now - nanosecondsOfDays 30) Sample.markedLongAgo) = Close /\
  IssueOperation Sample.cfgExempt Sample.now
    (updatedAt (Sample.now - nanosecondsOfDays 30 + time_Second) Sample.markedLongAgo)
  = OpNone.
Proof.
  assert (Hel : eligible Sample.cfgExempt Sample.markedLongAgo).
  { apply Sample_eligible; [discriminate|].
    intros l Hl [Hi | []]. subst l. simpl in Hl. intuition discriminate. }
  assert (Hhas : hasLabel Sample.markedLongAgo Sample.cfgExempt.(StaleLabel)).
  { left. reflexivity. }
  assert (Hlast : lastEntryAdded Sample.markedLongAgo Sample.cfgExempt.(StaleLabel)).
  { apply lastUpdateAddedStaleLabel_true. reflexivity. }
  assert (Hfit : daysFitDuration Sample.cfgExempt.(DaysUntilClose)).
  { unfold daysFitDuration. simpl. lia. }
  split; [exact Hel|]. split; [exact Hhas|]. split; [exact Hlast|]. split; [exact Hfit|].
  exact (IssueOperation_close_boundary Sample.cfgExempt Sample.now Sample.markedLongAgo
           Hel Hhas Hlast Hfit).
Defined.

(** C4 as stated, for every number of days, fails in the way C3 does: with
    [daysUntilClose] at 106752 the issue updated a second short of that many
    days ago is closed. *)
Lemma IssueOperation_close_boundary_overflow :
  ~ (forall (c : Config) (now : Time) (i : Issue),
        eligible c i ->
        hasLabel i c.(StaleLabel) ->
        lastEntryAdded i c.(StaleLabel) ->
        IssueOperation c now (updatedAt (now - nanosecondsOfDays c.(DaysUntilClose)) i)
        = Close /\
        IssueOperation c now
          (updatedAt (now - nanosecondsOfDays c.(DaysUntilClose) + time_Second) i)
        = OpNone).
Proof.
  intros Hclaim.
  destruct (Hclaim (Sample.cfg [] Sample.exemptLabels 90 106752) Sample.now
              Sample.markedLongAgo) as [_ Hshort].
  - apply (Sample_eligible "new" ["lifecycle-stale"] Sample.minus60days
             [Sample.addedStaleLabel]); [discriminate|].
    intros l Hl [Hi | []]. subst l. simpl in Hl. intuition discriminate.
  - left. reflexivity.
  - apply lastUpdateAddedStaleLabel_true. reflexivity.
  - vm_compute in Hshort. discriminate Hshort.
Qed.

(** ** The query builder against the evaluator *)

Lemma append_nil_r (s : string) : s +:+ "" = s.
Proof.
  induction s as [|a s IH]; [reflexivity|].
  change (String a (s +:+ "") = String a s). f_equal. exact IH.
Qed.

Lemma append_inj_l (p s s' : string) : p +:+ s = p +:+ s' -> s = s'.
Proof.
  induction p as [|a p IH]; intros Heq; [exact Heq|].
  change (String a (p +:+ s) = String a (p +:+ s')) in Heq.
  injection Heq. exact IH.
Qed.

Lemma Sprintf_label_clause `{GoQuote} (l : string) :
  fmt_Sprintf "labels = %s" [VString l] = "labels = " +:+ l.
Proof.
  unfold fmt_Sprintf. simpl. rewrite (append_nil_r l). reflexivity.
Qed.

Lemma label_clause_inj `{GoQuote} (l l' : string) :
  fmt_Sprintf "labels = %s" [VString l] = fmt_Sprintf "labels = %s" [VString l'] -> l = l'.
Proof. rewrite !Sprintf_label_clause. apply append_inj_l. Qed.

Lemma fold_left_snoc_map {A B} (f : A -> B) (l : list A) (acc : list B) :
  fold_left (fun acc a => acc ++ [f a]) l acc = acc ++ map f l.
Proof.
  revert acc. induction l as [|a l IH]; intros acc; simpl.
  - rewrite app_nil_r. reflexivity.
  - rewrite IH, <- app_assoc. reflexivity.
Qed.

(** Under [onlyLabels] the query has one clause [labels = l] for each. *)
Lemma exemptOrOnlyLabels_only `{GoQuote} (c : Config) :
  c.(ExemptLabels) = [] ->
  exemptOrOnlyLabels c =
  map (fun l => fmt_Sprintf "labels = %s" [VString l]) c.(OnlyLabels).
Proof.
  intros Hnil. unfold exemptOrOnlyLabels. rewrite Hnil. simpl.
  destruct (0 <? len (OnlyLabels c)) eqn:E.
  - apply (fold_left_snoc_map (fun l => fmt_Sprintf "labels = %s" [VString l])).
  - apply len_pos_nil in E. rewrite E. reflexivity.
Qed.

(** C10: under a configuration with [onlyLabels] and no [exemptLabels], an
    issue that is not complete and satisfies every label clause of the
    query of [EligibleIssuesQuery], that is, has every label of
    [onlyLabels], is mapped to [None]: the query selects issues the
    evaluator never acts on. *)
Theorem only_labels_query_selects_untouched `{GoQuote} (c : Config) (now : Time) (i : Issue) :
  c.(ExemptLabels) = [] ->
  c.(OnlyLabels) <> [] ->
  ~ statusComplete i ->
  Forall (satisfiesLabelClause i) (exemptOrOnlyLabels c) ->
  IssueOperation c now i = OpNone.
Proof.
  intros Hnil _ _ Hsat. apply IssueOperation_only; trivial.
  rewrite (exemptOrOnlyLabels_only c Hnil) in Hsat.
  rewrite List.Forall_forall in Hsat.
  intros l Hl.
  destruct (Hsat (fmt_Sprintf "labels = %s" [VString l])) as (l' & Heq & Hhas).
  - exact (in_map (fun l => fmt_Sprintf "labels = %s" [VString l]) _ l Hl).
  - apply label_clause_inj in Heq. subst l'. exact Hhas.
Qed.

Lemma only_labels_query_selects_untouched_witness :
  Sample.cfgOnly.(ExemptLabels) = [] /\
  Sample.cfgOnly.(OnlyLabels) <> [] /\
  IssueOperation Sample.cfgOnly Sample.now
    (Sample.issue "new" Sample.onlyLabels Sample.minus120days []) = OpNone.
Proof.
  split; [reflexivity|]. split; [discriminate|].
  apply (@only_labels_query_selects_untouched Sample.quote Sample.cfgOnly Sample.now
           (Sample.issue "new" Sample.onlyLabels Sample.minus120days [])).
  - reflexivity.
  - discriminate.
  - discriminate.
  - rewrite exemptOrOnlyLabels_only by reflexivity.
    repeat constructor.
    + exists "check-stale". split; [reflexivity | left; reflexivity].
    + exists "stablebot-allow". split; [reflexivity | right; left; reflexivity].
Defined.

(** ** Regular expressions *)

Lemma re_match_none (s : string) : re_match ReNone s = false.
Proof. induction s as [|a s IH]; simpl; trivial. Qed.

Lemma re_match_alt (r1 r2 : Regexp) (s : string) :
  re_match (ReAlt r1 r2) s = re_match r1 s || re_match r2 s.
Proof.
  revert r1 r2. induction s as [|a s IH]; intros r1 r2; simpl; trivial.
Qed.

Lemma re_match_cat_none (r : Regexp) (s : string) : re_match (ReCat ReNone r) s = false.
Proof. induction s as [|a s IH]; simpl; trivial. Qed.

Lemma re_match_cat_empty (r : Regexp) (s : string) :
  re_match (ReCat ReEmpty r) s = re_match r s.
Proof.
  destruct s as [|a s]; simpl; trivial.
  rewrite re_match_alt, re_match_cat_none. reflexivity.
Qed.

Lemma re_match_star_class (ranges : list (ascii * ascii)) (s : string) :
  re_match (ReStar (ReClass ranges)) s =
  forallb (in_class ranges) (list_ascii_of_string s).
Proof.
  induction s as [|a s IH]; simpl; trivial.
  destruct (in_class ranges a); simpl.
  - rewrite re_match_cat_empty. exact IH.
  - apply re_match_cat_none.
Qed.

(** [^[class]{n,}$] matches the strings of at least [n] bytes, all in the
    class. *)
Lemma re_match_at_least_class (n : nat) (ranges : list (ascii * ascii)) (s : string) :
  re_match (ReAtLeast n (ReClass ranges)) s =
  (n <=? String.length s)%nat && forallb (in_class ranges) (list_ascii_of_string s).
Proof.
  revert s. induction n as [|n IH]; intros s.
  - apply re_match_star_class.
  - destruct s as [|a s]; simpl; trivial.
    destruct (in_class ranges a); simpl.
    + rewrite re_match_cat_empty. apply IH.
    + rewrite re_match_cat_none, andb_false_r. reflexivity.
Qed.

Lemma in_range_iff (c lo hi : ascii) :
  in_range c (lo, hi) = true <-> (N_of_ascii lo <= N_of_ascii c <= N_of_ascii hi)%N.
Proof.
  unfold in_range. simpl. rewrite andb_true_iff, !N.leb_le. reflexivity.
Qed.

Lemma upper_class (c : ascii) : in_class [("A", "Z")]%char c = true <-> isUpper c.
Proof.
  unfold in_class, isUpper. simpl existsb. rewrite orb_false_r. apply in_range_iff.
Qed.

Lemma label_class (c : ascii) :
  in_class [("0", "9"); ("A", "Z"); ("a", "z"); ("-", "-")]%char c = true <-> isLabelChar c.
Proof.
  unfold in_class, isLabelChar. simpl existsb.
  rewrite orb_false_r, !orb_true_iff, !in_range_iff.
  assert (Hdash : (N_of_ascii "-" <= N_of_ascii c <= N_of_ascii "-")%N <-> c = "-"%char).
  { split.
    - intros Hc. rewrite <- (ascii_N_embedding c), <- (ascii_N_embedding "-").
      f_equal. lia.
    - intros ->. lia. }
  rewrite Hdash. reflexivity.
Qed.

Lemma forallb_Forall_iff {A} (f : A -> bool) (P : A -> Prop) (l : list A) :
  (forall a, f a = true <-> P a) -> forallb f l = true <-> Forall P l.
Proof.
  intros Hf. induction l as [|a l IH]; simpl.
  - split; [constructor | reflexivity].
  - rewrite andb_true_iff, Hf, IH. split.
    + intros [Ha Hl]. constructor; assumption.
    + intros Hall. inversion Hall; subst. split; assumption.
Qed.

Lemma isValidProjectKey_iff (s : string) :
  isValidProjectKey s = true <-> matchesProjectKey s.
Proof.
  unfold isValidProjectKey, regexp_MatchString_anchored, projectKeyPattern, matchesProjectKey.
  rewrite re_match_at_least_class, andb_true_iff, Nat.leb_le.
  rewrite (forallb_Forall_iff _ isUpper _ upper_class). reflexivity.
Qed.

Lemma isValidLabel_iff (s : string) : isValidLabel s = true <-> matchesLabel s.
Proof.
  unfold isValidLabel, regexp_MatchString_anchored, labelPattern, matchesLabel.
  rewrite re_match_at_least_class, andb_true_iff, Nat.leb_le.
  rewrite (forallb_Forall_iff _ isLabelChar _ label_class). reflexivity.
Qed.

Lemma strings_Contains_byte (s : string) (b : ascii) :
  strings_Contains s (String b EmptyString) = true <-> In b (list_ascii_of_string s).
Proof.
  induction s as [|a s IH]; simpl.
  - split; [discriminate | contradiction].
  - rewrite orb_true_iff, IH.
    destruct (ascii_dec b a) as [-> | Hne].
    + destruct (ascii_dec a a); [|contradiction].
      destruct s; simpl; intuition.
    + destruct (ascii_dec b a); [contradiction|].
      intuition congruence.
Qed.

Lemma isValidStatusName_iff (s : string) :
  isValidStatusName s = true <-> validStatusName s.
Proof.
  unfold isValidStatusName, validStatusName, quoteChar.
  rewrite andb_true_iff, negb_true_iff, <- not_true_iff_false, strings_Contains_byte.
  assert (Hlen : (0 <? len_string s) = true <-> s <> "").
  { unfold len_string. destruct s; simpl.
    - split; [discriminate | congruence].
    - split; [discriminate | intros _; apply Z.ltb_lt; lia]. }
  rewrite Hlen. reflexivity.
Qed.

(** ** Validation *)

Lemma fold_left_snoc_filter {A B} (p : A -> bool) (f : A -> B) (l : list A) (acc : list B) :
  fold_left (fun errs a => if p a then errs ++ [f a] else errs) l acc =
  acc ++ map f (List.filter p l).
Proof.
  revert acc. induction l as [|a l IH]; intros acc; simpl.
  - rewrite app_nil_r. reflexivity.
  - rewrite IH. destruct (p a); simpl; [rewrite <- app_assoc|]; reflexivity.
Qed.

Lemma fold_left_nonNil (errs acc : list error) :
  fold_left (fun acc err => match err with
                            | Some e => acc ++ [e]
                            | None => acc
                            end) (map Some errs) acc = acc ++ errs.
Proof.
  revert acc. induction errs as [|e errs IH]; intros acc; simpl.
  - rewrite app_nil_r. reflexivity.
  - rewrite IH, <- app_assoc. reflexivity.
Qed.

(** Nothing, the one error, or all of them in an [aggregateError]. *)
Lemma newAggregateError_all (errs : list error) :
  newAggregateError (map Some errs) =
  match errs with
  | [] => None
  | [e] => Some e
  | _ => Some (aggregateError errs)
  end.
Proof.
  destruct errs as [|e1 [|e2 errs]]; trivial.
  unfold newAggregateError.
  change (map Some (e1 :: e2 :: errs)) with (Some e1 :: Some e2 :: map Some errs).
  cbv iota.
  change (Some e1 :: Some e2 :: map Some errs) with (map Some (e1 :: e2 :: errs)).
  rewrite fold_left_nonNil. reflexivity.
Qed.

Lemma both_label_lists (only exempt : list string) :
  (0 <? len only) && (0 <? len exempt) =
  match only, exempt with
  | _ :: _, _ :: _ => true
  | _, _ => false
  end.
Proof.
  destruct only as [|a only]; [reflexivity|].
  destruct exempt as [|b exempt]; [apply andb_false_r|].
  rewrite (proj2 (len_pos_iff (a :: only))), (proj2 (len_pos_iff (b :: exempt)));
    [reflexivity | discriminate | discriminate].
Qed.

(** [Validate] collects every violation before it returns. *)
Lemma Validate_violations (c : Config) :
  Validate c = newAggregateError (map Some (violations c)).
Proof.
  unfold Validate, violations.
  rewrite (fold_left_snoc_filter (fun l => negb (isValidLabel l))
             (fun l => Some (Errorf "config contains invalid label `%s` in onlyLabels"
                               [ArgString l]))).
  rewrite (fold_left_snoc_filter (fun l => negb (isValidLabel l))
             (fun l => Some (Errorf "config contains invalid label `%s` in exemptLabels"
                               [ArgString l]))).
  rewrite both_label_lists.
  f_equal.
  rewrite !map_app, !map_map.
  destruct (String.eqb (JiraBaseURL c) ""), (isValidProjectKey (Project c)),
    (isValidLabel (StaleLabel c)), (isValidStatusName (CloseStatus c));
    destruct (OnlyLabels c) as [|o os], (ExemptLabels c) as [|x xs];
    cbn [negb app map]; rewrite <- ?app_assoc, ?app_nil_r; cbn [app]; reflexivity.
Qed.

Lemma invalid_labels_nil {B} (f : string -> B) (l : list string) :
  map f (List.filter (fun l => negb (isValidLabel l)) l) = [] <-> Forall matchesLabel l.
Proof.
  induction l as [|a l IH]; simpl.
  - split; [constructor | reflexivity].
  - destruct (isValidLabel a) eqn:Ea; simpl.
    + rewrite IH. split.
      * intros Hl. constructor; [apply isValidLabel_iff, Ea | exact Hl].
      * intros Hall. inversion Hall; assumption.
    + split; [discriminate|].
      intros Hall. inversion Hall as [|? ? Ha _]; subst.
      apply isValidLabel_iff in Ha. congruence.
Qed.

Lemma if_singleton_nil {B} (b : bool) (x : B) :
  (if b then [] else [x]) = [] <-> b = true.
Proof. destruct b; split; trivial; discriminate. Qed.

Lemma no_violations_iff (c : Config) :
  violations c = [] <-> c.(JiraBaseURL) <> "" /\ statedInvariants c.
Proof.
  unfold violations, statedInvariants.
  rewrite !app_nil, !invalid_labels_nil, !if_singleton_nil.
  rewrite isValidProjectKey_iff, isValidLabel_iff, isValidStatusName_iff.
  assert (Hurl : (if String.eqb (JiraBaseURL c) ""
                  then [Errorf "config must specify `jiraBaseURL`" []] else []) = []
                 <-> JiraBaseURL c <> "").
  { destruct (String.eqb_spec (JiraBaseURL c) ""); split; trivial;
      try discriminate; contradiction. }
  assert (Hboth : match OnlyLabels c, ExemptLabels c with
                  | _ :: _, _ :: _ =>
                      [Errorf "config must not specify both onlyLabels and exemptLabels" []]
                  | _, _ => []
                  end = []
                  <-> ~ (OnlyLabels c <> [] /\ ExemptLabels c <> [])).
  { split.
    - intros Hnil [Ho He].
      destruct (OnlyLabels c); [congruence|].
      destruct (ExemptLabels c); [congruence | discriminate].
    - intros Hno.
      destruct (OnlyLabels c); trivial.
      destruct (ExemptLabels c); trivial.
      exfalso. apply Hno. split; discriminate. }
  rewrite Hurl, Hboth. tauto.
Qed.

(** C7, as the code has it: [Validate] returns no error exactly when the
    stated invariants hold and, besides them, [jiraBaseURL] is not empty;
    it returns the one violation when there is one, and an
    [aggregateError] of all the violations, in the order of the checks,
    when there are several. *)
Theorem Validate_reports_all (c : Config) :
  (Validate c = None <-> c.(JiraBaseURL) <> "" /\ statedInvariants c) /\
  Validate c = match violations c with
               | [] => None
               | [e] => Some e
               | _ => Some (aggregateError (violations c))
               end.
Proof.
  assert (Hall : Validate c = match violations c with
                              | [] => None
                              | [e] => Some e
                              | _ => Some (aggregateError (violations c))
                              end).
  { rewrite Validate_violations. apply newAggregateError_all. }
  split; [|exact Hall].
  rewrite <- no_violations_iff, Hall.
  destruct (violations c) as [|e1 [|e2 errs]]; split; trivial; discriminate.
Qed.

(** The message of an [aggregateError] holds the message of every error
    in it. *)
Lemma aggregateError_Error `{GoQuote} (errs : list error) :
  Error (aggregateError errs) =
  "multiple errors: " +:+ strings_Join (map Error errs) "; ".
Proof.
  change (Error (aggregateError errs))
    with (fmt_Sprintf "multiple errors: %s" [VString (strings_Join (map Error errs) "; ")]).
  unfold fmt_Sprintf. simpl. rewrite append_nil_r. reflexivity.
Qed.

Lemma Sample_statedInvariants : statedInvariants Sample.cfgNoURL.
Proof.
  unfold statedInvariants. split; [|split; [|split; [|split; [|split]]]].
  - apply isValidProjectKey_iff. reflexivity.
  - constructor.
  - constructor; [|constructor; [|constructor]]; apply isValidLabel_iff; reflexivity.
  - apply isValidLabel_iff. reflexivity.
  - apply isValidStatusName_iff. reflexivity.
  - intros [Honly _]. apply Honly. reflexivity.
Qed.

(** C7 as stated fails: a configuration that keeps every stated invariant
    and has no [jiraBaseURL] is refused. *)
Lemma Validate_requires_jiraBaseURL :
  ~ (forall c : Config, Validate c = None <-> statedInvariants c).
Proof.
  intros Hclaim.
  pose proof (proj2 (Hclaim Sample.cfgNoURL) Sample_statedInvariants) as Hnone.
  vm_compute in Hnone. discriminate Hnone.
Qed.

(** Three violations at once come back together. *)
Example Validate_three_violations :
  Validate (Sample.withJiraBaseURL "" (Sample.cfg ["a b"] ["frozen"] 90 30)) =
  Some (aggregateError
          [Errorf "config must specify `jiraBaseURL`" [];
           Errorf "config must not specify both onlyLabels and exemptLabels" [];
           Errorf "config contains invalid label `%s` in onlyLabels" [ArgString "a b"]]).
Proof. reflexivity. Qed.

(** ** The dispatched operations *)

Lemma transitionID_find (transitions : list Transition) (statusName : string) :
  transitionID transitions statusName =
  match List.find (fun t => String.eqb t.(Transition_To).(To_Name) statusName) transitions with
  | Some t => (t.(Transition_ID), None)
  | None => ("", Some (Errorf "no transition found to status %q" [ArgString statusName]))
  end.
Proof.
  induction transitions as [|t rest IH]; simpl; trivial.
  destruct (String.eqb _ statusName); trivial.
Qed.

(** What [List.find] finds is the first transition to the status. *)
Lemma find_first (transitions : list Transition) (statusName : string) (t : Transition) :
  List.find (fun t => String.eqb t.(Transition_To).(To_Name) statusName) transitions = Some t <->
  exists before after,
    transitions = before ++ t :: after /\
    t.(Transition_To).(To_Name) = statusName /\
    forall t', In t' before -> t'.(Transition_To).(To_Name) <> statusName.
Proof.
  induction transitions as [|t0 rest IH]; simpl.
  - split; [discriminate|]. intros (before & after & Heq & _).
    destruct before; discriminate Heq.
  - destruct (String.eqb_spec (To_Name (Transition_To t0)) statusName) as [Hname | Hname].
    + split.
      * intros Heq. injection Heq as Heq. subst t0.
        exists [], rest. repeat split; trivial. intros t' [].
      * intros (before & after & Heq & _ & Hbefore).
        destruct before as [|b before]; simpl in Heq; injection Heq as Hhead Htail.
        -- subst t0. reflexivity.
        -- subst b. exfalso. apply (Hbefore t0); [left; reflexivity | exact Hname].
    + rewrite IH. split.
      * intros (before & after & Heq & Ht & Hbefore). subst rest.
        exists (t0 :: before), after. repeat split; trivial.
        intros t' [Heq | Hin]; [subst t'; exact Hname | apply Hbefore, Hin].
      * intros (before & after & Heq & Ht & Hbefore).
        destruct before as [|b before]; simpl in Heq; injection Heq as Hhead Htail.
        -- subst t0. contradiction.
        -- subst b rest. exists before, after. repeat split; trivial.
           intros t' Hin. apply Hbefore. right. exact Hin.
Qed.

(** C8: with the transitions the server offers, [closeIssue] executes the
    first one whose target status is [closeStatus], on the server as the
    look-up left it, and posts the close comment on the server as the
    transition left it, only when the transition was accepted; it returns
    the error of the step that failed, wrapped, or nil.  When no transition
    goes to [closeStatus] it returns the error "no transition found" of
    [transitionID] after the look-up alone: no transition is executed and
    no comment posted, and the server is as the look-up left it. *)
Theorem closeIssue_first_transition {W} (bot : Stalebot W) (issue : Issue)
    (w w1 : W) (transitions : list Transition) :
  Issue_GetTransitions (bot_Client bot) issue.(Issue_ID) w = ((transitions, None), w1) ->
  match List.find (fun t => String.eqb t.(Transition_To).(To_Name)
                              (bot_Config bot).(CloseStatus)) transitions with
  | Some t =>
      closeIssue bot issue w =
      (let '(transitioned, w2) :=
         Issue_DoTransition (bot_Client bot) issue.(Issue_ID) t.(Transition_ID) w1 in
       match transitioned with
       | Some err =>
           (Some (Errorf "transition to status %q: %v"
                    [ArgString (bot_Config bot).(CloseStatus); ArgError err]),
            w2,
            [EvGetTransitions issue.(Issue_ID);
             EvDoTransition issue.(Issue_ID) t.(Transition_ID)])
       | None =>
           let '(commented, w3) :=
             Issue_AddComment (bot_Client bot) issue.(Issue_ID)
               (bot_Config bot).(CloseComment) w2 in
           (match commented with
            | Some err => Some (Errorf "add close comment to issue: %v" [ArgError err])
            | None => None
            end,
            w3,
            [EvGetTransitions issue.(Issue_ID);
             EvDoTransition issue.(Issue_ID) t.(Transition_ID);
             EvAddComment issue.(Issue_ID) (bot_Config bot).(CloseComment)])
       end)
  | None =>
      closeIssue bot issue w =
      (Some (Errorf "get transition ID: %v"
               [ArgError (Errorf "no transition found to status %q"
                            [ArgString (bot_Config bot).(CloseStatus)])]),
       w1, [EvGetTransitions issue.(Issue_ID)])
  end.
Proof.
  intros Hget.
  unfold closeIssue, Client_GetTransitions, Client_DoTransition, Client_AddComment,
    bind, call, ret.
  rewrite Hget. cbn iota beta.
  rewrite transitionID_find.
  destruct (List.find _ transitions) as [t|]; cbn iota beta; [|reflexivity].
  destruct (Issue_DoTransition (bot_Client bot) (Issue_ID issue) (Transition_ID t) w1)
    as [[err|] w2]; cbn iota beta; [reflexivity|].
  destruct (Issue_AddComment (bot_Client bot) (Issue_ID issue)
              (CloseComment (bot_Config bot)) w2) as [[err|] w3]; reflexivity.
Qed.

Lemma closeIssue_first_transition_witness :
  Issue_GetTransitions (bot_Client Sample.journalBot) Sample.markedLongAgo.(Issue_ID) [] =
  ((Sample.transitions, None), ["transitions of 10100"]) /\
  closeIssue Sample.journalBot Sample.markedLongAgo [] =
  (None,
   ["transitions of 10100"; "transition 21"; "comment: closed as stale"],
   [EvGetTransitions "10100"; EvDoTransition "10100" "21";
    EvAddComment "10100" "closed as stale"]).
Proof.
  split; [reflexivity|].
  exact (closeIssue_first_transition Sample.journalBot Sample.markedLongAgo
           [] ["transitions of 10100"] Sample.transitions eq_refl).
Defined.

(** With no transition to [closeStatus] on offer the look-up is all that
    happens. *)
Example closeIssue_no_transition :
  closeIssue {| bot_Client := Sample.server [] [];
                bot_Config := Sample.cfgExempt;
                bot_DryRun := false;
                bot_Prompt := false |} Sample.markedLongAgo tt =
  (Some (Errorf "get transition ID: %v"
           [ArgError (Errorf "no transition found to status %q" [ArgString "Closed"])]),
   tt, [EvGetTransitions "10100"]).
Proof. reflexivity. Qed.

(** C6: the dispatch of [AddStaleLabel] posts the mark comment on the
    server as it finds it and, when the comment was accepted, adds the
    stale label by an update of the issue on the server as the comment left
    it; a refused comment ends the operation with the wrapped error and no
    update, a refused update with the error that names the label.  The
    dispatch of [RemoveStaleLabel] posts the unmark comment first and then
    removes the label the same way. *)
Theorem dispatch_comments_before_update {W} (bot : Stalebot W) (issue : Issue) (w : W) :
  dispatch bot AddStaleLabel issue w =
  (let reqBody :=
     {| update_Labels := [ {| labels_Add := (bot_Config bot).(StaleLabel);
                              labels_Remove := "" |} ] |} in
   let '(commented, w1) :=
     Issue_AddComment (bot_Client bot) issue.(Issue_ID) (bot_Config bot).(MarkComment) w in
   match commented with
   | Some err =>
       (Some (Some (Errorf "add mark comment to issue: %v" [ArgError err])),
        w1,
        [EvAddComment issue.(Issue_ID) (bot_Config bot).(MarkComment)])
   | None =>
       let '(updated, w2) :=
         Issue_UpdateIssue (bot_Client bot) issue.(Issue_ID) reqBody w1 in
       (Some match updated with
             | Some err =>
                 Some (Errorf "add stale label %q to issue: %v"
                         [ArgString (bot_Config bot).(StaleLabel);
                          ArgError (NewJiraError (bot_Client bot) err)])
             | None => None
             end,
        w2,
        [EvAddComment issue.(Issue_ID) (bot_Config bot).(MarkComment);
         EvUpdateIssue issue.(Issue_ID) reqBody])
   end)
  /\
  dispatch bot RemoveStaleLabel issue w =
  (let reqBody :=
     {| update_Labels := [ {| labels_Add := "";
                              labels_Remove := (bot_Config bot).(StaleLabel) |} ] |} in
   let '(commented, w1) :=
     Issue_AddComment (bot_Client bot) issue.(Issue_ID) (bot_Config bot).(UnmarkComment) w in
   match commented with
   | Some err =>
       (Some (Some (Errorf "add unmark comment to issue: %v" [ArgError err])),
        w1,
        [EvAddComment issue.(Issue_ID) (bot_Config bot).(UnmarkComment)])
   | None =>
       let '(updated, w2) :=
         Issue_UpdateIssue (bot_Client bot) issue.(Issue_ID) reqBody w1 in
       (Some match updated with
             | Some err =>
                 Some (Errorf "remove stale label %q from issue: %v"
                         [ArgString (bot_Config bot).(StaleLabel);
                          ArgError (NewJiraError (bot_Client bot)
                                      (NewJiraError (bot_Client bot) err))])
             | None => None
             end,
        w2,
        [EvAddComment issue.(Issue_ID) (bot_Config bot).(UnmarkComment);
         EvUpdateIssue issue.(Issue_ID) reqBody])
   end).
Proof.
  unfold dispatch, addStaleLabel, removeStaleLabel, Client_AddComment, Client_UpdateIssue,
    bind, call, ret.
  split.
  - destruct (Issue_AddComment (bot_Client bot) (Issue_ID issue)
                (MarkComment (bot_Config bot)) w) as [[err|] w1]; cbn iota beta zeta;
      [reflexivity|].
    destruct (Issue_UpdateIssue (bot_Client bot) (Issue_ID issue) _ w1) as [[err|] w2];
      reflexivity.
  - destruct (Issue_AddComment (bot_Client bot) (Issue_ID issue)
                (UnmarkComment (bot_Config bot)) w) as [[err|] w1]; cbn iota beta zeta;
      [reflexivity|].
    destruct (Issue_UpdateIssue (bot_Client bot) (Issue_ID issue) _ w1) as [[err|] w2];
      reflexivity.
Qed.

(** On a server that keeps a journal the comment is the older entry. *)
Example dispatch_journal :
  dispatch Sample.journalBot AddStaleLabel Sample.staleCandidate [] =
  (Some None,
   ["comment: marked stale"; "update of 10100"],
   [EvAddComment "10100" "marked stale";
    EvUpdateIssue "10100"
      {| update_Labels := [ {| labels_Add := "lifecycle-stale"; labels_Remove := "" |} ] |}])
  /\
  dispatch Sample.journalBot RemoveStaleLabel Sample.touchedAfterMark [] =
  (Some None,
   ["comment: no longer stale"; "update of 10100"],
   [EvAddComment "10100" "no longer stale";
    EvUpdateIssue "10100"
      {| update_Labels := [ {| labels_Add := ""; labels_Remove := "lifecycle-stale" |} ] |}]).
Proof. split; reflexivity. Qed.

(** X26: [addStaleLabel] of the earlier stalebot.go, which its run loop
    never calls, goes the other way round: it sends the issue with the
    stale label appended to its labels, notifying the users, to the server
    as it finds it, and only when that update was accepted posts the mark
    comment, on the server as the update left it; it returns the wrapped
    error of the call that failed, or nil. *)
Lemma Legacy_addStaleLabel_updates_first {W} (bot : Stalebot W) (issue : Issue) (w : W) :
  Legacy.addStaleLabel bot issue w =
  (let marked :=
     Legacy.set_Labels
       (issue.(Issue_Fields).(Fields_Labels) ++ [(bot_Config bot).(StaleLabel)]) issue in
   let '(updated, w1) := Issue_Update (bot_Client bot) marked true w in
   match updated with
   | Some err =>
       (Some (Errorf "add stale label %q to issue: %v"
                [ArgString (bot_Config bot).(StaleLabel); ArgError err]),
        w1,
        [EvUpdate marked true])
   | None =>
       let '(commented, w2) :=
         Issue_AddComment (bot_Client bot) issue.(Issue_ID)
           (bot_Config bot).(MarkComment) w1 in
       (match commented with
        | Some err => Some (Errorf "add mark comment to issue: %v" [ArgError err])
        | None => None
        end,
        w2,
        [EvUpdate marked true;
         EvAddComment issue.(Issue_ID) (bot_Config bot).(MarkComment)])
   end).
Proof.
  unfold Legacy.addStaleLabel, Client_Update, Client_AddComment, bind, call, ret.
  cbn zeta. cbn [Legacy.set_Labels Issue_ID].
  destruct (Issue_Update (bot_Client bot) _ true w) as [[err|] w1]; cbn iota beta;
    [reflexivity|].
  destruct (Issue_AddComment (bot_Client bot) _ _ w1) as [[err|] w2]; reflexivity.
Qed.

(** On a server that keeps a journal the update is the older entry. *)
Example Legacy_addStaleLabel_journal :
  Legacy.addStaleLabel Sample.journalBot Sample.staleCandidate [] =
  (None,
   ["put of 10100"; "comment: marked stale"],
   [EvUpdate (Sample.issue "new" ["lifecycle-stale"] Sample.minus120days []) true;
    EvAddComment "10100" "marked stale"]).
Proof. reflexivity. Qed.

(** In the loop, with no prompt and no dry run, an operation other than
    [None] is the line "performing operation", the dispatch, and the line
    "operation succeeded" when the dispatch returned no error. *)
Lemma processIssue_performs {W} (host : Host W) (bot : Stalebot W) (op : Operation)
    (issue : Issue) (w : W) :
  op <> OpNone -> bot_Prompt bot = false -> bot_DryRun bot = false ->
  trace_of (processIssue host bot op issue w) =
  EvLog [("key", LogString issue.(Issue_Key))] "performing operation"
    [("op", LogString (Operation_string op))]
  :: trace_of (dispatch bot op issue w) ++
     match result_of (dispatch bot op issue w) with
     | Some None =>
         [EvLog [("key", LogString issue.(Issue_Key))] "operation succeeded"
            [("op", LogString (Operation_string op))]]
     | _ => []
     end.
Proof.
  intros Hop Hprompt Hdry.
  unfold processIssue, confirm. rewrite Hprompt, Hdry.
  destruct (decide (op = OpNone)) as [|_]; [contradiction|].
  unfold bind, ret, Logger_Info, emit, trace_of, result_of. cbn [fst snd app].
  destruct (dispatch bot op issue w) as [[[[err|]|] w1] t1]; cbn [fst snd app];
    rewrite ?app_nil_r; reflexivity.
Qed.

(** ** The run loop *)

Lemma trace_bind {W A B} (m : M W A) (k : A -> M W B) (w : W) :
  trace_of (bind m k w) =
  trace_of (m w) ++ trace_of (k (result_of (m w)) (world_of (m w))).
Proof.
  unfold bind, trace_of, result_of, world_of.
  destruct (m w) as [[a w1] t1]. simpl.
  destruct (k a w1) as [[b w2] t2]. reflexivity.
Qed.

Lemma trace_ret {W A} (a : A) (w : W) : trace_of (ret a w) = [].
Proof. reflexivity. Qed.

Lemma trace_call {W A} (f : W -> A * W) (ev : A -> Event) (w : W) :
  trace_of (call f ev w) = [ev (fst (f w))].
Proof. unfold call, trace_of. destruct (f w). reflexivity. Qed.

Lemma dispatched_app (t1 t2 : list Event) :
  dispatched (t1 ++ t2) = (dispatched t1 + dispatched t2)%nat.
Proof. unfold dispatched. rewrite List.filter_app, length_app. reflexivity. Qed.

Lemma foundActionable_app (c : Config) (now : Time) (t1 t2 : list Event) :
  foundActionable c now (t1 ++ t2) =
  (foundActionable c now t1 + foundActionable c now t2)%nat.
Proof.
  induction t1 as [|e t1 IH]; simpl; trivial.
  destruct e; trivial. rewrite IH. lia.
Qed.

(** The calls on the client are no log lines. *)
Lemma dispatch_no_log {W} (bot : Stalebot W) (op : Operation) (issue : Issue) (w : W) :
  dispatched (trace_of (dispatch bot op issue w)) = 0%nat.
Proof.
  destruct op; unfold dispatch; trivial.
  - unfold addStaleLabel, Client_AddComment, Client_UpdateIssue, bind, call, ret, trace_of.
    repeat case_match; simplify_eq; reflexivity.
  - unfold removeStaleLabel, Client_AddComment, Client_UpdateIssue, bind, call, ret, trace_of.
    repeat case_match; simplify_eq; reflexivity.
  - unfold closeIssue, Client_GetTransitions, Client_DoTransition, Client_AddComment,
      bind, call, ret, trace_of.
    repeat case_match; simplify_eq; reflexivity.
Qed.

Lemma confirm_no_log {W} (host : Host W) (bot : Stalebot W) (op : Operation)
    (issue : Issue) (w : W) :
  dispatched (trace_of (confirm host bot op issue w)) = 0%nat.
Proof.
  unfold confirm, bind, call, ret, trace_of.
  repeat case_match; simplify_eq; reflexivity.
Qed.

Ltac count_events := unfold dispatched in *; simpl; lia.

(** One issue is one operation at most, and none when the evaluator says
    [None]. *)
Lemma processIssue_dispatched {W} (host : Host W) (bot : Stalebot W) (op : Operation)
    (issue : Issue) (w : W) :
  (dispatched (trace_of (processIssue host bot op issue w)) <=
   if decide (op = OpNone) then 0 else 1)%nat.
Proof.
  unfold processIssue.
  destruct (decide (op = OpNone)) as [Hop | Hop]; [reflexivity|].
  rewrite trace_bind, dispatched_app, confirm_no_log.
  destruct (result_of (confirm host bot op issue w)); cbv iota;
    [rewrite trace_ret; count_events | rewrite trace_ret; count_events |].
  destruct (bot_DryRun bot).
  - rewrite trace_bind, trace_ret. count_events.
  - rewrite trace_bind, dispatched_app, trace_bind, dispatched_app, dispatch_no_log.
    change (dispatched (trace_of (Logger_Info _ "performing operation" _ _))) with 1%nat.
    match goal with
    | |- context [result_of ?r] => destruct (result_of r) as [[err|]|]
    end; cbv iota.
    + rewrite trace_ret. count_events.
    + rewrite trace_bind, trace_ret. count_events.
    + rewrite trace_ret. count_events.
Qed.

Lemma processChunk_dispatched {W} (host : Host W) (bot : Stalebot W) (now : Time)
    (chunk : list Issue) (opCounts : gmap Operation Z) (w : W) :
  (dispatched (trace_of (processChunk host bot now chunk opCounts w)) <=
   length (List.filter (actionable (bot_Config bot) now) chunk))%nat.
Proof.
  revert opCounts w. induction chunk as [|issue rest IH]; intros opCounts w.
  - count_events.
  - cbn [processChunk List.filter].
    rewrite trace_bind, dispatched_app.
    pose proof (processIssue_dispatched host bot
                  (IssueOperation (bot_Config bot) now issue) issue w) as Hone.
    match goal with
    | |- (_ + dispatched (trace_of ?k) <= _)%nat =>
        assert (Hrest : (dispatched (trace_of k) <=
                         length (List.filter (actionable (bot_Config bot) now) rest))%nat)
    end.
    { destruct (result_of _); [rewrite trace_ret; count_events | apply IH]. }
    unfold actionable at 1.
    destruct (decide (IssueOperation (bot_Config bot) now issue = OpNone)) as [Hop | Hop].
    + rewrite (bool_decide_eq_true_2 _ Hop). simpl negb. cbv iota. lia.
    + rewrite (bool_decide_eq_false_2 _ Hop). simpl negb. cbv iota. simpl length. lia.
Qed.

Lemma searchLoop_dispatched {W} (host : Host W) (fuel : nat) (bot : Stalebot W)
    (query : string) (now : Time) (last processed : Z) (opCounts : gmap Operation Z) (w : W) :
  (dispatched (trace_of (searchLoop host fuel bot query now last processed opCounts w)) <=
   foundActionable (bot_Config bot) now
     (trace_of (searchLoop host fuel bot query now last processed opCounts w)))%nat.
Proof.
  revert last processed opCounts w.
  induction fuel as [|fuel IH]; intros last processed opCounts w.
  - count_events.
  - cbn [searchLoop]. rewrite trace_bind, dispatched_app, foundActionable_app.
    unfold Client_Search at 1 3. rewrite !trace_call.
    unfold Client_Search, call, result_of, world_of.
    destruct (Issue_Search (bot_Client bot) query _ w) as [[[chunk resp] err] w1].
    cbn [fst snd]. unfold trace_of at 2. cbn [snd].
    unfold dispatched at 1. cbn [List.filter isPerforming length foundActionable].
    destruct err as [err|]; [rewrite trace_ret; count_events|].
    rewrite trace_bind, dispatched_app, foundActionable_app.
    pose proof (processChunk_dispatched host bot now chunk opCounts w1) as Hchunk.
    destruct (processChunk host bot now chunk opCounts w1) as [[[opCounts' err] w2] t2].
    unfold trace_of, result_of, world_of in *. cbn [fst snd] in *.
    destruct err as [err|]; [unfold dispatched in *; simpl; lia|].
    destruct (Resp_Total resp <=? int64_add (Resp_StartAt resp) (len chunk)).
    + unfold dispatched in *. simpl. lia.
    + specialize (IH (int64_add (Resp_StartAt resp) (len chunk))
                     (int64_add processed (len chunk)) opCounts' w2).
      lia.
Qed.

Lemma quiet_run {W A} (f : W -> A * W) (w : W) :
  quiet f w = (fst (f w), snd (f w), []).
Proof. unfold quiet. destruct (f w). reflexivity. Qed.

(** The events of a run: the first log line, the events of the paging
    loop and, after a [break], the two closing log lines. *)
Lemma Run_trace {W} `{GoQuote} (host : Host W) (fuel : nat) (bot : Stalebot W) (w : W) :
  let loop := searchLoop host fuel bot (EligibleIssuesQuery (bot_Config bot))
                (fst (time_Now host w)) 0 0 ∅ (snd (time_Now host w)) in
  trace_of (Run host fuel bot w) =
  match Validate (bot_Config bot) with
  | Some _ => []
  | None =>
      EvLog [] "querying jira" [("jql", LogString (EligibleIssuesQuery (bot_Config bot)))]
      :: trace_of loop ++
         match result_of loop with
         | Break processed opCounts =>
             [EvLog [] "found eligible issues" [("count", LogInt processed)];
              EvLog [] "operations"
                [(Operation_string AddStaleLabel, LogInt (opCount opCounts AddStaleLabel));
                 (Operation_string RemoveStaleLabel, LogInt (opCount opCounts RemoveStaleLabel));
                 (Operation_string Close, LogInt (opCount opCounts Close))]]
         | _ => []
         end
  end.
Proof.
  intros loop. subst loop.
  unfold Run, bind, quiet, Logger_Info, emit, ret, trace_of, result_of.
  destruct (Validate (bot_Config bot)); [reflexivity|].
  destruct (time_Now host w) as [now w0]. cbn [fst snd].
  destruct (searchLoop host fuel bot _ now 0 0 ∅ w0) as [[fin w1] t1]. cbn [fst snd].
  destruct fin; cbn [fst snd app]; rewrite ?app_nil_r; reflexivity.
Qed.

Lemma Run_dispatched {W} `{GoQuote} (host : Host W) (fuel : nat) (bot : Stalebot W) (w : W) :
  (dispatched (trace_of (Run host fuel bot w)) <=
   foundActionable (bot_Config bot) (fst (time_Now host w))
     (trace_of (Run host fuel bot w)))%nat.
Proof.
  rewrite Run_trace.
  destruct (Validate (bot_Config bot)); [count_events|].
  pose proof (searchLoop_dispatched host fuel bot (EligibleIssuesQuery (bot_Config bot))
                (fst (time_Now host w)) 0 0 ∅ (snd (time_Now host w))) as Hloop.
  change (?e :: ?t ++ ?u) with ([e] ++ t ++ u).
  rewrite !dispatched_app, !foundActionable_app.
  destruct (result_of _); unfold dispatched in *; simpl; lia.
Qed.

(** [limitPerRun] is read nowhere on the way of a run. *)
Lemma processIssue_limit {W} (host : Host W) (n : Z) (bot : Stalebot W) (op : Operation)
    (issue : Issue) (w : W) :
  processIssue host (withLimitPerRun n bot) op issue w = processIssue host bot op issue w.
Proof. reflexivity. Qed.

Lemma processChunk_limit {W} (host : Host W) (n : Z) (bot : Stalebot W) (now : Time)
    (chunk : list Issue) (opCounts : gmap Operation Z) (w : W) :
  processChunk host (withLimitPerRun n bot) now chunk opCounts w =
  processChunk host bot now chunk opCounts w.
Proof.
  revert opCounts w. induction chunk as [|issue rest IH]; intros opCounts w; [reflexivity|].
  cbn [processChunk].
  change (bot_Config (withLimitPerRun n bot)) with (set_LimitPerRun n (bot_Config bot)).
  change (IssueOperation (set_LimitPerRun n (bot_Config bot)) now issue)
    with (IssueOperation (bot_Config bot) now issue).
  unfold bind. rewrite processIssue_limit.
  destruct (processIssue host bot _ issue w) as [[[err|] w1] t1]; [reflexivity|].
  rewrite IH. reflexivity.
Qed.

Lemma searchLoop_limit {W} (host : Host W) (n : Z) (fuel : nat) (bot : Stalebot W)
    (query : string) (now : Time) (last processed : Z) (opCounts : gmap Operation Z) (w : W) :
  searchLoop host fuel (withLimitPerRun n bot) query now last processed opCounts w =
  searchLoop host fuel bot query now last processed opCounts w.
Proof.
  revert last processed opCounts w.
  induction fuel as [|fuel IH]; intros last processed opCounts w; [reflexivity|].
  cbn [searchLoop].
  change (bot_Client (withLimitPerRun n bot)) with (bot_Client bot).
  unfold bind.
  destruct (Client_Search (bot_Client bot) query _ w) as [[[[chunk resp] [err|]] w1] t1];
    [reflexivity|].
  rewrite processChunk_limit.
  destruct (processChunk host bot now chunk opCounts w1) as [[[opCounts' [err|]] w2] t2];
    [reflexivity|].
  destruct (Resp_Total resp <=? _); [reflexivity|].
  rewrite IH. reflexivity.
Qed.

Lemma EligibleIssuesQuery_limit `{GoQuote} (n : Z) (c : Config) :
  EligibleIssuesQuery (set_LimitPerRun n c) = EligibleIssuesQuery c.
Proof.
  unfold EligibleIssuesQuery, exemptOrOnlyLabels, set_LimitPerRun.
  cbn [Project ExemptLabels OnlyLabels]. reflexivity.
Qed.

Lemma Run_limit {W} `{GoQuote} (host : Host W) (n : Z) (fuel : nat) (bot : Stalebot W) (w : W) :
  Run host fuel (withLimitPerRun n bot) w = Run host fuel bot w.
Proof.
  unfold Run.
  change (bot_Config (withLimitPerRun n bot)) with (set_LimitPerRun n (bot_Config bot)).
  change (Validate (set_LimitPerRun n (bot_Config bot))) with (Validate (bot_Config bot)).
  rewrite EligibleIssuesQuery_limit.
  destruct (Validate (bot_Config bot)); [reflexivity|].
  unfold bind.
  destruct (quiet (time_Now host) w) as [[now w0] t0].
  destruct (Logger_Info _ _ _ w0) as [[u w1] t1].
  rewrite searchLoop_limit. reflexivity.
Qed.

Lemma setDefaults_LimitPerRun `{GoQuote} (c : Config) :
  (setDefaults c).(LimitPerRun) =
  if c.(LimitPerRun) <=? 0 then defaultLimitPerRun else c.(LimitPerRun).
Proof.
  unfold setDefaults.
  repeat case_match;
    cbn [LimitPerRun set_StaleLabel set_DaysUntilStale set_DaysUntilClose set_LimitPerRun
           set_MarkComment set_UnmarkComment] in *;
    try congruence;
    repeat match goal with
           | Hl : (LimitPerRun c <=? 0) = _ |- _ => rewrite Hl
           end; reflexivity.
Qed.

(** C5, as the code has it: the run loop does not read [limitPerRun], which
    [setDefaults] sets to 100 when the file gives none: a run with another
    [limitPerRun] is the same run, and the operations a run dispatches are
    at most the issues its searches returned that the evaluator maps to an
    operation other than [None]. *)
Theorem Run_not_capped_by_limitPerRun {W} `{GoQuote} (host : Host W) (fuel : nat)
    (bot : Stalebot W) (n : Z) (w : W) (c : Config) :
  Run host fuel (withLimitPerRun n bot) w = Run host fuel bot w /\
  (dispatched (trace_of (Run host fuel bot w)) <=
   foundActionable (bot_Config bot) (fst (time_Now host w))
     (trace_of (Run host fuel bot w)))%nat /\
  (setDefaults c).(LimitPerRun) =
  (if c.(LimitPerRun) <=? 0 then 100 else c.(LimitPerRun)).
Proof.
  split; [apply Run_limit|].
  split; [apply Run_dispatched | apply setDefaults_LimitPerRun].
Qed.

(** C5 as stated fails: with the default limit of 100 and a search that
    returns 101 issues to mark, the run marks all 101. *)
Lemma Run_exceeds_limitPerRun :
  Sample.cfgDefaultLimit.(LimitPerRun) = 100 /\
  result_of (@Run unit Sample.quote Sample.host 1
               (Sample.bot Sample.cfgDefaultLimit Sample.manyStale) tt) = Some None /\
  dispatched (trace_of (@Run unit Sample.quote Sample.host 1
                          (Sample.bot Sample.cfgDefaultLimit Sample.manyStale) tt))
  = 101%nat /\
  ~ (Z.of_nat (dispatched (trace_of (@Run unit Sample.quote Sample.host 1
                                       (Sample.bot Sample.cfgDefaultLimit Sample.manyStale) tt)))
     <= Sample.cfgDefaultLimit.(LimitPerRun)).
Proof.
  split; [vm_compute; reflexivity|].
  split; [vm_compute; reflexivity|].
  assert (Hn : dispatched (trace_of (@Run unit Sample.quote Sample.host 1
                 (Sample.bot Sample.cfgDefaultLimit Sample.manyStale) tt)) = 101%nat)
    by (vm_compute; reflexivity).
  split; [exact Hn|].
  rewrite Hn. vm_compute. intros Hle. apply Hle. reflexivity.
Qed.

(** The run loop of the earlier stalebot.go changes no issue: it searches
    and logs. *)
Lemma Legacy_planChunk_changes_nothing {W} (bot : Stalebot W) (now : Time)
    (chunk : list Issue) (opCounts : gmap Operation Z) (w : W) :
  List.filter isChange (trace_of (Legacy.planChunk bot now chunk opCounts w)) = [].
Proof.
  revert opCounts w. induction chunk as [|issue rest IH]; intros opCounts w; [reflexivity|].
  cbn [Legacy.planChunk]. rewrite trace_bind, List.filter_app, IH. reflexivity.
Qed.

Lemma Legacy_searchLoop_changes_nothing {W} (fuel : nat) (bot : Stalebot W)
    (query : string) (now : Time) (last processed : Z) (opCounts : gmap Operation Z) (w : W) :
  List.filter isChange
    (trace_of (Legacy.searchLoop fuel bot query now last processed opCounts w)) = [].
Proof.
  revert last processed opCounts w.
  induction fuel as [|fuel IH]; intros last processed opCounts w; [reflexivity|].
  cbn [Legacy.searchLoop]. rewrite trace_bind, List.filter_app.
  unfold Client_Search at 1. rewrite trace_call. cbn [List.filter isChange app].
  destruct (result_of _) as [[chunk resp] [err|]]; [reflexivity|].
  rewrite trace_bind, List.filter_app, Legacy_planChunk_changes_nothing.
  destruct (Resp_Total resp <=? _); [reflexivity | apply IH].
Qed.

(** X25: the [Run] of the earlier stalebot.go only plans: whatever the
    configuration, the server and the number of pages, it posts no
    comment, updates no issue and executes no transition. *)
Lemma Legacy_Run_changes_nothing {W} `{GoQuote} (host : Host W) (fuel : nat)
    (bot : Stalebot W) (w : W) :
  List.filter isChange (trace_of (Legacy.Run host fuel bot w)) = [].
Proof.
  unfold Legacy.Run.
  destruct (Validate (bot_Config bot)); [reflexivity|].
  rewrite trace_bind, List.filter_app, quiet_run.
  unfold trace_of at 1. cbn [snd List.filter app].
  rewrite trace_bind, List.filter_app.
  rewrite trace_bind, List.filter_app, Legacy_searchLoop_changes_nothing.
  cbn [app]. 
  destruct (result_of (Legacy.searchLoop _ _ _ _ _ _ _ _)); reflexivity.
Qed.

(** The cases of operations_test.go. *)
Example test_lacks_stale_label_updated_before_stale_days :
  IssueOperation Sample.cfgExempt Sample.now Sample.staleCandidate = AddStaleLabel /\
  IssueOperation Sample.cfgOnly Sample.now Sample.staleCandidate = AddStaleLabel.
Proof. split; reflexivity. Qed.

Example test_lacks_stale_label_updated_after_stale_days :
  IssueOperation Sample.cfgExempt Sample.now
    (Sample.issue "new" [] Sample.minus60days []) = OpNone.
Proof. reflexivity. Qed.

Example test_has_stale_label :
  IssueOperation Sample.cfgExempt Sample.now Sample.markedLongAgo = Close /\
  IssueOperation Sample.cfgExempt Sample.now
    (Sample.issue "new" ["lifecycle-stale"] Sample.minus60days [Sample.otherLabelChange])
  = RemoveStaleLabel /\
  IssueOperation Sample.cfgExempt Sample.now
    (Sample.issue "new" ["lifecycle-stale"] Sample.now [Sample.addedStaleLabel]) = OpNone /\
  IssueOperation Sample.cfgExempt Sample.now
    (Sample.issue "new" ["lifecycle-stale"] Sample.now [Sample.otherLabelChange])
  = RemoveStaleLabel.
Proof. repeat split; reflexivity. Qed.

Example test_issue_is_exempt :
  let issueLabels := Sample.onlyLabels ++ ["lifecycle-frozen"] in
  IssueOperation Sample.cfgExempt Sample.now
    (Sample.issue "new" issueLabels Sample.minus120days []) = OpNone /\
  IssueOperation Sample.cfgOnly Sample.now
    (Sample.issue "new" issueLabels Sample.minus120days []) = OpNone.
Proof. split; reflexivity. Qed.

(** * Further properties of the code *)

(** ** config.go *)

Lemma defaultMarkComment_nonempty `{GoQuote} (c : Config) :
  String.eqb (defaultMarkCommentFunc c) "" = false.
Proof. reflexivity. Qed.

Lemma defaultUnmarkComment_nonempty `{GoQuote} (c : Config) :
  String.eqb (defaultUnmarkCommentFunc c) "" = false.
Proof. reflexivity. Qed.

Ltac setDefaults_cases :=
  unfold setDefaults;
  repeat case_match;
  cbn [JiraBaseURL Project DaysUntilStale DaysUntilClose OnlyLabels ExemptLabels
         StaleLabel MarkComment UnmarkComment CloseStatus CloseComment LimitPerRun
         set_StaleLabel set_DaysUntilStale set_DaysUntilClose set_LimitPerRun
         set_MarkComment set_UnmarkComment] in *.

Lemma setDefaults_set `{GoQuote} (c : Config) :
  String.eqb (setDefaults c).(StaleLabel) "" = false /\
  ((setDefaults c).(DaysUntilStale) <=? 0) = false /\
  ((setDefaults c).(DaysUntilClose) <=? 0) = false /\
  ((setDefaults c).(LimitPerRun) <=? 0) = false /\
  String.eqb (setDefaults c).(MarkComment) "" = false /\
  String.eqb (setDefaults c).(UnmarkComment) "" = false.
Proof.
  setDefaults_cases;
    repeat split; try assumption; try reflexivity.
Qed.

Lemma setDefaults_fixed `{GoQuote} (c : Config) :
  String.eqb c.(StaleLabel) "" = false ->
  (c.(DaysUntilStale) <=? 0) = false ->
  (c.(DaysUntilClose) <=? 0) = false ->
  (c.(LimitPerRun) <=? 0) = false ->
  String.eqb c.(MarkComment) "" = false ->
  String.eqb c.(UnmarkComment) "" = false ->
  setDefaults c = c.
Proof.
  intros H1 H2 H3 H4 H5 H6. unfold setDefaults.
  rewrite H1, H2, H3, H4, H5, H6. reflexivity.
Qed.

(** X1: applying the defaults twice is applying them once. *)
Theorem setDefaults_idempotent `{GoQuote} (c : Config) :
  setDefaults (setDefaults c) = setDefaults c.
Proof.
  destruct (setDefaults_set c) as (H1 & H2 & H3 & H4 & H5 & H6).
  apply setDefaults_fixed; assumption.
Qed.

(** X2: after [setDefaults] the stale label and the two comments are not
    empty and the two day counts and the limit are positive; a value the
    file gave (a non-empty string, a positive number) is kept; the base
    URL, the project, the two label lists, the close status and the close
    comment are never touched. *)
Theorem setDefaults_fills_only_unset `{GoQuote} (c : Config) :
  ((setDefaults c).(StaleLabel) <> "" /\
   0 < (setDefaults c).(DaysUntilStale) /\
   0 < (setDefaults c).(DaysUntilClose) /\
   0 < (setDefaults c).(LimitPerRun) /\
   (setDefaults c).(MarkComment) <> "" /\
   (setDefaults c).(UnmarkComment) <> "") /\
  ((c.(StaleLabel) <> "" -> (setDefaults c).(StaleLabel) = c.(StaleLabel)) /\
   (0 < c.(DaysUntilStale) -> (setDefaults c).(DaysUntilStale) = c.(DaysUntilStale)) /\
   (0 < c.(DaysUntilClose) -> (setDefaults c).(DaysUntilClose) = c.(DaysUntilClose)) /\
   (0 < c.(LimitPerRun) -> (setDefaults c).(LimitPerRun) = c.(LimitPerRun)) /\
   (c.(MarkComment) <> "" -> (setDefaults c).(MarkComment) = c.(MarkComment)) /\
   (c.(UnmarkComment) <> "" -> (setDefaults c).(UnmarkComment) = c.(UnmarkComment))) /\
  ((setDefaults c).(JiraBaseURL) = c.(JiraBaseURL) /\
   (setDefaults c).(Project) = c.(Project) /\
   (setDefaults c).(OnlyLabels) = c.(OnlyLabels) /\
   (setDefaults c).(ExemptLabels) = c.(ExemptLabels) /\
   (setDefaults c).(CloseStatus) = c.(CloseStatus) /\
   (setDefaults c).(CloseComment) = c.(CloseComment)).
Proof.
  split; [|split].
  - destruct (setDefaults_set c) as (H1 & H2 & H3 & H4 & H5 & H6).
    apply String.eqb_neq in H1, H5, H6. apply Z.leb_gt in H2, H3, H4.
    repeat split; assumption.
  - setDefaults_cases;
      repeat match goal with
             | Hs : String.eqb _ "" = true |- _ => apply String.eqb_eq in Hs
             | Hs : String.eqb _ "" = false |- _ => apply String.eqb_neq in Hs
             | Hz : (_ <=? 0) = true |- _ => apply Z.leb_le in Hz
             | Hz : (_ <=? 0) = false |- _ => apply Z.leb_gt in Hz
             end;
      repeat split; intros; try reflexivity; try contradiction; try lia.
  - setDefaults_cases; repeat split; reflexivity.
Qed.

(** X3: a default comment is written with the values the configuration
    ends up with: the mark comment [setDefaults] fills in is the default
    text for the final day counts and stale label (90, 14 and
    "lifecycle-stale" where the file gave none), and so is the unmark
    comment. *)
Theorem setDefaults_comments_use_final_values `{GoQuote} (c : Config) :
  (setDefaults c).(MarkComment) =
  (if String.eqb c.(MarkComment) ""
   then defaultMarkCommentFunc (setDefaults c) else c.(MarkComment)) /\
  (setDefaults c).(UnmarkComment) =
  (if String.eqb c.(UnmarkComment) ""
   then defaultUnmarkCommentFunc (setDefaults c) else c.(UnmarkComment)).
Proof.
  setDefaults_cases; try congruence;
    unfold defaultMarkCommentFunc, defaultUnmarkCommentFunc;
    cbn [DaysUntilStale DaysUntilClose StaleLabel]; split; reflexivity.
Qed.

Lemma fold_left_nonNil_omap (errs : list (option error)) (acc : list error) :
  fold_left (fun acc err => match err with
                            | Some e => acc ++ [e]
                            | None => acc
                            end) errs acc = acc ++ omap id errs.
Proof.
  revert acc. induction errs as [|[e|] errs IH]; intros acc; simpl.
  - rewrite app_nil_r. reflexivity.
  - rewrite IH, <- app_assoc. reflexivity.
  - apply IH.
Qed.

(** X4: [newAggregateError] returns [nil] only for the empty slice and for
    the slice of one [nil]; a slice of one error gives that error; a slice
    of two or more entries always gives an [aggregateError], of its
    non-[nil] entries in their order (so two [nil]s give an error that
    holds nothing). *)
Theorem newAggregateError_cases (errs : list (option error)) :
  (newAggregateError errs = None <-> errs = [] \/ errs = [None]) /\
  (forall e, newAggregateError [e] = e) /\
  (forall e1 e2 rest,
      newAggregateError (e1 :: e2 :: rest) =
      Some (aggregateError (omap id (e1 :: e2 :: rest)))).
Proof.
  split; [|split].
  - destruct errs as [|e1 [|e2 rest]]; simpl.
    + split; [left; reflexivity | reflexivity].
    + split; [intros ->; right; reflexivity | intros [Hnil | Hone]; congruence].
    + split; [discriminate | intros [Hnil | Hone]; discriminate].
  - reflexivity.
  - intros e1 e2 rest. unfold newAggregateError.
    rewrite fold_left_nonNil_omap. reflexivity.
Qed.

(** X5: a project key is valid exactly when it is two or more bytes long
    and every byte is an upper-case ASCII letter. *)
Theorem isValidProjectKey_characterised (project : string) :
  isValidProjectKey project = true <->
  (2 <= String.length project)%nat /\
  forall c, In c (list_ascii_of_string project) ->
            (N_of_ascii "A" <= N_of_ascii c <= N_of_ascii "Z")%N.
Proof.
  rewrite isValidProjectKey_iff. unfold matchesProjectKey, isUpper.
  rewrite List.Forall_forall. reflexivity.
Qed.

(** X6: a label is valid exactly when it is not empty and every byte is an
    ASCII digit, an ASCII letter or the hyphen; so a label with a space, an
    underscore or a byte of a non-ASCII character is refused. *)
Theorem isValidLabel_characterised (label : string) :
  isValidLabel label = true <->
  label <> "" /\
  forall c, In c (list_ascii_of_string label) ->
            (48 <= N_of_ascii c <= 57)%N \/ (65 <= N_of_ascii c <= 90)%N \/
            (97 <= N_of_ascii c <= 122)%N \/ N_of_ascii c = 45%N.
Proof.
  rewrite isValidLabel_iff. unfold matchesLabel.
  rewrite List.Forall_forall.
  assert (Hlen : (1 <= String.length label)%nat <-> label <> "").
  { destruct label; simpl; split; try congruence; try lia. }
  rewrite Hlen.
  assert (Hchar : forall c, isLabelChar c <->
            (48 <= N_of_ascii c <= 57)%N \/ (65 <= N_of_ascii c <= 90)%N \/
            (97 <= N_of_ascii c <= 122)%N \/ N_of_ascii c = 45%N).
  { intros c. unfold isLabelChar.
    change (N_of_ascii "0") with 48%N. change (N_of_ascii "9") with 57%N.
    change (N_of_ascii "A") with 65%N. change (N_of_ascii "Z") with 90%N.
    change (N_of_ascii "a") with 97%N. change (N_of_ascii "z") with 122%N.
    assert (Hdash : c = "-"%char <-> N_of_ascii c = 45%N).
    { split; [intros ->; reflexivity|].
      intros Hc. rewrite <- (ascii_N_embedding c), Hc. reflexivity. }
    rewrite Hdash. reflexivity. }
  split; intros [Hne Hall]; (split; [exact Hne|]); intros c Hc; apply Hchar, Hall, Hc.
Qed.

(** X7: a status name is valid exactly when it is not empty and holds no
    double quote. *)
Theorem isValidStatusName_characterised (name : string) :
  isValidStatusName name = true <->
  name <> "" /\ forall c, In c (list_ascii_of_string name) -> N_of_ascii c <> 34%N.
Proof.
  rewrite isValidStatusName_iff. unfold validStatusName.
  split; intros [Hne Hq]; (split; [exact Hne|]).
  - intros c Hc Hcode. apply Hq.
    assert (c = "034"%char) as <-; [|exact Hc].
    rewrite <- (ascii_N_embedding c), Hcode. reflexivity.
  - intros Hin. exact (Hq _ Hin eq_refl).
Qed.

Lemma append_assoc (a b c : string) : (a +:+ b) +:+ c = a +:+ (b +:+ c).
Proof.
  induction a as [|x a IH]; [reflexivity|].
  change (String x ((a +:+ b) +:+ c) = String x (a +:+ (b +:+ c))). f_equal. exact IH.
Qed.

Lemma strings_Join_cons (sep a : string) (l : list string) :
  strings_Join (a :: l) sep = a +:+ String.concat "" (map (fun x => sep +:+ x) l).
Proof.
  unfold strings_Join. revert a. induction l as [|b l IH]; intros a.
  - simpl. rewrite append_nil_r. reflexivity.
  - change (String.concat sep (a :: b :: l)) with (a +:+ sep +:+ String.concat sep (b :: l)).
    rewrite IH.
    destruct l as [|c l].
    + simpl. rewrite !append_nil_r. reflexivity.
    + change (String.concat "" (map (fun x => sep +:+ x) (b :: c :: l)))
        with ((sep +:+ b) +:+ "" +:+ String.concat "" (map (fun x => sep +:+ x) (c :: l))).
      change ("" +:+ ?s) with s.
      rewrite append_assoc. reflexivity.
Qed.

Lemma concat_empty_cons (x : string) (xs : list string) :
  String.concat "" (x :: xs) = x +:+ String.concat "" xs.
Proof.
  destruct xs as [|y xs]; [simpl; rewrite append_nil_r; reflexivity | reflexivity].
Qed.

Lemma completeQuery_form `{GoQuote} (ands : list string) :
  completeQuery ands = strings_Join ands " AND " +:+ " ORDER BY updatedDate DESC".
Proof. unfold completeQuery, fmt_Sprintf. simpl. reflexivity. Qed.

(** X8: the query is [project = <key> AND statusCategory != Done], then
    the label clauses, then [ORDER BY updatedDate DESC].  With
    [exemptLabels] set there is the one clause that excludes them, and
    [onlyLabels] is not looked at; otherwise there is a clause
    [labels = l] for each of [onlyLabels], and none when both are empty. *)
Theorem EligibleIssuesQuery_form `{GoQuote} (c : Config) :
  EligibleIssuesQuery c =
  ("project = " +:+ c.(Project) +:+ " AND statusCategory != Done" +:+
   match c.(ExemptLabels) with
   | _ :: _ =>
       " AND (labels not in (" +:+ strings_Join c.(ExemptLabels) "," +:+
       ") OR labels is EMPTY)"
   | [] => String.concat "" (map (fun l => " AND labels = " +:+ l) c.(OnlyLabels))
   end) +:+ " ORDER BY updatedDate DESC".
Proof.
  unfold EligibleIssuesQuery. rewrite completeQuery_form. f_equal.
  assert (Hproject : fmt_Sprintf "project = %s" [VString (Project c)]
                     = "project = " +:+ Project c).
  { unfold fmt_Sprintf. simpl. rewrite (append_nil_r (Project c)). reflexivity. }
  assert (Hstatus : fmt_Sprintf "statusCategory != Done" [] = "statusCategory != Done")
    by reflexivity.
  rewrite Hproject, Hstatus.
  cbn [app]. rewrite strings_Join_cons. cbn [map]. rewrite concat_empty_cons.
  rewrite (append_assoc "project = "). do 2 f_equal.
  f_equal.
  destruct (ExemptLabels c) as [|x xs] eqn:Hexempt.
  - rewrite exemptOrOnlyLabels_only by exact Hexempt.
    rewrite map_map. f_equal. apply map_ext. intros l.
    rewrite Sprintf_label_clause. reflexivity.
  - unfold exemptOrOnlyLabels. rewrite Hexempt.
    rewrite (proj2 (len_pos_iff (x :: xs))) by discriminate.
    cbn [app map]. rewrite concat_empty_cons. cbn [String.concat].
    rewrite append_nil_r.
    unfold fmt_Sprintf. simpl.
    reflexivity.
Qed.

Lemma Validate_ok_iff (c : Config) :
  Validate c = None <-> c.(JiraBaseURL) <> "" /\ statedInvariants c.
Proof.
  rewrite <- no_violations_iff, Validate_violations, newAggregateError_all.
  destruct (violations c) as [|e1 [|e2 errs]]; split; trivial; discriminate.
Qed.

(** X9: [LoadConfig] returns a configuration or an error, never both and
    never neither; a configuration it returns has its defaults filled in
    and passes [Validate]: it has a base URL, keeps the stated invariants,
    and its day counts and limit are positive. *)
Theorem LoadConfig_valid_or_error `{GoQuote} `{GoText} {W} (os : OS W)
    (configFile : string) (w : W) :
  match result_of (LoadConfig os configFile w) with
  | (Some c, None) =>
      Validate c = None /\ setDefaults c = c /\
      c.(JiraBaseURL) <> "" /\ statedInvariants c /\
      0 < c.(DaysUntilStale) /\ 0 < c.(DaysUntilClose) /\ 0 < c.(LimitPerRun)
  | (None, Some _) => True
  | _ => False
  end.
Proof.
  unfold LoadConfig, bind, quiet, ret, result_of.
  destruct (os_ReadFile os configFile w) as [[configData [err|]] w1]; cbn [fst snd];
    [exact I|].
  destruct (yaml_Unmarshal configData zeroConfig) as [c [err|]]; cbn [fst snd];
    [exact I|].
  destruct (Validate (setDefaults c)) as [err|] eqn:Hvalid; cbn [fst snd]; [exact I|].
  destruct (setDefaults_set c) as (H1 & H2 & H3 & H4 & H5 & H6).
  pose proof (proj1 (Validate_ok_iff _) Hvalid) as [Hurl Hinv].
  apply Z.leb_gt in H2, H3, H4.
  repeat split; try assumption; try apply Hinv.
  apply setDefaults_idempotent.
Qed.

(** X10: when the environment variable JIRA_STALEBOT_PAT is set, the token
    is its value as it is, not trimmed and possibly empty, and neither the
    configuration directory nor a file is consulted. *)
Theorem LoadPersonalAccessToken_env_first `{GoText} {W} (os : OS W) (w w1 : W)
    (pat : string) :
  os_LookupEnv os patEnvVar w = ((pat, true), w1) ->
  LoadPersonalAccessToken os w = ((pat, None), w1, []).
Proof.
  intros Henv. unfold LoadPersonalAccessToken, bind, quiet, ret.
  rewrite Henv. reflexivity.
Qed.

Lemma LoadPersonalAccessToken_env_first_witness :
  os_LookupEnv Sample.osWithToken patEnvVar tt = (("token-from-env ", true), tt) /\
  @LoadPersonalAccessToken Sample.text unit Sample.osWithToken tt
  = (("token-from-env ", None), tt, []).
Proof.
  split; [reflexivity|].
  exact (@LoadPersonalAccessToken_env_first Sample.text unit Sample.osWithToken tt tt
           "token-from-env " eq_refl).
Defined.

(** ** operations.go *)

(** X11: of the changelog only the last entry counts: whatever entries
    come before it, the test and the operation are those of the issue with
    that entry alone; with no entry at all, or no changelog, the test is
    false. *)
Theorem lastUpdateAddedStaleLabel_only_last (c : Config) (now : Time) (i : Issue)
    (earlier : list ChangelogHistory) (lastUpdate : ChangelogHistory) (staleLabel : string) :
  lastUpdateAddedStaleLabel (withHistories (earlier ++ [lastUpdate]) i) staleLabel =
  lastUpdateAddedStaleLabel (withHistories [lastUpdate] i) staleLabel /\
  IssueOperation c now (withHistories (earlier ++ [lastUpdate]) i) =
  IssueOperation c now (withHistories [lastUpdate] i) /\
  lastUpdateAddedStaleLabel (withHistories [] i) staleLabel = false /\
  (i.(Issue_Changelog) = None -> lastUpdateAddedStaleLabel i staleLabel = false).
Proof.
  assert (Hlast : forall s,
             lastUpdateAddedStaleLabel (withHistories (earlier ++ [lastUpdate]) i) s =
             lastUpdateAddedStaleLabel (withHistories [lastUpdate] i) s).
  { intros s. unfold lastUpdateAddedStaleLabel, withHistories.
    cbn [Issue_Changelog Histories]. rewrite last_snoc. reflexivity. }
  split; [apply Hlast|]. split; [|split].
  - unfold IssueOperation, stalenessLifecycle.
    cbn [withHistories Issue_Fields]. rewrite Hlast. reflexivity.
  - reflexivity.
  - intros Hnil. unfold lastUpdateAddedStaleLabel. rewrite Hnil. reflexivity.
Qed.

Lemma prefix_space (c : ascii) (s : string) :
  String.prefix " " (String c s) = Ascii.eqb c " ".
Proof.
  change (String.prefix " " (String c s))
    with (if ascii_dec " " c then String.prefix "" s else false).
  destruct (ascii_dec " " c) as [<- | Hne].
  - destruct s; reflexivity.
  - symmetry. apply Ascii.eqb_neq. congruence.
Qed.

Lemma Split_from_noSpace (s cur : string) :
  noSpace s -> strings_Split_from " " 0 cur s = [cur +:+ s].
Proof.
  revert cur. induction s as [|c s IH]; intros cur Hs.
  - simpl. rewrite append_nil_r. reflexivity.
  - cbn [strings_Split_from]. rewrite prefix_space.
    destruct (Ascii.eqb_spec c " ") as [-> | Hc].
    + exfalso. apply Hs. left. reflexivity.
    + rewrite IH by (intros Hin; apply Hs; right; exact Hin).
      rewrite append_assoc. reflexivity.
Qed.

Lemma Split_from_space (s t cur : string) :
  noSpace s ->
  strings_Split_from " " 0 cur (s +:+ String " " t) =
  (cur +:+ s) :: strings_Split_from " " 0 "" t.
Proof.
  revert cur. induction s as [|c s IH]; intros cur Hs.
  - change ("" +:+ String " " t) with (String " " t).
    cbn [strings_Split_from]. rewrite prefix_space. simpl.
    rewrite append_nil_r. reflexivity.
  - change (String c s +:+ String " " t) with (String c (s +:+ String " " t)).
    cbn [strings_Split_from]. rewrite prefix_space.
    destruct (Ascii.eqb_spec c " ") as [-> | Hc].
    + exfalso. apply Hs. left. reflexivity.
    + rewrite IH by (intros Hin; apply Hs; right; exact Hin).
      rewrite append_assoc. reflexivity.
Qed.

(** Cutting at the spaces gives back the labels that were joined by
    spaces. *)
Lemma tokens_Join (l : string) (ls : list string) :
  Forall noSpace (l :: ls) -> tokens (strings_Join (l :: ls) " ") = l :: ls.
Proof.
  unfold tokens, strings_Split, strings_Join.
  revert l. induction ls as [|l' ls IH]; intros l Hall.
  - simpl. apply Split_from_noSpace. inversion Hall; assumption.
  - change (String.concat " " (l :: l' :: ls))
      with (l +:+ String " " (String.concat " " (l' :: ls))).
    inversion Hall as [|? ? Hl Hrest]; subst.
    rewrite Split_from_space by exact Hl.
    rewrite IH by exact Hrest. reflexivity.
Qed.

Lemma In_tokens_Join (staleLabel : string) (ls : list string) :
  staleLabel <> "" -> Forall noSpace ls ->
  In staleLabel (tokens (strings_Join ls " ")) <-> In staleLabel ls.
Proof.
  intros Hne Hall. destruct ls as [|l ls].
  - simpl. split; [intros [Heq | []]; congruence | intros []].
  - rewrite tokens_Join by exact Hall. reflexivity.
Qed.

(** X12: when the last changelog entry is one change of the field
    [labels] whose two sides are the old and the new labels joined by
    spaces, as Jira writes them, the test is true exactly when the stale
    label is not among the old labels and is among the new ones (an empty
    side being no label at all). *)
Theorem lastUpdateAddedStaleLabel_label_lists (i : Issue) (earlier : list ChangelogHistory)
    (old new : list string) (staleLabel : string) :
  staleLabel <> "" ->
  Forall noSpace old ->
  Forall noSpace new ->
  lastUpdateAddedStaleLabel
    (withHistories
       (earlier ++ [ {| History_Items :=
                          [ {| Item_Field := "labels";
                               Item_FromString := strings_Join old " ";
                               Item_ToString := strings_Join new " " |} ] |} ]) i)
    staleLabel = true
  <-> ~ In staleLabel old /\ In staleLabel new.
Proof.
  intros Hne Hold Hnew.
  unfold lastUpdateAddedStaleLabel, withHistories.
  cbn [Issue_Changelog Histories]. rewrite last_snoc.
  cbn [History_Items existsb Item_Field Item_FromString Item_ToString].
  rewrite orb_false_r. change (String.eqb "labels" "labels") with true. cbn [andb].
  rewrite andb_true_iff, negb_true_iff.
  rewrite sets_Has_NewString_false, sets_Has_NewString.
  change (strings_Split ?s " ") with (tokens s).
  rewrite (In_tokens_Join _ _ Hne Hold), (In_tokens_Join _ _ Hne Hnew). reflexivity.
Qed.

Lemma lastUpdateAddedStaleLabel_label_lists_witness :
  (lastUpdateAddedStaleLabel
     (withHistories
        ([Sample.otherLabelChange] ++
         [ {| History_Items :=
                [ {| Item_Field := "labels";
                     Item_FromString := strings_Join ["bug"; "triaged"] " ";
                     Item_ToString := strings_Join ["bug"; "lifecycle-stale"; "triaged"] " " |} ] |} ])
        Sample.markedLongAgo)
     "lifecycle-stale" = true
   <-> ~ In "lifecycle-stale" ["bug"; "triaged"] /\
       In "lifecycle-stale" ["bug"; "lifecycle-stale"; "triaged"]).
Proof.
  apply (lastUpdateAddedStaleLabel_label_lists Sample.markedLongAgo [Sample.otherLabelChange]
           ["bug"; "triaged"] ["bug"; "lifecycle-stale"; "triaged"] "lifecycle-stale").
  - discriminate.
  - repeat constructor; unfold noSpace; simpl; intuition discriminate.
  - repeat constructor; unfold noSpace; simpl; intuition discriminate.
Defined.

Lemma IssueOperation_cases (c : Config) (now : Time) (i : Issue) :
  IssueOperation c now i = OpNone \/
  (eligible c i /\
   IssueOperation c now i =
   stalenessLifecycle c now i (sets_NewString i.(Issue_Fields).(Fields_Labels))).
Proof.
  unfold IssueOperation.
  destruct (String.eqb _ StatusCategoryComplete) eqn:Es; [left; reflexivity|].
  pose proof (excludedByLabels_guard c i) as Hguard.
  assert (Hstatus : ~ statusComplete i).
  { intros Hdone. apply statusComplete_eqb in Hdone. congruence. }
  destruct (0 <? len (ExemptLabels c)).
  - destruct (sets_HasAny _ _); [left; reflexivity|].
    right. split; [|reflexivity]. split; [exact Hstatus|].
    intros Hex. apply Hguard in Hex. discriminate.
  - destruct (sets_HasAll _ _); [left; reflexivity|].
    right. split; [|reflexivity]. split; [exact Hstatus|].
    intros Hex. apply Hguard in Hex. discriminate.
Qed.

(** X13: what the evaluator never does.  An operation other than [None]
    is only given to an eligible issue; [AddStaleLabel] only to one
    without the stale label; [Close] only to one that bears it and whose
    last changelog entry added it; [RemoveStaleLabel] only to one that
    bears it and whose last entry did not add it. *)
Theorem IssueOperation_sound (c : Config) (now : Time) (i : Issue) (op : Operation) :
  IssueOperation c now i = op ->
  op <> OpNone ->
  eligible c i /\
  match op with
  | OpNone => True
  | AddStaleLabel => ~ hasLabel i c.(StaleLabel)
  | Close => hasLabel i c.(StaleLabel) /\ lastEntryAdded i c.(StaleLabel)
  | RemoveStaleLabel => hasLabel i c.(StaleLabel) /\ ~ lastEntryAdded i c.(StaleLabel)
  end.
Proof.
  intros Hop Hsome.
  destruct (IssueOperation_cases c now i) as [Hnone | [Hel Hlife]]; [congruence|].
  split; [exact Hel|].
  rewrite Hlife in Hop.
  unfold stalenessLifecycle in Hop.
  destruct (sets_Has _ (StaleLabel c)) eqn:Ehas; cbn [negb] in Hop.
  - apply sets_Has_NewString in Ehas.
    destruct (lastUpdateAddedStaleLabel i (StaleLabel c)) eqn:Elast.
    + apply lastUpdateAddedStaleLabel_true in Elast.
      destruct (Time_After _ _); subst op; [congruence | split; assumption].
    + apply lastUpdateAddedStaleLabel_false in Elast. subst op. split; assumption.
  - apply sets_Has_NewString_false in Ehas.
    destruct (Time_After _ _); subst op; [congruence | exact Ehas].
Qed.

Lemma IssueOperation_sound_witness :
  IssueOperation Sample.cfgExempt Sample.now Sample.markedLongAgo = Close /\
  Close <> OpNone /\
  eligible Sample.cfgExempt Sample.markedLongAgo /\
  hasLabel Sample.markedLongAgo Sample.cfgExempt.(StaleLabel) /\
  lastEntryAdded Sample.markedLongAgo Sample.cfgExempt.(StaleLabel).
Proof.
  split; [reflexivity|]. split; [discriminate|].
  apply (IssueOperation_sound Sample.cfgExempt Sample.now Sample.markedLongAgo Close);
    [reflexivity | discriminate].
Defined.

(** X14: for a number of days whose span fits a [time.Duration], an
    eligible issue without the stale label is marked exactly when at least
    [daysUntilStale] days have passed since its last update, and is left
    alone otherwise. *)
Theorem IssueOperation_marks_after_days (c : Config) (now : Time) (i : Issue) :
  eligible c i ->
  ~ hasLabel i c.(StaleLabel) ->
  daysFitDuration c.(DaysUntilStale) ->
  IssueOperation c now i =
  if i.(Issue_Fields).(Fields_Updated) + nanosecondsOfDays c.(DaysUntilStale) <=? now
  then AddStaleLabel else OpNone.
Proof.
  intros Hel Hno Hfit.
  rewrite (IssueOperation_eligible _ _ _ Hel), (stalenessLifecycle_unmarked _ _ _ Hno).
  unfold Time_After, Time_Add. rewrite (daysAgo_fits _ Hfit).
  destruct (_ <? _) eqn:Ea, (_ <=? _) eqn:Eb; trivial.
  - apply Z.ltb_lt in Ea. apply Z.leb_le in Eb. lia.
  - apply Z.ltb_ge in Ea. apply Z.leb_gt in Eb. lia.
Qed.

Lemma IssueOperation_marks_after_days_witness :
  eligible Sample.cfgExempt Sample.staleCandidate /\
  ~ hasLabel Sample.staleCandidate Sample.cfgExempt.(StaleLabel) /\
  daysFitDuration Sample.cfgExempt.(DaysUntilStale) /\
  IssueOperation Sample.cfgExempt Sample.now Sample.staleCandidate = AddStaleLabel.
Proof.
  assert (Hel : eligible Sample.cfgExempt Sample.staleCandidate).
  { apply Sample_eligible; [discriminate|]. intros l _ []. }
  assert (Hno : ~ hasLabel Sample.staleCandidate Sample.cfgExempt.(StaleLabel)).
  { intros []. }
  assert (Hfit : daysFitDuration Sample.cfgExempt.(DaysUntilStale)).
  { unfold daysFitDuration. simpl. lia. }
  split; [exact Hel|]. split; [exact Hno|]. split; [exact Hfit|].
  exact (IssueOperation_marks_after_days Sample.cfgExempt Sample.now Sample.staleCandidate
           Hel Hno Hfit).
Defined.

(** X15: for a number of days whose span fits a [time.Duration], an
    eligible issue that bears the stale label and whose last changelog
    entry added it is closed exactly when at least [daysUntilClose] days
    have passed since its last update, and is left alone otherwise. *)
Theorem IssueOperation_closes_after_days (c : Config) (now : Time) (i : Issue) :
  eligible c i ->
  hasLabel i c.(StaleLabel) ->
  lastEntryAdded i c.(StaleLabel) ->
  daysFitDuration c.(DaysUntilClose) ->
  IssueOperation c now i =
  if i.(Issue_Fields).(Fields_Updated) + nanosecondsOfDays c.(DaysUntilClose) <=? now
  then Close else OpNone.
Proof.
  intros Hel Hhas Hlast Hfit.
  rewrite (IssueOperation_eligible _ _ _ Hel), (stalenessLifecycle_marked _ _ _ Hhas).
  rewrite (proj2 (lastUpdateAddedStaleLabel_true _ _) Hlast).
  unfold Time_After, Time_Add. rewrite (daysAgo_fits _ Hfit).
  destruct (_ <? _) eqn:Ea, (_ <=? _) eqn:Eb; trivial.
  - apply Z.ltb_lt in Ea. apply Z.leb_le in Eb. lia.
  - apply Z.ltb_ge in Ea. apply Z.leb_gt in Eb. lia.
Qed.

Lemma IssueOperation_closes_after_days_witness :
  eligible Sample.cfgExempt Sample.markedLongAgo /\
  hasLabel Sample.markedLongAgo Sample.cfgExempt.(StaleLabel) /\
  lastEntryAdded Sample.markedLongAgo Sample.cfgExempt.(StaleLabel) /\
  daysFitDuration Sample.cfgExempt.(DaysUntilClose) /\
  IssueOperation Sample.cfgExempt Sample.now Sample.markedLongAgo = Close.
Proof.
  assert (Hel : eligible Sample.cfgExempt Sample.markedLongAgo).
  { apply Sample_eligible; [discriminate|].
    intros l Hl [Hi | []]. subst l. simpl in Hl. intuition discriminate. }
  assert (Hhas : hasLabel Sample.markedLongAgo Sample.cfgExempt.(StaleLabel)).
  { left. reflexivity. }
  assert (Hlast : lastEntryAdded Sample.markedLongAgo Sample.cfgExempt.(StaleLabel)).
  { apply lastUpdateAddedStaleLabel_true. reflexivity. }
  assert (Hfit : daysFitDuration Sample.cfgExempt.(DaysUntilClose)).
  { unfold daysFitDuration. simpl. lia. }
  split; [exact Hel|]. split; [exact Hhas|]. split; [exact Hlast|]. split; [exact Hfit|].
  exact (IssueOperation_closes_after_days Sample.cfgExempt Sample.now Sample.markedLongAgo
           Hel Hhas Hlast Hfit).
Defined.

(** X16: waiting never takes an operation back.  If the evaluator marks
    an issue at some time it marks it at every later time, and likewise if
    it closes it or unmarks it (the issue and the configuration being the
    same), whatever the configured numbers of days are. *)
Theorem IssueOperation_persists (c : Config) (now later : Time) (i : Issue) :
  now <= later ->
  IssueOperation c now i <> OpNone ->
  IssueOperation c later i = IssueOperation c now i.
Proof.
  intros Hle Hsome.
  destruct (IssueOperation_cases c now i) as [Hnone | [Hel Hlife]]; [congruence|].
  rewrite Hlife in *. rewrite (IssueOperation_eligible c later i Hel).
  unfold stalenessLifecycle in *.
  destruct (negb (sets_Has _ (StaleLabel c))).
  - unfold Time_After, Time_Add in *.
    destruct (now + _ <? _) eqn:Ea; [congruence|].
    apply Z.ltb_ge in Ea.
    rewrite (proj2 (Z.ltb_ge _ _)) by lia. reflexivity.
  - destruct (lastUpdateAddedStaleLabel i (StaleLabel c)); [|reflexivity].
    unfold Time_After, Time_Add in *.
    destruct (now + _ <? _) eqn:Ea; [congruence|].
    apply Z.ltb_ge in Ea.
    rewrite (proj2 (Z.ltb_ge _ _)) by lia. reflexivity.
Qed.

Lemma IssueOperation_persists_witness :
  Sample.now <= Sample.now + 5 * time_Hour /\
  IssueOperation Sample.cfgExempt Sample.now Sample.staleCandidate <> OpNone /\
  IssueOperation Sample.cfgExempt (Sample.now + 5 * time_Hour) Sample.staleCandidate =
  IssueOperation Sample.cfgExempt Sample.now Sample.staleCandidate.
Proof.
  assert (Hle : Sample.now <= Sample.now + 5 * time_Hour) by (vm_compute; discriminate).
  assert (Hsome : IssueOperation Sample.cfgExempt Sample.now Sample.staleCandidate <> OpNone)
    by (vm_compute; discriminate).
  split; [exact Hle|]. split; [exact Hsome|].
  exact (IssueOperation_persists Sample.cfgExempt Sample.now (Sample.now + 5 * time_Hour)
           Sample.staleCandidate Hle Hsome).
Defined.

(** ** stalebot.go *)

(** X17: with a configuration that does not pass [Validate], [Run] returns
    the error at once: nothing is searched, nothing logged, and the world
    is as it was. *)
Theorem Run_invalid_config {W} `{GoQuote} (host : Host W) (fuel : nat) (bot : Stalebot W)
    (w : W) (err : error) :
  Validate (bot_Config bot) = Some err ->
  Run host fuel bot w =
  (Some (Some (Errorf "invalid stalebot config: %v" [ArgError err])), w, []).
Proof. intros Hinvalid. unfold Run. rewrite Hinvalid. reflexivity. Qed.

Lemma Run_invalid_config_witness :
  Validate Sample.cfgNoURL = Some (Errorf "config must specify `jiraBaseURL`" []) /\
  @Run unit Sample.quote Sample.host 3 (Sample.bot Sample.cfgNoURL Sample.manyStale) tt =
  (Some (Some (Errorf "invalid stalebot config: %v"
                 [ArgError (Errorf "config must specify `jiraBaseURL`" [])])), tt, []).
Proof.
  split; [reflexivity|].
  exact (@Run_invalid_config unit Sample.quote Sample.host 3
           (Sample.bot Sample.cfgNoURL Sample.manyStale) tt _ eq_refl).
Defined.

Lemma filter_isChange_app (t1 t2 : list Event) :
  List.filter isChange (t1 ++ t2) = List.filter isChange t1 ++ List.filter isChange t2.
Proof. apply List.filter_app. Qed.

(** The body of the loop changes nothing when the bot runs dry, or when it
    prompts and the prompt is declined. *)
Lemma processIssue_holds_back {W} (host : Host W) (bot : Stalebot W) (op : Operation)
    (issue : Issue) (w : W) :
  bot_DryRun bot = true \/
  (bot_Prompt bot = true /\
   forall op issue w, fst (promptToConfirm host op issue w) = (false, None)) ->
  List.filter isChange (trace_of (processIssue host bot op issue w)) = [].
Proof.
  intros Hheld. unfold processIssue.
  destruct (decide (op = OpNone)); [reflexivity|].
  unfold confirm, bind, call, ret, Logger_Info, emit, trace_of.
  destruct Hheld as [Hdry | [Hprompt Hdeclined]].
  - rewrite Hdry. destruct (bot_Prompt bot); [|reflexivity].
    destruct (promptToConfirm host op issue w) as [[[|] [err|]] w1]; reflexivity.
  - rewrite Hprompt. specialize (Hdeclined op issue w).
    destruct (promptToConfirm host op issue w) as [[confirmed err] w1].
    cbn [fst] in Hdeclined. injection Hdeclined as -> ->. reflexivity.
Qed.

Lemma processChunk_holds_back {W} (host : Host W) (bot : Stalebot W) (now : Time)
    (chunk : list Issue) (opCounts : gmap Operation Z) (w : W) :
  bot_DryRun bot = true \/
  (bot_Prompt bot = true /\
   forall op issue w, fst (promptToConfirm host op issue w) = (false, None)) ->
  List.filter isChange (trace_of (processChunk host bot now chunk opCounts w)) = [].
Proof.
  intros Hheld. revert opCounts w.
  induction chunk as [|issue rest IH]; intros opCounts w; [reflexivity|].
  cbn [processChunk]. rewrite trace_bind, filter_isChange_app.
  rewrite (processIssue_holds_back host bot _ issue w Hheld).
  destruct (result_of _); [reflexivity | apply IH].
Qed.

Lemma searchLoop_holds_back {W} (host : Host W) (fuel : nat) (bot : Stalebot W)
    (query : string) (now : Time) (last processed : Z) (opCounts : gmap Operation Z) (w : W) :
  bot_DryRun bot = true \/
  (bot_Prompt bot = true /\
   forall op issue w, fst (promptToConfirm host op issue w) = (false, None)) ->
  List.filter isChange
    (trace_of (searchLoop host fuel bot query now last processed opCounts w)) = [].
Proof.
  intros Hheld. revert last processed opCounts w.
  induction fuel as [|fuel IH]; intros last processed opCounts w; [reflexivity|].
  cbn [searchLoop]. rewrite trace_bind, filter_isChange_app.
  unfold Client_Search at 1. rewrite trace_call. cbn [List.filter isChange app].
  destruct (result_of _) as [[chunk resp] [err|]]; [reflexivity|].
  rewrite trace_bind, filter_isChange_app.
  rewrite (processChunk_holds_back host bot now chunk opCounts _ Hheld).
  destruct (result_of _) as [opCounts' [err|]]; [reflexivity|].
  destruct (Resp_Total resp <=? _); [reflexivity | apply IH].
Qed.

Lemma Run_holds_back {W} `{GoQuote} (host : Host W) (fuel : nat) (bot : Stalebot W) (w : W) :
  bot_DryRun bot = true \/
  (bot_Prompt bot = true /\
   forall op issue w, fst (promptToConfirm host op issue w) = (false, None)) ->
  List.filter isChange (trace_of (Run host fuel bot w)) = [].
Proof.
  intros Hheld. rewrite Run_trace.
  destruct (Validate (bot_Config bot)); [reflexivity|].
  change (?e :: ?t ++ ?u) with ([e] ++ t ++ u).
  rewrite !filter_isChange_app, (searchLoop_holds_back _ _ _ _ _ _ _ _ _ Hheld).
  destruct (result_of _); reflexivity.
Qed.

(** X18: a dry run changes nothing: whatever the server answers and
    whatever is typed at the prompts, no comment is posted, no issue
    updated and no transition executed. *)
Theorem Run_dry_run_changes_nothing {W} `{GoQuote} (host : Host W) (fuel : nat)
    (bot : Stalebot W) (w : W) :
  bot_DryRun bot = true ->
  List.filter isChange (trace_of (Run host fuel bot w)) = [].
Proof. intros Hdry. apply Run_holds_back. left. exact Hdry. Qed.

Lemma Run_dry_run_changes_nothing_witness :
  bot_DryRun (Sample.botWith (Sample.server Sample.manyStale Sample.transitions)
                Sample.cfgExempt true false) = true /\
  List.filter isChange
    (trace_of (@Run unit Sample.quote Sample.host 2
                 (Sample.botWith (Sample.server Sample.manyStale Sample.transitions)
                    Sample.cfgExempt true false) tt)) = [].
Proof.
  split; [reflexivity|].
  exact (@Run_dry_run_changes_nothing unit Sample.quote Sample.host 2
           (Sample.botWith (Sample.server Sample.manyStale Sample.transitions)
              Sample.cfgExempt true false) tt eq_refl).
Defined.

(** X19: when the bot prompts and every operation is declined, a run
    changes nothing, and no declined issue makes it fail. *)
Theorem Run_declined_changes_nothing {W} `{GoQuote} (host : Host W) (fuel : nat)
    (bot : Stalebot W) (w : W) :
  bot_Prompt bot = true ->
  (forall op issue w, fst (promptToConfirm host op issue w) = (false, None)) ->
  List.filter isChange (trace_of (Run host fuel bot w)) = [] /\
  forall now chunk opCounts w',
    snd (result_of (processChunk host bot now chunk opCounts w')) = None.
Proof.
  intros Hprompt Hdeclined. split.
  - apply Run_holds_back. right. split; assumption.
  - intros now chunk. induction chunk as [|issue rest IH]; intros opCounts w'; [reflexivity|].
    cbn [processChunk]. unfold bind, result_of.
    assert (Hnone : result_of (processIssue host bot
                                 (IssueOperation (bot_Config bot) now issue) issue w') = None).
    { unfold processIssue. destruct (decide _); [reflexivity|].
      unfold confirm, bind, call, ret, result_of. rewrite Hprompt.
      specialize (Hdeclined (IssueOperation (bot_Config bot) now issue) issue w').
      destruct (promptToConfirm host _ issue w') as [[confirmed err] w1].
      cbn [fst] in Hdeclined. injection Hdeclined as -> ->. reflexivity. }
    unfold result_of in Hnone.
    destruct (processIssue host bot _ issue w') as [[r w1] t1]. cbn [fst] in Hnone. subst r.
    specialize (IH (<[IssueOperation (bot_Config bot) now issue :=
                       int64_add (opCount opCounts (IssueOperation (bot_Config bot) now issue)) 1]>
                     opCounts) w1).
    unfold result_of in IH.
    destruct (processChunk host bot now rest _ w1) as [[r2 w2] t2]. exact IH.
Qed.

Lemma Run_declined_changes_nothing_witness :
  bot_Prompt (Sample.botWith (Sample.server Sample.manyStale Sample.transitions)
                Sample.cfgExempt false true) = true /\
  List.filter isChange
    (trace_of (@Run unit Sample.quote Sample.decliningHost 2
                 (Sample.botWith (Sample.server Sample.manyStale Sample.transitions)
                    Sample.cfgExempt false true) tt)) = [].
Proof.
  split; [reflexivity|].
  exact (proj1 (@Run_declined_changes_nothing unit Sample.quote Sample.decliningHost 2
                  (Sample.botWith (Sample.server Sample.manyStale Sample.transitions)
                     Sample.cfgExempt false true) tt eq_refl
                  (fun _ _ _ => eq_refl))).
Defined.

(** X20: the loop over a page stops at the first issue whose operation
    fails: when the issues before it went through and its own operation
    returns an error, the loop returns that error with the events so far,
    and the issues after it are not evaluated, counted or touched. *)
Theorem processChunk_stops_at_failure {W} (host : Host W) (bot : Stalebot W) (now : Time)
    (before after : list Issue) (issue : Issue) (opCounts opCounts1 : gmap Operation Z)
    (w w1 w2 : W) (t1 t2 : list Event) (err : error) :
  processChunk host bot now before opCounts w = ((opCounts1, None), w1, t1) ->
  processIssue host bot (IssueOperation (bot_Config bot) now issue) issue w1
  = (Some err, w2, t2) ->
  processChunk host bot now (before ++ issue :: after) opCounts w =
  ((<[IssueOperation (bot_Config bot) now issue :=
        int64_add (opCount opCounts1 (IssueOperation (bot_Config bot) now issue)) 1]> opCounts1,
    Some err), w2, t1 ++ t2).
Proof.
  revert opCounts w t1.
  induction before as [|b before IH]; intros opCounts w t1 Hbefore Hissue.
  - cbn [processChunk] in Hbefore. unfold ret in Hbefore.
    injection Hbefore as -> -> <-.
    cbn [app processChunk]. unfold bind, ret. rewrite Hissue. rewrite app_nil_r. reflexivity.
  - cbn [app processChunk] in *. unfold bind in *.
    destruct (processIssue host bot _ b w) as [[[e|] wb] tb].
    + unfold ret in Hbefore. discriminate Hbefore.
    + destruct (processChunk host bot now before _ wb) as [[rb wb'] tb'] eqn:Hrest.
      injection Hbefore as -> -> <-.
      rewrite (IH _ _ _ Hrest Hissue). rewrite <- app_assoc. reflexivity.
Qed.

Lemma processChunk_stops_at_failure_witness :
  exists opCounts' t,
    processChunk Sample.host
      (Sample.botWith (Sample.serverRefusingUpdates []) Sample.cfgExempt false false)
      Sample.now
      ([Sample.doneWithStaleLabel] ++ Sample.staleCandidate :: Sample.manyStale) ∅ tt
    = ((opCounts', Some (Errorf "operation %q failed on issue %q: %v"
                           [ArgString "AddStaleLabel"; ArgString "TEST-100";
                            ArgError (Errorf "add stale label %q to issue: %v"
                                        [ArgString "lifecycle-stale";
                                         ArgError Sample.failure])])), tt, t) /\
    dispatched t = 1%nat.
Proof.
  eexists. eexists. split.
  - eapply (processChunk_stops_at_failure Sample.host
              (Sample.botWith (Sample.serverRefusingUpdates []) Sample.cfgExempt false false)
              Sample.now
              [Sample.doneWithStaleLabel] Sample.manyStale Sample.staleCandidate ∅).
    + reflexivity.
    + reflexivity.
  - reflexivity.
Defined.

(** X21: [transitionID] succeeds exactly when a transition leads to the
    status, and then gives the ID of the first such transition of the
    list; otherwise it gives the empty ID and the error that no transition
    was found. *)
Theorem transitionID_first_match (transitions : list Transition) (statusName : string) :
  match transitionID transitions statusName with
  | (tID, None) =>
      exists before t after,
        transitions = before ++ t :: after /\
        t.(Transition_To).(To_Name) = statusName /\
        t.(Transition_ID) = tID /\
        forall t', In t' before -> t'.(Transition_To).(To_Name) <> statusName
  | (tID, Some err) =>
      tID = "" /\
      err = Errorf "no transition found to status %q" [ArgString statusName] /\
      forall t, In t transitions -> t.(Transition_To).(To_Name) <> statusName
  end.
Proof.
  rewrite transitionID_find.
  destruct (List.find _ transitions) as [t|] eqn:Hfind.
  - apply find_first in Hfind as (before & after & Heq & Hname & Hbefore).
    exists before, t, after. repeat split; trivial.
  - repeat split. intros t Hin Hname.
    pose proof (List.find_none _ _ Hfind t Hin) as Hno. cbn beta in Hno.
    apply String.eqb_neq in Hno. contradiction.
Qed.

Lemma searchLoop_empty_pages {W} (host : Host W) (fuel : nat) (bot : Stalebot W)
    (query : string) (now : Time) (last processed : Z) (opCounts : gmap Operation Z) (w : W) :
  (forall jql opt w,
      exists resp w',
        Issue_Search (bot_Client bot) jql opt w = (([], resp, None), w') /\
        int64_fits resp.(Resp_StartAt) /\ resp.(Resp_StartAt) < resp.(Resp_Total)) ->
  result_of (searchLoop host fuel bot query now last processed opCounts w) = OutOfFuel /\
  length (List.filter isSearch
            (trace_of (searchLoop host fuel bot query now last processed opCounts w))) = fuel.
Proof.
  intros Hempty. revert last processed opCounts w.
  induction fuel as [|fuel IH]; intros last processed opCounts w; [split; reflexivity|].
  cbn [searchLoop]. unfold Client_Search, bind, call, ret, result_of, trace_of.
  match goal with
  | |- context [Issue_Search (bot_Client bot) query ?opt w] =>
      destruct (Hempty query opt w) as (resp & w' & Hsearch & Hfits & Hmore);
      rewrite Hsearch
  end.
  cbn [fst snd processChunk]. unfold ret. cbn [fst snd].
  assert (Hlast : int64_add (Resp_StartAt resp) (len (@nil Issue)) = Resp_StartAt resp).
  { unfold int64_add, len. simpl. rewrite Z.add_0_r. apply int64_wrap_fits, Hfits. }
  rewrite !Hlast.
  rewrite (proj2 (Z.leb_gt _ _)) by exact Hmore.
  specialize (IH (Resp_StartAt resp) (int64_add processed (len (@nil Issue))) opCounts w').
  unfold result_of, trace_of in IH.
  destruct (searchLoop host fuel bot query now _ _ opCounts w') as [[fin w2] t2].
  cbn [fst snd] in *. destruct IH as [-> Hcount].
  split; [reflexivity|]. cbn [app List.filter isSearch length]. rewrite Hcount. reflexivity.
Qed.

(** X22: the paging loop has no bound of its own.  Against a server that
    answers every search with an empty page while it reports more issues
    than the offset, the loop asks again at the same offset for ever: [Run]
    does not return, however many pages it is given, and every page is one
    more search. *)
Theorem Run_empty_pages_never_ends {W} `{GoQuote} (host : Host W) (fuel : nat)
    (bot : Stalebot W) (w : W) :
  Validate (bot_Config bot) = None ->
  (forall jql opt w,
      exists resp w',
        Issue_Search (bot_Client bot) jql opt w = (([], resp, None), w') /\
        int64_fits resp.(Resp_StartAt) /\ resp.(Resp_StartAt) < resp.(Resp_Total)) ->
  result_of (Run host fuel bot w) = None /\
  length (List.filter isSearch (trace_of (Run host fuel bot w))) = fuel.
Proof.
  intros Hvalid Hempty.
  pose proof (searchLoop_empty_pages host fuel bot (EligibleIssuesQuery (bot_Config bot))
                (fst (time_Now host w)) 0 0 ∅ (snd (time_Now host w)) Hempty)
    as [Hfin Hcount].
  split.
  - unfold Run. rewrite Hvalid.
    unfold bind, Logger_Info, emit, ret, result_of in *. rewrite quiet_run.
    cbn [fst snd].
    destruct (searchLoop host fuel bot _ _ 0 0 ∅ _) as [[fin w1] t1].
    cbn [fst] in Hfin. subst fin. reflexivity.
  - rewrite Run_trace, Hvalid, Hfin.
    cbn [List.filter isSearch]. rewrite app_nil_r. exact Hcount.
Qed.

Lemma Run_empty_pages_never_ends_witness :
  Validate Sample.cfgExempt = None /\
  result_of (@Run unit Sample.quote Sample.host 7
               (Sample.botWith Sample.serverOfEmptyPages Sample.cfgExempt false false) tt)
  = None /\
  length (List.filter isSearch
            (trace_of (@Run unit Sample.quote Sample.host 7
                         (Sample.botWith Sample.serverOfEmptyPages Sample.cfgExempt
                            false false) tt))) = 7%nat.
Proof.
  split; [reflexivity|].
  apply (@Run_empty_pages_never_ends unit Sample.quote Sample.host 7
           (Sample.botWith Sample.serverOfEmptyPages Sample.cfgExempt false false) tt).
  - reflexivity.
  - intros jql opt [].
    exists {| Resp_StartAt := 0; Resp_Total := 5 |}, tt.
    split; [reflexivity|]. split; [unfold int64_fits; simpl; lia | simpl; lia].
Defined.

Lemma foundIssues_app (t1 t2 : list Event) :
  foundIssues (t1 ++ t2) = foundIssues t1 ++ foundIssues t2.
Proof.
  induction t1 as [|e t1 IH]; [reflexivity|].
  destruct e; cbn [app foundIssues]; try exact IH.
  rewrite IH, app_assoc. reflexivity.
Qed.

(** Only the paging loop searches. *)
Lemma processIssue_no_search {W} (host : Host W) (bot : Stalebot W) (op : Operation)
    (issue : Issue) (w : W) :
  foundIssues (trace_of (processIssue host bot op issue w)) = [].
Proof.
  unfold processIssue, confirm, dispatch, addStaleLabel, removeStaleLabel, closeIssue,
    Client_AddComment, Client_UpdateIssue, Client_GetTransitions, Client_DoTransition,
    Logger_Info, emit, bind, call, ret, trace_of.
  repeat case_match; simplify_eq; reflexivity.
Qed.

Lemma processChunk_no_search {W} (host : Host W) (bot : Stalebot W) (now : Time)
    (chunk : list Issue) (opCounts : gmap Operation Z) (w : W) :
  foundIssues (trace_of (processChunk host bot now chunk opCounts w)) = [].
Proof.
  revert opCounts w. induction chunk as [|issue rest IH]; intros opCounts w; [reflexivity|].
  cbn [processChunk]. rewrite trace_bind, foundIssues_app, processIssue_no_search.
  destruct (result_of _); [reflexivity | apply IH].
Qed.

Lemma countOp_nil (c : Config) (now : Time) (op : Operation) : countOp c now op [] = 0.
Proof. reflexivity. Qed.

Lemma countOp_cons (c : Config) (now : Time) (op : Operation) (i : Issue) (l : list Issue) :
  countOp c now op (i :: l) =
  (if bool_decide (IssueOperation c now i = op) then 1 else 0) + countOp c now op l.
Proof.
  unfold countOp, len. cbn [List.filter].
  destruct (bool_decide _); [cbn [length]; lia | lia].
Qed.

Lemma countOp_app (c : Config) (now : Time) (op : Operation) (l1 l2 : list Issue) :
  countOp c now op (l1 ++ l2) = countOp c now op l1 + countOp c now op l2.
Proof.
  unfold countOp, len. rewrite List.filter_app, length_app. lia.
Qed.

Lemma countOp_bounds (c : Config) (now : Time) (op : Operation) (l : list Issue) :
  0 <= countOp c now op l <= len l.
Proof.
  unfold countOp, len. pose proof (List.filter_length_le
    (fun i => bool_decide (IssueOperation c now i = op)) l). lia.
Qed.

Lemma opCount_insert (opCounts : gmap Operation Z) (op op' : Operation) (n : Z) :
  opCount (<[op := n]> opCounts) op' = if decide (op = op') then n else opCount opCounts op'.
Proof.
  unfold opCount. rewrite lookup_insert. destruct (decide (op = op')); reflexivity.
Qed.

(** The tally of a page that went through. *)
Lemma processChunk_tally {W} (host : Host W) (bot : Stalebot W) (now : Time)
    (chunk : list Issue) (opCounts opCounts' : gmap Operation Z) (w w' : W) (t : list Event) :
  processChunk host bot now chunk opCounts w = ((opCounts', None), w', t) ->
  (forall op, 0 <= opCount opCounts op) ->
  (forall op, opCount opCounts op + len chunk < 2 ^ 63) ->
  forall op, opCount opCounts' op =
             opCount opCounts op + countOp (bot_Config bot) now op chunk.
Proof.
  revert opCounts w t.
  induction chunk as [|issue rest IH]; intros opCounts w t Hrun Hpos Hfit op.
  - cbn [processChunk] in Hrun. unfold ret in Hrun. injection Hrun as <- _ _.
    rewrite countOp_nil. lia.
  - cbn [processChunk] in Hrun. unfold bind in Hrun.
    destruct (processIssue host bot _ issue w) as [[[e|] w1] t1];
      [unfold ret in Hrun; discriminate Hrun|].
    destruct (processChunk host bot now rest _ w1) as [[r w2] t2] eqn:Hrest.
    injection Hrun as -> -> _.
    assert (Hlen : len (issue :: rest) = 1 + len rest).
    { unfold len. cbn [length]. lia. }
    assert (Hlen0 : 0 <= len rest) by (unfold len; lia).
    set (op0 := IssueOperation (bot_Config bot) now issue) in *.
    assert (Hone : int64_add (opCount opCounts op0) 1 = opCount opCounts op0 + 1).
    { unfold int64_add. apply int64_wrap_fits. unfold int64_fits.
      specialize (Hpos op0). specialize (Hfit op0). lia. }
    rewrite (IH _ _ _ Hrest).
    + rewrite opCount_insert, countOp_cons, Hone. fold op0.
      destruct (decide (op0 = op)) as [Heq | Hne].
      * rewrite (bool_decide_eq_true_2 _ Heq). subst op. lia.
      * rewrite (bool_decide_eq_false_2 _ Hne). lia.
    + intros op'. rewrite opCount_insert, Hone.
      destruct (decide (op0 = op')); [specialize (Hpos op0); lia | apply Hpos].
    + intros op'. rewrite opCount_insert, Hone.
      destruct (decide (op0 = op')) as [<- | _];
        [specialize (Hfit op0) | specialize (Hfit op')]; lia.
Qed.

Lemma searchLoop_tally {W} (host : Host W) (fuel : nat) (bot : Stalebot W)
    (query : string) (now : Time) (last processed processed' : Z)
    (opCounts opCounts' : gmap Operation Z) (w w' : W) (t : list Event) :
  searchLoop host fuel bot query now last processed opCounts w
  = (Break processed' opCounts', w', t) ->
  (forall op, 0 <= opCount opCounts op <= processed) ->
  processed + len (foundIssues t) < 2 ^ 63 ->
  processed' = processed + len (foundIssues t) /\
  forall op, opCount opCounts' op =
             opCount opCounts op + countOp (bot_Config bot) now op (foundIssues t).
Proof.
  revert last processed opCounts w t.
  induction fuel as [|fuel IH]; intros last processed opCounts w t Hrun Hinv Hfit;
    [discriminate Hrun|].
  cbn [searchLoop] in Hrun. unfold Client_Search, bind, call in Hrun.
  destruct (Issue_Search (bot_Client bot) query _ w) as [[[chunk resp] [err|]] w1];
    [discriminate Hrun|].
  cbn [fst snd] in Hrun.
  destruct (processChunk host bot now chunk opCounts w1) as [[[oc1 [err|]] w2] t2] eqn:Hchunk;
    [discriminate Hrun|].
  pose proof (processChunk_no_search host bot now chunk opCounts w1) as Hnos.
  rewrite Hchunk in Hnos. unfold trace_of in Hnos. cbn [snd] in Hnos.
  assert (Hlen0 : forall l : list Issue, 0 <= len l) by (intros l; unfold len; lia).
  assert (Hprocessed : 0 <= processed) by (specialize (Hinv OpNone); lia).
  destruct (Resp_Total resp <=? _).
  - unfold ret in Hrun. injection Hrun as <- <- _ <-.
    cbn [app foundIssues] in *. rewrite foundIssues_app, Hnos in *.
    cbn [app foundIssues] in *. rewrite app_nil_r in *.
    assert (Hp : int64_add processed (len chunk) = processed + len chunk).
    { apply int64_wrap_fits. unfold int64_fits. specialize (Hlen0 chunk). lia. }
    split; [exact Hp|].
    apply (processChunk_tally host bot now chunk opCounts oc1 w1 w2 t2 Hchunk).
    + intros op. apply Hinv.
    + intros op. specialize (Hinv op). lia.
  - destruct (searchLoop host fuel bot query now _ _ oc1 w2) as [[fin w3] t3] eqn:Hrest.
    injection Hrun as -> -> <-.
    cbn [app foundIssues] in *. rewrite !foundIssues_app, Hnos in *.
    cbn [app] in *. unfold len in Hfit. rewrite length_app in Hfit.
    assert (Hp : int64_add processed (len chunk) = processed + len chunk).
    { apply int64_wrap_fits. unfold int64_fits, len. lia. }
    rewrite Hp in Hrest.
    assert (Htally : forall op, opCount oc1 op =
                                opCount opCounts op + countOp (bot_Config bot) now op chunk).
    { apply (processChunk_tally host bot now chunk opCounts oc1 w1 w2 t2 Hchunk).
      - intros op. apply Hinv.
      - intros op. specialize (Hinv op). unfold len. lia. }
    destruct (IH _ _ _ _ _ Hrest) as [Hp' Hoc'].
    + intros op. rewrite Htally.
      pose proof (countOp_bounds (bot_Config bot) now op chunk). specialize (Hinv op). lia.
    + unfold len in *. lia.
    + split.
      * rewrite Hp'. unfold len. rewrite length_app. lia.
      * intros op. rewrite Hoc', Htally, countOp_app. lia.
Qed.

(** X23: the closing lines of a run that returns without error tell the
    truth: the count of eligible issues is the number of issues the
    searches returned, and the three operation counts are the numbers of
    those issues the evaluator maps to each operation (as long as there
    are fewer than 2^63 of them). *)
Theorem Run_reports_the_tally {W} `{GoQuote} (host : Host W) (fuel : nat) (bot : Stalebot W)
    (w : W) :
  result_of (Run host fuel bot w) = Some None ->
  len (foundIssues (trace_of (Run host fuel bot w))) < 2 ^ 63 ->
  exists tr,
    trace_of (Run host fuel bot w) =
    tr ++
    [EvLog [] "found eligible issues" [("count", LogInt (len (foundIssues tr)))];
     EvLog [] "operations"
       [("AddStaleLabel",
         LogInt (countOp (bot_Config bot) (fst (time_Now host w)) AddStaleLabel
                   (foundIssues tr)));
        ("RemoveStaleLabel",
         LogInt (countOp (bot_Config bot) (fst (time_Now host w)) RemoveStaleLabel
                   (foundIssues tr)));
        ("Close",
         LogInt (countOp (bot_Config bot) (fst (time_Now host w)) Close
                   (foundIssues tr)))]].
Proof.
  intros Hok Hfit.
  rewrite Run_trace in *.
  unfold Run in Hok.
  destruct (Validate (bot_Config bot)); [discriminate Hok|].
  unfold bind, Logger_Info, emit, ret, result_of in Hok. rewrite quiet_run in Hok.
  cbn [fst snd] in Hok.
  destruct (searchLoop host fuel bot (EligibleIssuesQuery (bot_Config bot))
              (fst (time_Now host w)) 0 0 ∅ (snd (time_Now host w)))
    as [[fin w1] t1] eqn:Hloop.
  unfold result_of, trace_of in *. cbn [fst snd] in *.
  destruct fin as [processed opCounts | err |]; try discriminate Hok.
  change (?e :: t1 ++ ?u) with (([e] ++ t1) ++ u) in *.
  rewrite !foundIssues_app in Hfit. cbn [foundIssues app] in Hfit.
  rewrite app_nil_r in Hfit.
  destruct (searchLoop_tally host fuel bot _ _ 0 0 processed ∅ opCounts _ w1 t1 Hloop)
    as [Hp Hoc].
  - intros op. unfold opCount. rewrite lookup_empty. simpl. lia.
  - lia.
  - eexists. f_equal.
    rewrite foundIssues_app. cbn [foundIssues app].
    rewrite Hp, !Hoc. unfold opCount. rewrite !lookup_empty. reflexivity.
Qed.

Lemma Run_reports_the_tally_witness :
  result_of (@Run unit Sample.quote Sample.host 1
               (Sample.bot Sample.cfgExempt
                  [Sample.staleCandidate; Sample.markedLongAgo; Sample.doneWithStaleLabel;
                   Sample.staleCandidate]) tt) = Some None /\
  exists tr,
    trace_of (@Run unit Sample.quote Sample.host 1
                (Sample.bot Sample.cfgExempt
                   [Sample.staleCandidate; Sample.markedLongAgo; Sample.doneWithStaleLabel;
                    Sample.staleCandidate]) tt) =
    tr ++
    [EvLog [] "found eligible issues" [("count", LogInt (len (foundIssues tr)))];
     EvLog [] "operations"
       [("AddStaleLabel",
         LogInt (countOp Sample.cfgExempt Sample.now AddStaleLabel (foundIssues tr)));
        ("RemoveStaleLabel",
         LogInt (countOp Sample.cfgExempt Sample.now RemoveStaleLabel (foundIssues tr)));
        ("Close",
         LogInt (countOp Sample.cfgExempt Sample.now Close (foundIssues tr)))]].
Proof.
  split; [reflexivity|].
  apply (@Run_reports_the_tally unit Sample.quote Sample.host 1
           (Sample.bot Sample.cfgExempt
              [Sample.staleCandidate; Sample.markedLongAgo; Sample.doneWithStaleLabel;
               Sample.staleCandidate]) tt).
  - reflexivity.
  - vm_compute. reflexivity.
Defined.

(** The run of the witness, computed: four issues, two to mark and one to
    close. *)
Example Run_tally_of_four :
  List.filter (fun e => match e with
                        | EvLog [] _ _ => true
                        | _ => false
                        end)
    (trace_of (@Run unit Sample.quote Sample.host 1
                 (Sample.bot Sample.cfgExempt
                    [Sample.staleCandidate; Sample.markedLongAgo; Sample.doneWithStaleLabel;
                     Sample.staleCandidate]) tt)) =
  [EvLog [] "querying jira"
     [("jql", LogString (@EligibleIssuesQuery Sample.quote Sample.cfgExempt))];
   EvLog [] "found eligible issues" [("count", LogInt 4)];
   EvLog [] "operations"
     [("AddStaleLabel", LogInt 2); ("RemoveStaleLabel", LogInt 0); ("Close", LogInt 1)]].
Proof. vm_compute. reflexivity. Qed.

Lemma processChunk_dry_run_goes_through {W} (host : Host W) (bot : Stalebot W) (now : Time)
    (chunk : list Issue) (opCounts : gmap Operation Z) (w : W) :
  bot_DryRun bot = true -> bot_Prompt bot = false ->
  snd (result_of (processChunk host bot now chunk opCounts w)) = None.
Proof.
  intros Hdry Hprompt. revert opCounts w.
  induction chunk as [|issue rest IH]; intros opCounts w; [reflexivity|].
  cbn [processChunk]. unfold bind, result_of.
  assert (Hnone : result_of (processIssue host bot
                               (IssueOperation (bot_Config bot) now issue) issue w) = None).
  { unfold processIssue. destruct (decide _); [reflexivity|].
    unfold confirm. rewrite Hprompt, Hdry. reflexivity. }
  unfold result_of in Hnone.
  destruct (processIssue host bot _ issue w) as [[r w1] t1]. cbn [fst] in Hnone. subst r.
  specialize (IH (<[IssueOperation (bot_Config bot) now issue :=
                     int64_add (opCount opCounts (IssueOperation (bot_Config bot) now issue)) 1]>
                   opCounts) w1).
  unfold result_of in IH.
  destruct (processChunk host bot now rest _ w1) as [[r2 w2] t2]. exact IH.
Qed.

Lemma searchLoop_pages {W} (host : Host W) (bot : Stalebot W) (query : string) (now : Time)
    (issues : list Issue) (pageSize : nat) :
  bot_DryRun bot = true -> bot_Prompt bot = false ->
  (0 < pageSize)%nat ->
  len issues < 2 ^ 63 ->
  (forall jql opt w,
      fst (Issue_Search (bot_Client bot) jql opt w) =
      (take pageSize (drop (Z.to_nat opt.(Opt_StartAt)) issues),
       {| Resp_StartAt := opt.(Opt_StartAt); Resp_Total := len issues |}, None)) ->
  forall (fuel n : nat) (processed : Z) (opCounts : gmap Operation Z) (w : W),
    (n <= length issues)%nat ->
    (length issues - n < fuel)%nat ->
    (exists processed' opCounts',
        result_of (searchLoop host fuel bot query now (Z.of_nat n) processed opCounts w)
        = Break processed' opCounts') /\
    foundIssues (trace_of (searchLoop host fuel bot query now (Z.of_nat n) processed opCounts w))
    = drop n issues.
Proof.
  intros Hdry Hprompt Hpage Hfits Hserver.
  induction fuel as [|fuel IH]; intros n processed opCounts w Hn Hfuel; [lia|].
  cbn [searchLoop].
  unfold Client_Search, bind, call, result_of, trace_of.
  match goal with
  | |- context [Issue_Search (bot_Client bot) query ?opt w] =>
      pose proof (Hserver query opt w) as Hsearch;
      destruct (Issue_Search (bot_Client bot) query opt w) as [r w1]
  end.
  cbn [fst Opt_StartAt] in Hsearch. rewrite Nat2Z.id in Hsearch. subst r.
  cbn [fst snd].
  set (chunk := take pageSize (drop n issues)).
  pose proof (processChunk_dry_run_goes_through host bot now chunk opCounts w1 Hdry Hprompt)
    as Hgo.
  pose proof (processChunk_no_search host bot now chunk opCounts w1) as Hnos.
  unfold result_of, trace_of in Hgo, Hnos.
  destruct (processChunk host bot now chunk opCounts w1) as [[[oc1 err] w2] t2].
  cbn [fst snd] in Hgo, Hnos. subst err. cbn [Resp_Total Resp_StartAt].
  assert (Hlen : length chunk = Nat.min pageSize (length issues - n)).
  { unfold chunk. rewrite length_take, length_drop. reflexivity. }
  assert (Hlast : int64_add (Z.of_nat n) (len chunk) = Z.of_nat (n + length chunk)).
  { unfold int64_add, len. rewrite int64_wrap_fits; [lia|].
    unfold int64_fits, len in *. lia. }
  rewrite Hlast.
  destruct (len issues <=? Z.of_nat (n + length chunk)) eqn:Hend.
  - apply Z.leb_le in Hend. unfold len in Hend.
    unfold ret. cbn [fst snd app foundIssues].
    split; [eexists; eexists; reflexivity|].
    rewrite foundIssues_app, Hnos. cbn [app foundIssues]. rewrite !app_nil_r.
    unfold chunk. apply take_ge. rewrite length_drop. lia.
  - apply Z.leb_gt in Hend. unfold len in Hend.
    assert (Hfull : length chunk = pageSize) by lia.
    destruct (IH (n + length chunk)%nat (int64_add processed (len chunk)) oc1 w2)
      as [(p' & oc' & Hres) Hfound]; [lia | lia |].
    unfold result_of, trace_of in Hres, Hfound.
    destruct (searchLoop host fuel bot query now _ _ oc1 w2) as [[fin w3] t3].
    cbn [fst snd] in *. subst fin.
    split; [eexists; eexists; reflexivity|].
    cbn [app foundIssues]. rewrite !foundIssues_app, Hnos, Hfound. cbn [app].
    rewrite Hfull. unfold chunk.
    rewrite <- drop_drop. apply take_drop.
Qed.

(** X24: against a server that returns its issues page by page (the page
    from the offset asked for, with the offset and the total), a dry run
    without prompts ends after at most one search per issue, plus one, and
    the pages it evaluated are the issues of the server, each once and in
    order. *)
Theorem Run_pages_cover {W} `{GoQuote} (host : Host W) (fuel : nat) (bot : Stalebot W)
    (issues : list Issue) (pageSize : nat) (w : W) :
  Validate (bot_Config bot) = None ->
  bot_DryRun bot = true -> bot_Prompt bot = false ->
  (0 < pageSize)%nat ->
  len issues < 2 ^ 63 ->
  (forall jql opt w,
      fst (Issue_Search (bot_Client bot) jql opt w) =
      (take pageSize (drop (Z.to_nat opt.(Opt_StartAt)) issues),
       {| Resp_StartAt := opt.(Opt_StartAt); Resp_Total := len issues |}, None)) ->
  (length issues < fuel)%nat ->
  result_of (Run host fuel bot w) = Some None /\
  foundIssues (trace_of (Run host fuel bot w)) = issues.
Proof.
  intros Hvalid Hdry Hprompt Hpage Hfits Hserver Hfuel.
  destruct (searchLoop_pages host bot (EligibleIssuesQuery (bot_Config bot))
              (fst (time_Now host w)) issues pageSize Hdry Hprompt Hpage Hfits Hserver
              fuel 0%nat 0 ∅ (snd (time_Now host w)))
    as [(p' & oc' & Hres) Hfound]; [lia | lia |].
  change (Z.of_nat 0) with 0 in *.
  split.
  - unfold Run. rewrite Hvalid.
    unfold bind, Logger_Info, emit, ret, result_of in *. rewrite quiet_run.
    cbn [fst snd].
    destruct (searchLoop host fuel bot _ _ 0 0 ∅ _) as [[fin w1] t1].
    cbn [fst] in Hres. subst fin. reflexivity.
  - rewrite Run_trace, Hvalid, Hres.
    change (?e :: ?t ++ ?u) with (([e] ++ t) ++ u).
    rewrite !foundIssues_app, Hfound. cbn [foundIssues app].
    rewrite app_nil_r. reflexivity.
Qed.

Lemma Run_pages_cover_witness :
  result_of (@Run unit Sample.quote Sample.host 102
               (Sample.botWith (Sample.pagedServer Sample.manyStale 25)
                  Sample.cfgExempt true false) tt) = Some None /\
  foundIssues (trace_of (@Run unit Sample.quote Sample.host 102
                           (Sample.botWith (Sample.pagedServer Sample.manyStale 25)
                              Sample.cfgExempt true false) tt)) = Sample.manyStale.
Proof.
  apply (@Run_pages_cover unit Sample.quote Sample.host 102
           (Sample.botWith (Sample.pagedServer Sample.manyStale 25) Sample.cfgExempt true false)
           Sample.manyStale 25 tt).
  - reflexivity.
  - reflexivity.
  - reflexivity.
  - lia.
  - vm_compute. reflexivity.
  - intros jql opt []. reflexivity.
  - vm_compute. lia.
Defined.

(** ** The earlier stalebot.go *)

Lemma In_insert_sorted (x y : string) (l : list string) :
  In x (insert_sorted y l) <-> x = y \/ In x l.
Proof.
  induction l as [|z l IH]; simpl.
  - intuition.
  - destruct (String.leb y z); simpl; [intuition|]. rewrite IH. intuition.
Qed.

Lemma In_foldr_insert_sorted (x : string) (l : list string) :
  In x (foldr insert_sorted [] l) <-> In x l.
Proof.
  induction l as [|y l IH]; simpl; [reflexivity|].
  rewrite In_insert_sorted, IH. intuition.
Qed.

Lemma In_sets_List (s : gset string) (x : string) : In x (sets_List s) <-> x ∈ s.
Proof.
  unfold sets_List. rewrite In_foldr_insert_sorted, <- list_elem_of_In.
  apply elem_of_elements.
Qed.

Lemma Sorted_insert_sorted (y : string) (l : list string) :
  Sorted (fun a b => String.leb a b = true) l ->
  Sorted (fun a b => String.leb a b = true) (insert_sorted y l).
Proof.
  induction l as [|z l IH]; intros Hs; simpl.
  - repeat constructor.
  - destruct (String.leb y z) eqn:Eyz.
    + constructor; [exact Hs | constructor; exact Eyz].
    + inversion Hs as [|? ? Hl Hhd]; subst.
      constructor; [apply IH, Hl|].
      assert (Hzy : String.leb z y = true).
      { destruct (String.leb_total z y) as [H | H]; [exact H | congruence]. }
      destruct l as [|u l]; simpl.
      * constructor. exact Hzy.
      * destruct (String.leb y u); constructor; [exact Hzy|].
        inversion Hhd; assumption.
Qed.

Lemma NoDup_insert_sorted (y : string) (l : list string) :
  ~ In y l -> List.NoDup l -> List.NoDup (insert_sorted y l).
Proof.
  induction l as [|z l IH]; intros Hy Hl; simpl.
  - constructor; [intros [] | constructor].
  - destruct (String.leb y z).
    + constructor; assumption.
    + inversion Hl as [|? ? Hz Hl']; subst. constructor.
      * rewrite In_insert_sorted. intros [-> | Hin]; [apply Hy; left; reflexivity | contradiction].
      * apply IH; [intros Hin; apply Hy; right; exact Hin | exact Hl'].
Qed.

Lemma sets_List_sorted (s : gset string) :
  Sorted (fun a b => String.leb a b = true) (sets_List s) /\ List.NoDup (sets_List s).
Proof.
  unfold sets_List.
  pose proof (NoDup_elements s) as Hnd.
  induction Hnd as [|y l Hy Hl IH]; simpl.
  - split; constructor.
  - destruct IH as [Hs Hn]. split; [apply Sorted_insert_sorted, Hs|].
    apply NoDup_insert_sorted; [|exact Hn].
    intros Hin. apply Hy. apply list_elem_of_In, In_foldr_insert_sorted, Hin.
Qed.

(** X27: [removeStaleLabel] of the earlier stalebot.go sends the issue
    with the labels it had except the stale label, each once and in
    sorted order, without notifying the users, to the server as it finds
    it, and only when that update was accepted posts the unmark comment, on
    the server as the update left it; it returns the wrapped error of the
    call that failed, or nil. *)
Theorem Legacy_removeStaleLabel_updates_first {W} (bot : Stalebot W) (issue : Issue) (w : W) :
  exists kept,
    (forall l, In l kept <->
               In l issue.(Issue_Fields).(Fields_Labels) /\ l <> (bot_Config bot).(StaleLabel)) /\
    Sorted (fun a b => String.leb a b = true) kept /\
    List.NoDup kept /\
    Legacy.removeStaleLabel bot issue w =
    (let unmarked := Legacy.set_Labels kept issue in
     let '(updated, w1) := Issue_Update (bot_Client bot) unmarked false w in
     match updated with
     | Some err =>
         (Some (Errorf "remove stale label %q from issue: %v"
                  [ArgString (bot_Config bot).(StaleLabel); ArgError err]),
          w1,
          [EvUpdate unmarked false])
     | None =>
         let '(commented, w2) :=
           Issue_AddComment (bot_Client bot) issue.(Issue_ID)
             (bot_Config bot).(UnmarkComment) w1 in
         (match commented with
          | Some err => Some (Errorf "add unmark comment to issue: %v" [ArgError err])
          | None => None
          end,
          w2,
          [EvUpdate unmarked false;
           EvAddComment issue.(Issue_ID) (bot_Config bot).(UnmarkComment)])
     end).
Proof.
  exists (sets_List (sets_Delete (sets_NewString issue.(Issue_Fields).(Fields_Labels))
                       (bot_Config bot).(StaleLabel))).
  split; [|split; [|split]].
  - intros l. rewrite In_sets_List. unfold sets_Delete, sets_NewString.
    rewrite elem_of_difference, elem_of_list_to_set, list_elem_of_In, elem_of_singleton.
    reflexivity.
  - apply sets_List_sorted.
  - apply sets_List_sorted.
  - unfold Legacy.removeStaleLabel, Client_Update, Client_AddComment, bind, call, ret.
    cbn zeta. cbn [Legacy.set_Labels Issue_ID].
    destruct (Issue_Update (bot_Client bot) _ false w) as [[err|] w1]; cbn iota beta;
      [reflexivity|].
    destruct (Issue_AddComment (bot_Client bot) _ _ w1) as [[err|] w2]; reflexivity.
Qed.

(** The labels go out sorted and once each, and the update is the older
    entry of the journal. *)
Example Legacy_removeStaleLabel_journal :
  Legacy.removeStaleLabel Sample.journalBot
    (Sample.issue "new" ["zeta"; "lifecycle-stale"; "alpha"; "zeta"] Sample.now []) [] =
  (None,
   ["put of 10100"; "comment: no longer stale"],
   [EvUpdate (Sample.issue "new" ["alpha"; "zeta"] Sample.now []) false;
    EvAddComment "10100" "no longer stale"]).
Proof. vm_compute. reflexivity. Qed.

(** ** The body of the run loop *)

(** X28: in a run that neither prompts nor runs dry, an operation other
    than [None] is logged as being performed, then dispatched; when the
    dispatch fails the loop returns an error that names the operation and
    the key of the issue and wraps the cause, and logs no success; when it
    succeeds the success is logged and the loop goes on. *)
Theorem processIssue_reports {W} (host : Host W) (bot : Stalebot W) (op : Operation)
    (issue : Issue) (w : W) :
  op <> OpNone -> bot_Prompt bot = false -> bot_DryRun bot = false ->
  result_of (processIssue host bot op issue w) =
  match result_of (dispatch bot op issue w) with
  | Some (Some err) =>
      Some (Errorf "operation %q failed on issue %q: %v"
              [ArgString (Operation_string op); ArgString issue.(Issue_Key); ArgError err])
  | _ => None
  end /\
  trace_of (processIssue host bot op issue w) =
  EvLog [("key", LogString issue.(Issue_Key))] "performing operation"
    [("op", LogString (Operation_string op))]
  :: trace_of (dispatch bot op issue w) ++
     match result_of (dispatch bot op issue w) with
     | Some None =>
         [EvLog [("key", LogString issue.(Issue_Key))] "operation succeeded"
            [("op", LogString (Operation_string op))]]
     | _ => []
     end.
Proof.
  intros Hop Hprompt Hdry.
  unfold processIssue, confirm. rewrite Hprompt, Hdry.
  destruct (decide (op = OpNone)) as [|_]; [contradiction|].
  unfold bind, ret, Logger_Info, emit, trace_of, result_of. cbn [fst snd app].
  destruct (dispatch bot op issue w) as [[[[err|]|] w1] t1]; cbn [fst snd app];
    rewrite ?app_nil_r; split; reflexivity.
Qed.

Lemma processIssue_reports_witness :
  Close <> OpNone /\
  result_of (processIssue Sample.host
               (Sample.botWith (Sample.server [] []) Sample.cfgExempt false false)
               Close Sample.markedLongAgo tt) =
  Some (Errorf "operation %q failed on issue %q: %v"
          [ArgString "Close"; ArgString "TEST-100";
           ArgError (Errorf "get transition ID: %v"
                       [ArgError (Errorf "no transition found to status %q"
                                    [ArgString "Closed"])])]) /\
  trace_of (processIssue Sample.host
              (Sample.botWith (Sample.server [] []) Sample.cfgExempt false false)
              Close Sample.markedLongAgo tt) =
  [EvLog [("key", LogString "TEST-100")] "performing operation" [("op", LogString "Close")];
   EvGetTransitions "10100"].
Proof.
  split; [discriminate|].
  exact (processIssue_reports Sample.host
           (Sample.botWith (Sample.server [] []) Sample.cfgExempt false false)
           Close Sample.markedLongAgo tt ltac:(discriminate) eq_refl eq_refl).
Defined.
